(** * system_monitoring_prometheus: the scrape, rate and report pipeline

    A shallow embedding of [write_into_db.py] (exposition parser, rate
    calculator, metric collectors, sink), of the runner [main.py] and of
    the CPU utilisation computations of [sheet_to_looker.py] and
    [monthly.py], followed by the properties of the specification.

    Modelling conventions.
    - Python [str] is [string]; characters are the code points below 256.
    - A [float] is an exact rational or one of the IEEE 754 special values
      (infinities and NaN).  Rounding to binary64 and the sign of zero are
      abstracted; what the code does at NaN and at a zero divisor is kept.
    - A pandas [DataFrame] is a list of column names and a list of rows,
      each row holding one cell per column.  A missing value is the float
      NaN, as in pandas.  Column names are looked up first match.
    - Effects (HTTP fetches, the clock, the database, the console) are
      threaded through a state and exception monad over [World]. *)

From Stdlib Require Import List String Ascii Bool Arith ZArith NArith QArith Lia.
From Stdlib Require Import Qreduction Qround Lqa DecimalString.
Import ListNotations.

Close Scope Q_scope.
Open Scope string_scope.
Open Scope list_scope.

(** ** Floats *)

Inductive float : Type :=
| Fin (q : Q)
| PInf
| NInf
| NaN.

Module Float.

Definition zero : float := Fin 0%Q.
Definition of_Z (z : Z) : float := Fin (inject_Z z).

Definition is_nan (x : float) : bool :=
  match x with NaN => true | _ => false end.

Definition sgn (q : Q) : Z := Z.sgn (Qnum q).

Definition neg (x : float) : float :=
  match x with
  | Fin q => Fin (Qred (- q)%Q)
  | PInf => NInf
  | NInf => PInf
  | NaN => NaN
  end.

Definition add (x y : float) : float :=
  match x, y with
  | NaN, _ | _, NaN => NaN
  | PInf, NInf | NInf, PInf => NaN
  | PInf, _ | _, PInf => PInf
  | NInf, _ | _, NInf => NInf
  | Fin a, Fin b => Fin (Qred (a + b)%Q)
  end.

Definition sub (x y : float) : float := add x (neg y).

Definition inf_of_sign (s : Z) : float :=
  match s with
  | Z0 => NaN
  | Zpos _ => PInf
  | Zneg _ => NInf
  end.

Definition sign_of (x : float) : Z :=
  match x with
  | Fin q => sgn q
  | PInf => 1%Z
  | NInf => (-1)%Z
  | NaN => 0%Z
  end.

Definition mul (x y : float) : float :=
  match x, y with
  | NaN, _ | _, NaN => NaN
  | Fin a, Fin b => Fin (Qred (a * b)%Q)
  | _, _ => inf_of_sign (sign_of x * sign_of y)%Z
  end.

(** Division as NumPy performs it on float64: no exception at a zero
    divisor, [0/0] is NaN and [x/0] an infinity of the sign of [x]. *)
Definition div (x y : float) : float :=
  match x, y with
  | NaN, _ | _, NaN => NaN
  | Fin a, Fin b =>
      if Qeq_bool b 0%Q then inf_of_sign (sgn a) else Fin (Qred (a / b)%Q)
  | Fin _, _ => zero
  | _, Fin b => inf_of_sign (sign_of x * (if Qeq_bool b 0%Q then 1 else sgn b))%Z
  | _, _ => NaN
  end.

(** [x <= y]; every comparison with NaN is false. *)
Definition leb (x y : float) : bool :=
  match x, y with
  | NaN, _ | _, NaN => false
  | NInf, _ => true
  | _, PInf => true
  | Fin a, Fin b => Qle_bool a b
  | _, _ => false
  end.

Definition ltb (x y : float) : bool :=
  match x, y with
  | NaN, _ | _, NaN => false
  | Fin a, Fin b => negb (Qle_bool b a)
  | PInf, _ => false
  | _, NInf => false
  | _, _ => true
  end.

(** Numeric equality, with NaN equal to NaN as pandas has it when it
    matches join keys. *)
Definition eqb (x y : float) : bool :=
  match x, y with
  | Fin a, Fin b => Qeq_bool a b
  | PInf, PInf | NInf, NInf | NaN, NaN => true
  | _, _ => false
  end.

(** [Series.clip(lower, upper)]: NaN stays NaN. *)
Definition clip (lo hi x : float) : float :=
  if ltb x lo then lo else if ltb hi x then hi else x.

End Float.

(** ** Characters and text *)

Module Text.

Definition code (c : ascii) : N := N_of_ascii c.

Definition is_digit (c : ascii) : bool :=
  ((48 <=? code c) && (code c <=? 57))%N.

(** [\w] of Python's [re] on [str]: alphanumeric code points and the
    underscore; below 256 these are the ASCII letters and digits and the
    Latin-1 letters and numerics. *)
Definition is_word (c : ascii) : bool :=
  let n := code c in
  (is_digit c
   || ((65 <=? n) && (n <=? 90)) || ((97 <=? n) && (n <=? 122))
   || (n =? 95)
   || (n =? 170) || (n =? 178) || (n =? 179) || (n =? 181)
   || (n =? 185) || (n =? 186) || (n =? 188) || (n =? 189) || (n =? 190)
   || ((192 <=? n) && (n <=? 214)) || ((216 <=? n) && (n <=? 246))
   || (248 <=? n))%N.

(** The class [[0-9.e+-]] of the value group. *)
Definition is_value_char (c : ascii) : bool :=
  (is_digit c || (code c =? 46) || (code c =? 101)
   || (code c =? 43) || (code c =? 45))%N.

(** Line boundaries of [str.splitlines], below 256. *)
Definition is_boundary (c : ascii) : bool :=
  let n := code c in
  ((n =? 10) || (n =? 11) || (n =? 12) || (n =? 13)
   || (n =? 28) || (n =? 29) || (n =? 30) || (n =? 133))%N.

Definition is_cr (c : ascii) : bool := (code c =? 13)%N.
Definition is_lf (c : ascii) : bool := (code c =? 10)%N.

(** [str.splitlines()]: a boundary ends the current line, ["\r\n"] is one
    boundary, and no empty line follows a final boundary. *)
Fixpoint splitlines (s : string) : list string :=
  match s with
  | EmptyString => []
  | String c s' =>
      if is_boundary c then
        EmptyString ::
          (if is_cr c then
             match s' with
             | String d s'' => if is_lf d then splitlines s'' else splitlines s'
             | EmptyString => []
             end
           else splitlines s')
      else
        match splitlines s' with
        | [] => [String c EmptyString]
        | l :: ls => String c l :: ls
        end
  end.

(** The longest prefix whose characters satisfy [p], and the rest. *)
Fixpoint span (p : ascii -> bool) (s : string) : string * string :=
  match s with
  | EmptyString => (EmptyString, EmptyString)
  | String c s' =>
      if p c then let (a, b) := span p s' in (String c a, b)
      else (EmptyString, s)
  end.

(** [strip_prefix p s] is the rest of [s] after the literal [p]. *)
Fixpoint strip_prefix (p s : string) : option string :=
  match p with
  | EmptyString => Some s
  | String a p' =>
      match s with
      | EmptyString => None
      | String b s' => if Ascii.eqb a b then strip_prefix p' s' else None
      end
  end.

Definition is_close_brace (c : ascii) : bool := (code c =? 125)%N.
Definition is_quote (c : ascii) : bool := (code c =? 34)%N.

(** *** The two shapes of metric pattern

    Every pattern the collectors pass to [parse_metric] is a literal
    metric name, a label block in braces captured as group 1 (any run of
    characters other than the closing brace), one space and the value
    class repeated at least once as group 2.  For the memory gauge the
    braces with their block are optional as a whole. *)
Record pattern : Type := mkPattern {
  metric : string;
  braces_optional : bool
}.

(** The tail of both shapes: one space, then the longest non-empty run of
    value characters.  [labels_str] is the first group. *)
Definition match_value (labels_str : option string) (s : string)
  : option (option string * string) :=
  match s with
  | String c v =>
      if (code c =? 32)%N then
        match fst (span is_value_char v) with
        | EmptyString => None
        | value => Some (labels_str, value)
        end
      else None
  | EmptyString => None
  end.

(** [regex.match(line)] with [m.groups()]: the match is anchored at the
    start of the line only.  The greedy label block stops at the first closing
    brace, and no shorter choice can make the rest match; a group that did
    not take part is [None]. *)
Definition re_match (p : pattern) (line : string)
  : option (option string * string) :=
  match strip_prefix (metric p) line with
  | None => None
  | Some rest =>
      let skip := if braces_optional p then match_value None rest else None in
      match rest with
      | String c r =>
          if (code c =? 123)%N then
            match span (fun c => negb (is_close_brace c)) r with
            | (block, String _ after) => match_value (Some block) after
            | (_, EmptyString) => skip
            end
          else skip
      | EmptyString => skip
      end
  end.

(** The lazy second group of the label pattern: the text up to the first
    quote, the dot standing for any character but a newline. *)
Fixpoint until_quote (s : string) : option string :=
  match s with
  | EmptyString => None
  | String c s' =>
      if is_quote c then Some EmptyString
      else if is_lf c then None
      else option_map (String c) (until_quote s')
  end.

(** One match of the label pattern (a non-empty run of word characters,
    an equals sign, a quoted text) at the start of [s]: the two groups
    and the length of the match. *)
Definition match_pair (s : string) : option (string * string * nat) :=
  match span is_word s with
  | (EmptyString, _) => None
  | (key, String e (String q r)) =>
      if ((code e =? 61) && is_quote q)%N then
        match until_quote r with
        | Some v => Some (key, v, String.length key + 2 + String.length v + 1)
        | None => None
        end
      else None
  | _ => None
  end.

(** [re.findall]: matches are sought from left to right, the search
    resuming behind each match; [skip] counts the characters of the last
    match still to be passed. *)
Fixpoint findall_pairs (skip : nat) (s : string) : list (string * string) :=
  match s with
  | EmptyString => []
  | String _ s' =>
      match skip with
      | S n => findall_pairs n s'
      | O =>
          match match_pair s with
          | Some (k, v, n) => (k, v) :: findall_pairs (pred n) s'
          | None => findall_pairs 0 s'
          end
      end
  end.

Definition findall (s : string) : list (string * string) := findall_pairs 0 s.

(** *** [float()] on a text of value characters *)

Fixpoint digits_value (acc : Z) (s : string) : Z :=
  match s with
  | EmptyString => acc
  | String c s' => digits_value (10 * acc + Z.of_N (code c - 48)) s'
  end.

(** An optional sign: [true] for a minus. *)
Definition take_sign (s : string) : bool * string :=
  match s with
  | String c s' =>
      if (code c =? 45)%N then (true, s')
      else if (code c =? 43)%N then (false, s')
      else (false, s)
  | EmptyString => (false, s)
  end.

(** [m * 10^k] as a float. *)
Definition scale10 (m k : Z) : float :=
  if (0 <=? k)%Z then Fin (inject_Z (m * 10 ^ k))
  else Fin (Qred (Qmake m (Z.to_pos (10 ^ (- k))))).

(** The exponent part: absent, or [e], an optional sign and digits up to
    the end of the text. *)
Definition parse_exponent (s : string) : option Z :=
  match s with
  | EmptyString => Some 0%Z
  | String c t =>
      if (code c =? 101)%N then
        let (neg, t') := take_sign t in
        match span is_digit t' with
        | (EmptyString, _) => None
        | (ds, EmptyString) =>
            Some (if neg then (- digits_value 0 ds)%Z else digits_value 0 ds)
        | _ => None
        end
      else None
  end.

(** Python's [float(text)] where [text] consists of value characters, the
    only texts [parse_metric] passes to it: an optional sign, digits with
    an optional point (a digit on at least one side), an optional
    exponent.  [None] is the [ValueError]. *)
Definition python_float (text : string) : option float :=
  let (neg, s1) := take_sign text in
  let (ip, s2) := span is_digit s1 in
  let (fp, s3) :=
    match s2 with
    | String c t => if (code c =? 46)%N then span is_digit t else (EmptyString, s2)
    | EmptyString => (EmptyString, s2)
    end in
  match (ip ++ fp)%string with
  | EmptyString => None
  | ds =>
      match parse_exponent s3 with
      | None => None
      | Some e =>
          let m := digits_value 0 ds in
          Some (scale10 (if neg then (- m)%Z else m) (e - Z.of_nat (String.length fp)))
      end
  end.

End Text.

(** ** Exceptions and results *)

Inductive exn : Type :=
| KeyError (key : string)
| ValueError
| TypeError
| MergeError
| AttributeError
| HTTPError
| FileNotFoundError.

Inductive result (A : Type) : Type :=
| Ok (a : A)
| Raise (e : exn).
Arguments Ok {A} a.
Arguments Raise {A} e.

Definition rbind {A B : Type} (r : result A) (k : A -> result B) : result B :=
  match r with
  | Ok a => k a
  | Raise e => Raise e
  end.

Notation "'let?' x ':=' r 'in' k" := (rbind r (fun x => k))
  (at level 10, x pattern, r at level 100, k at level 200).

(** [traverse f l]: [f] on the elements from left to right, up to the
    first exception. *)
Fixpoint traverse {A B : Type} (f : A -> result B) (l : list A) : result (list B) :=
  match l with
  | [] => Ok []
  | a :: l' =>
      let? b := f a in
      let? bs := traverse f l' in
      Ok (b :: bs)
  end.

(** ** Cells, dicts and data frames *)

Inductive cell : Type :=
| Str (s : string)
| Num (x : float)
| Stamp (t : Z).

Definition nan : cell := Num NaN.

Definition cell_eqb (a b : cell) : bool :=
  match a, b with
  | Str s, Str t => String.eqb s t
  | Num x, Num y => Float.eqb x y
  | Stamp s, Stamp t => Z.eqb s t
  | _, _ => false
  end.

(** A Python [dict] with string keys, in insertion order. *)
Definition dict : Type := list (string * cell).

Fixpoint dict_get (d : dict) (k : string) : option cell :=
  match d with
  | [] => None
  | (k', v) :: d' => if String.eqb k' k then Some v else dict_get d' k
  end.

(** [d[k] = v]: an existing key keeps its place. *)
Fixpoint dict_set (d : dict) (k : string) (v : cell) : dict :=
  match d with
  | [] => [(k, v)]
  | (k', v') :: d' =>
      if String.eqb k' k then (k', v) :: d' else (k', v') :: dict_set d' k v
  end.

(** [dict(pairs)]: a later pair overrides an earlier one of the same key. *)
Definition dict_of_pairs (l : list (string * string)) : dict :=
  fold_left (fun d kv => dict_set d (fst kv) (Str (snd kv))) l [].

Definition mem (c : string) (l : list string) : bool :=
  existsb (String.eqb c) l.

Fixpoint nodupb (l : list string) : bool :=
  match l with
  | [] => true
  | c :: l' => negb (mem c l') && nodupb l'
  end.

Record DataFrame : Type := mkFrame {
  columns : list string;
  rows : list (list cell)
}.

Module Frame.

(** [df.empty]: an axis of length zero. *)
Definition empty (df : DataFrame) : bool :=
  match columns df, rows df with
  | [], _ | _, [] => true
  | _, _ => false
  end.

Definition has_column (df : DataFrame) (c : string) : bool := mem c (columns df).

(** The cell of a row under column [c]. *)
Fixpoint row_get (cols : list string) (r : list cell) (c : string) : cell :=
  match cols, r with
  | k :: cols', v :: r' => if String.eqb k c then v else row_get cols' r' c
  | _, _ => nan
  end.

Fixpoint row_set (cols : list string) (r : list cell) (c : string) (v : cell)
  : list cell :=
  match cols, r with
  | k :: cols', w :: r' =>
      if String.eqb k c then v :: r' else w :: row_set cols' r' c v
  | _, _ => r
  end.

(** [pd.DataFrame(records)] for a list of dicts: the columns are the keys
    in order of first appearance, a key a record lacks gives NaN. *)
Definition add_keys (cols : list string) (d : dict) : list string :=
  fold_left (fun cs kv => if mem (fst kv) cs then cs else cs ++ [fst kv]) d cols.

Definition of_records (records : list dict) : DataFrame :=
  let cols := fold_left add_keys records [] in
  mkFrame cols
    (map (fun d => map (fun c => match dict_get d c with
                                 | Some v => v
                                 | None => nan
                                 end) cols) records).

(** [df[c]] *)
Definition getcol (df : DataFrame) (c : string) : result (list cell) :=
  if has_column df c then Ok (map (fun r => row_get (columns df) r c) (rows df))
  else Raise (KeyError c).

(** [df[c] = values], [values] holding one cell per row: an existing
    column is replaced in place, a new one is added last. *)
Definition setcol (df : DataFrame) (c : string) (values : list cell) : DataFrame :=
  if has_column df c then
    mkFrame (columns df)
      (map (fun rv => row_set (columns df) (fst rv) c (snd rv))
           (combine (rows df) values))
  else
    mkFrame (columns df ++ [c])
      (map (fun rv => fst rv ++ [snd rv]) (combine (rows df) values)).

(** [df[c] = scalar] *)
Definition setcol_scalar (df : DataFrame) (c : string) (v : cell) : DataFrame :=
  setcol df c (map (fun _ => v) (rows df)).

Fixpoint first_missing (cs have : list string) : option string :=
  match cs with
  | [] => None
  | c :: cs' => if mem c have then first_missing cs' have else Some c
  end.

(** [df[[c1, ..., cn]]] *)
Definition select (df : DataFrame) (cs : list string) : result DataFrame :=
  match first_missing cs (columns df) with
  | Some c => Raise (KeyError c)
  | None =>
      Ok (mkFrame cs (map (fun r => map (row_get (columns df) r) cs) (rows df)))
  end.

Fixpoint assoc (m : list (string * string)) (k : string) : option string :=
  match m with
  | [] => None
  | (k', v) :: m' => if String.eqb k' k then Some v else assoc m' k
  end.

(** [df.rename(columns=m, inplace=True)]: names absent from the frame
    are ignored. *)
Definition rename (df : DataFrame) (m : list (string * string)) : DataFrame :=
  mkFrame (map (fun c => match assoc m c with Some c' => c' | None => c end)
               (columns df))
          (rows df).

(** [df[mask]] for a boolean mask with one entry per row. *)
Definition filter_rows (df : DataFrame) (mask : list bool) : DataFrame :=
  mkFrame (columns df)
          (map fst (filter (fun rb : list cell * bool => snd rb)
                           (combine (rows df) mask))).

(** *** [pd.merge(left, right, on=keys, suffixes=(ls, rs))], inner join *)

Definition row_key (cols : list string) (keys : list string) (r : list cell)
  : list cell :=
  map (row_get cols r) keys.

Fixpoint key_eqb (a b : list cell) : bool :=
  match a, b with
  | [], [] => true
  | x :: a', y :: b' => cell_eqb x y && key_eqb a' b'
  | _, _ => false
  end.

(** The cells of a row outside the key columns. *)
Fixpoint drop_keys (cols : list string) (keys : list string) (r : list cell)
  : list cell :=
  match cols, r with
  | c :: cols', v :: r' =>
      if mem c keys then drop_keys cols' keys r' else v :: drop_keys cols' keys r'
  | _, _ => []
  end.

(** A column of one side that is not a key and also occurs among the
    other side's columns takes the suffix. *)
Definition suffixed (keys other : list string) (suffix : string) (c : string)
  : string :=
  if mem c keys then c
  else if mem c other then (c ++ suffix)%string
  else c.

(** The duplicates that renaming by [f] makes within one side: a column
    whose new label is that of an earlier column although its own name
    is not. *)
Fixpoint suffix_dups (f : string -> string) (seen cols : list string) : bool :=
  match cols with
  | [] => false
  | c :: cols' =>
      (mem (f c) (map f seen) && negb (mem c seen))
      || suffix_dups f (c :: seen) cols'
  end.

(** A label that suffixing gives to a column of one side ([labels], the
    side's own columns being [mine]) and that the other side has as a
    column outside the overlap: the suffix has made a duplicate. *)
Definition collides (labels mine other : list string) : bool :=
  existsb (fun c => mem c other && negb (mem c mine)) labels.

(** The key columns must exist on both sides ([KeyError]); the key
    columns of the right side are dropped; suffixes that make a duplicate
    column name, within a side or against a column of the other side, are
    a [MergeError]. *)
Definition merge (left right : DataFrame) (keys : list string)
    (ls rs : string) : result DataFrame :=
  match first_missing keys (columns left), first_missing keys (columns right) with
  | Some k, _ | None, Some k => Raise (KeyError k)
  | None, None =>
      let rest := filter (fun c => negb (mem c keys)) (columns right) in
      let lcols := map (suffixed keys (columns right) ls) (columns left) in
      let rcols := map (suffixed keys (columns left) rs) rest in
      if suffix_dups (suffixed keys (columns right) ls) [] (columns left)
         || suffix_dups (suffixed keys (columns left) rs) [] rest
         || collides lcols (columns left) rest
         || collides rcols rest (columns left)
      then Raise MergeError
      else
        Ok (mkFrame (lcols ++ rcols)
              (flat_map
                 (fun l =>
                    map (fun r => l ++ drop_keys (columns right) keys r)
                        (filter
                           (fun r => key_eqb (row_key (columns left) keys l)
                                             (row_key (columns right) keys r))
                           (rows right)))
                 (rows left)))
  end.

(** Arithmetic and comparison on a column: a string cell is a
    [TypeError], as is a timestamp against a number. *)
Definition as_float (c : cell) : result float :=
  match c with
  | Num x => Ok x
  | _ => Raise TypeError
  end.

Definition lift2 (op : float -> float -> float) (a b : cell) : result cell :=
  let? x := as_float a in
  let? y := as_float b in
  Ok (Num (op x y)).

(** [a op b] for two columns of one frame. *)
Definition zip_with (op : float -> float -> float) (a b : list cell)
  : result (list cell) :=
  traverse (fun ab => lift2 op (fst ab) (snd ab)) (combine a b).

(** [a op k] for a column and a number. *)
Definition map_with (op : float -> float -> float) (k : float) (a : list cell)
  : result (list cell) :=
  traverse (fun x => lift2 op x (Num k)) a.

(** [a >= k] *)
Definition ge_mask (k : float) (a : list cell) : result (list bool) :=
  traverse (fun c => let? x := as_float c in Ok (Float.leb k x)) a.

End Frame.

(** ** The world: scrape target, clock, database and console *)

(** One HTTP exchange with the scrape target: how long it takes, in
    microseconds, and the body of a 2xx response ([None]: an error status
    or a network failure). *)
Record response : Type := mkResponse {
  latency : Z;
  body : option string
}.

Inductive message : Type :=
| FetchingFirst
| FetchingSecond
| Inserted (n : nat) (table : string)
| NoDataToInsert (table : string)
| NoCpuData
| AllStored
| Running (script : string)
| Succeeded (script : string)
| Failed (script : string).

Record World : Type := mkWorld {
  http : list response;
  clock : Z;
  database : list (string * DataFrame);
  console : list message
}.

Definition M (A : Type) : Type := World -> result A * World.

Definition ret {A : Type} (a : A) : M A := fun w => (Ok a, w).

Definition bind {A B : Type} (m : M A) (k : A -> M B) : M B :=
  fun w =>
    match m w with
    | (Ok a, w') => k a w'
    | (Raise e, w') => (Raise e, w')
    end.

Definition lift {A : Type} (r : result A) : M A := fun w => (r, w).

Notation "x <- m ;; k" := (bind m (fun x => k))
  (at level 61, m at next level, right associativity).
Notation "m ;; k" := (bind m (fun _ => k))
  (at level 61, right associativity).

Definition print (m : message) : M unit :=
  fun w => (Ok tt, mkWorld (http w) (clock w) (database w) (console w ++ [m])).

Definition now : M Z := fun w => (Ok (clock w), w).

(** [time.sleep(seconds)] *)
Definition sleep (seconds : Z) : M unit :=
  fun w => (Ok tt, mkWorld (http w) (clock w + seconds * 1000000)
                           (database w) (console w)).

(** [df.to_sql(table, engine, if_exists='append', index=False)] *)
Definition to_sql (df : DataFrame) (table : string) : M unit :=
  fun w => (Ok tt, mkWorld (http w) (clock w)
                           (database w ++ [(table, df)]) (console w)).

(** ** write_into_db.py *)

Module WriteIntoDb.

Import Text Frame.

(** [requests.get] followed by [raise_for_status]. *)
Definition fetch_raw_metrics : M string :=
  fun w =>
    match http w with
    | [] => (Raise HTTPError, w)
    | r :: rest =>
        let w' := mkWorld rest (clock w + latency r) (database w) (console w) in
        match body r with
        | Some text => (Ok text, w')
        | None => (Raise HTTPError, w')
        end
    end.

(** [dict(re.findall(..., labels_str)) if labels_str else {}] *)
Definition labels_dict (labels_str : option string) : dict :=
  match labels_str with
  | None | Some EmptyString => []
  | Some ls => dict_of_pairs (findall ls)
  end.

(** The body of the loop of [parse_metric] for one line: nothing for a
    line the pattern does not match, else the record of the line; the
    [ValueError] of [float] is not caught. *)
Definition parse_line (p : pattern) (value_name : string) (line : string)
  : result (option dict) :=
  match re_match p line with
  | None => Ok None
  | Some (labels_str, value) =>
      let labels := labels_dict labels_str in
      match python_float value with
      | None => Raise ValueError
      | Some x => Ok (Some (dict_set labels value_name (Num x)))
      end
  end.

Fixpoint parse_lines (p : pattern) (value_name : string) (lines : list string)
  : result (list dict) :=
  match lines with
  | [] => Ok []
  | line :: lines' =>
      let? r := parse_line p value_name line in
      let? records := parse_lines p value_name lines' in
      Ok (match r with Some d => d :: records | None => records end)
  end.

Definition parse_metric (p : pattern) (text : string) (value_name : string)
  : result DataFrame :=
  let? records := parse_lines p value_name (splitlines text) in
  Ok (of_records records).

(** The dotted quad sought by [insert] in an instance value: four
    non-empty runs of digits separated by points, leftmost match. *)
Definition match_quad (s : string) : option string :=
  let dot (k : string -> option string) (t : string) :=
    match t with
    | String c t' => if (code c =? 46)%N then k t' else None
    | EmptyString => None
    end in
  let run (k : string -> option string) (t : string) :=
    match span is_digit t with
    | (EmptyString, _) => None
    | (d, rest) => option_map (append d) (k rest)
    end in
  let pt (k : string -> option string) :=
    dot (fun t => option_map (String "."%char) (k t)) in
  run (pt (run (pt (run (pt (run (fun _ => Some EmptyString))))))) s.

Fixpoint search_quad (s : string) : option string :=
  match match_quad s with
  | Some q => Some q
  | None =>
      match s with
      | String _ s' => search_quad s'
      | EmptyString => None
      end
  end.

(** [series.str.extract(pat)] for the one-group pattern of [insert], then
    [fillna(default)].  The [str] accessor wants a column of strings
    (missing values allowed); the result is a frame of one column, which
    pandas labels with the integer 0, written ["0"] here. *)
Definition str_extract_fillna (series : list cell) (default : string)
  : result DataFrame :=
  if existsb (fun c => match c with Str _ => true | _ => false end) series
     || match series with [] => true | _ => false end
  then
    Ok (mkFrame ["0"]
          (map (fun c => match c with
                         | Str s => match search_quad s with
                                    | Some q => [Str q]
                                    | None => [Str default]
                                    end
                         | _ => [Str default]
                         end) series))
  else Raise AttributeError.

(** [df.loc[:, c] = value] for a frame [value].  A column [c] that [df]
    does not have yet is added by [df[c] = value], which takes the single
    column of [value], whatever its label, and raises [ValueError] when
    [value] has no column or several.  A column that [df] has already is
    assigned with [value] aligned on the column label: the rows receive
    the column of [value] labelled [c], and NaN when there is none. *)
Definition loc_setcol_frame (df : DataFrame) (c : string) (value : DataFrame)
  : result DataFrame :=
  if has_column df c then
    match getcol value c with
    | Ok v => Ok (setcol df c v)
    | Raise _ => Ok (setcol_scalar df c nan)
    end
  else
    match columns value with
    | [k] => let? v := getcol value k in Ok (setcol df c v)
    | _ => Raise ValueError
    end.

(** [insert(df, table)] *)
Definition insert (df : DataFrame) (table : string) : M unit :=
  if negb (empty df) then
    t <- now ;;
    let df := setcol_scalar df "timestamp" (Stamp t) in
    df <- (if has_column df "instance" then
             instance <- lift (getcol df "instance") ;;
             ip <- lift (str_extract_fillna instance "127.0.0.1") ;;
             lift (loc_setcol_frame df "ip" ip)
           else ret (setcol_scalar df "ip" (Str "127.0.0.1"))) ;;
    to_sql df table ;;
    print (Inserted (List.length (rows df)) table)
  else print (NoDataToInsert table).

(** [calculate_rate(df1, df2, label_cols, value_col)] *)
Definition calculate_rate (df1 df2 : DataFrame) (label_cols : list string)
    (value_col : string) : result DataFrame :=
  let? df := merge df1 df2 label_cols "_old" "_new" in
  let? new := getcol df (value_col ++ "_new") in
  let? old := getcol df (value_col ++ "_old") in
  let? delta := zip_with Float.sub new old in
  let? rate := map_with Float.div (Float.of_Z 60) delta in
  let df := setcol df (value_col ++ "_rate") rate in
  let? r := getcol df (value_col ++ "_rate") in
  let? mask := ge_mask Float.zero r in
  Ok (filter_rows df mask).

Definition cpu_pattern := mkPattern "node_cpu_seconds_total" false.
Definition memory_pattern := mkPattern "node_memory_MemAvailable_bytes" true.
Definition filesystem_pattern := mkPattern "node_filesystem_free_bytes" false.
Definition receive_pattern := mkPattern "node_network_receive_bytes_total" false.
Definition transmit_pattern := mkPattern "node_network_transmit_bytes_total" false.
Definition reads_pattern := mkPattern "node_disk_reads_completed_total" false.
Definition writes_pattern := mkPattern "node_disk_writes_completed_total" false.
Definition read_bytes_pattern := mkPattern "node_disk_read_bytes_total" false.
Definition written_bytes_pattern := mkPattern "node_disk_written_bytes_total" false.

(** [if "instance" not in df.columns: df["instance"] = "localhost:9100"] *)
Definition default_instance (df : DataFrame) : DataFrame :=
  if has_column df "instance" then df
  else setcol_scalar df "instance" (Str "localhost:9100").

Definition store_cpu (text1 text2 : string) : M unit :=
  df1 <- lift (parse_metric cpu_pattern text1 "value") ;;
  df2 <- lift (parse_metric cpu_pattern text2 "value") ;;
  if negb (empty df1) && negb (empty df2) then
    let df1 := default_instance df1 in
    let df2 := default_instance df2 in
    df_rate <- lift (calculate_rate df1 df2 ["instance"; "cpu"; "mode"] "value") ;;
    let df_rate :=
      rename df_rate [("cpu", "core"); ("mode", "state");
                      ("value_rate", "rate_per_sec")] in
    out <- lift (select df_rate ["core"; "state"; "rate_per_sec"]) ;;
    insert out "cpu_cstate_rates"
  else print NoCpuData.

Definition store_memory (text : string) : M unit :=
  df <- lift (parse_metric memory_pattern text "bytes") ;;
  if negb (empty df) then
    let df := setcol_scalar df "metric" (Str "MemAvailable") in
    out <- lift (select df ["metric"; "bytes"]) ;;
    insert out "ram_stats"
  else ret tt.

(** [series.map(table)]: a value that is no key of the table gives NaN. *)
Definition series_map (table : list (string * string)) (series : list cell)
  : list cell :=
  map (fun c => match c with
                | Str s => match assoc table s with
                           | Some v => Str v
                           | None => nan
                           end
                | _ => nan
                end) series.

(** [series.fillna(other)]: a NaN takes the value of [other] in its row. *)
Definition fillna_with (series other : list cell) : list cell :=
  map (fun ab : cell * cell =>
         match fst ab with
         | Num NaN => snd ab
         | a => a
         end) (combine series other).

(** [df[c] = df[c].map(table).fillna(df[c])] *)
Definition remap_column (df : DataFrame) (c : string)
    (table : list (string * string)) : result DataFrame :=
  let? series := getcol df c in
  Ok (setcol df c (fillna_with (series_map table series) series)).

Definition mountpoint_table : list (string * string) :=
  [("/", "C"); ("/run", "D"); ("/run/user/1000", "E"); ("/run/lock", "F");
   ("/run/snapd/ns", "G")].

Definition device_table : list (string * string) :=
  [("sda", "C"); ("sdb", "D"); ("sdc", "E")].

Definition store_disk_free (text : string) : M unit :=
  df <- lift (parse_metric filesystem_pattern text "bytes") ;;
  let df :=
    if has_column df "mountpoint" then rename df [("mountpoint", "volume")]
    else df in
  df <- lift (remap_column df "volume" mountpoint_table) ;;
  out <- lift (select df ["volume"; "bytes"]) ;;
  insert out "disk_free_space".

(** The body of the loop of [store_bandwidth] for one direction. *)
Definition store_direction (df_old df_new : DataFrame) (mode : string) : M unit :=
  let df_old := default_instance df_old in
  let df_new := default_instance df_new in
  df_rate <- lift (calculate_rate df_old df_new ["instance"; "device"] "value") ;;
  let df_rate :=
    setcol_scalar df_rate "metric_name"
      (Str ("node_network_" ++ mode ++ "_bytes_total")) in
  let df_rate := setcol_scalar df_rate "mode" (Str mode) in
  value_rate <- lift (getcol df_rate "value_rate") ;;
  let df_rate := setcol df_rate "value" value_rate in
  value <- lift (getcol df_rate "value") ;;
  x8 <- lift (map_with Float.mul (Float.of_Z 8) value) ;;
  k <- lift (map_with Float.div (Float.of_Z 1024) x8) ;;
  mbps <- lift (map_with Float.div (Float.of_Z 1024) k) ;;
  let df_rate := setcol df_rate "value_mbps" mbps in
  out <- lift (select df_rate ["metric_name"; "mode"; "value"; "value_mbps"]) ;;
  insert out "bandwidth".

Definition store_bandwidth (text1 text2 : string) : M unit :=
  rx1 <- lift (parse_metric receive_pattern text1 "value") ;;
  rx2 <- lift (parse_metric receive_pattern text2 "value") ;;
  tx1 <- lift (parse_metric transmit_pattern text1 "value") ;;
  tx2 <- lift (parse_metric transmit_pattern text2 "value") ;;
  store_direction rx1 rx2 "receive" ;;
  store_direction tx1 tx2 "transmit".

(** One of the two halves of [store_disk_iops_throughput]: the rates of a
    read and a write family, joined on the device. *)
Definition store_disk_pair (r1 r2 w1 w2 : DataFrame) (rname wname : string)
    (rout wout : string) (table : string) : M unit :=
  if negb (empty r1) && negb (empty r2) && negb (empty w1) && negb (empty w2)
  then
    r <- lift (calculate_rate r1 r2 ["device"] rname) ;;
    w <- lift (calculate_rate w1 w2 ["device"] wname) ;;
    df <- lift (merge r w ["device"] "_x" "_y") ;;
    let df := rename df [((rname ++ "_rate")%string, rout);
                         ((wname ++ "_rate")%string, wout);
                         ("device", "volume")] in
    df <- lift (remap_column df "volume" device_table) ;;
    out <- lift (select df ["volume"; rout; wout]) ;;
    insert out table
  else ret tt.

Definition store_disk_iops_throughput (text1 text2 : string) : M unit :=
  r1 <- lift (parse_metric reads_pattern text1 "reads") ;;
  r2 <- lift (parse_metric reads_pattern text2 "reads") ;;
  w1 <- lift (parse_metric writes_pattern text1 "writes") ;;
  w2 <- lift (parse_metric writes_pattern text2 "writes") ;;
  rb1 <- lift (parse_metric read_bytes_pattern text1 "rbytes") ;;
  rb2 <- lift (parse_metric read_bytes_pattern text2 "rbytes") ;;
  wb1 <- lift (parse_metric written_bytes_pattern text1 "wbytes") ;;
  wb2 <- lift (parse_metric written_bytes_pattern text2 "wbytes") ;;
  store_disk_pair r1 r2 w1 w2 "reads" "writes" "read_iops" "write_iops"
    "disk_iops" ;;
  store_disk_pair rb1 rb2 wb1 wb2 "rbytes" "wbytes" "read_bytes_per_sec"
    "write_bytes_per_sec" "disk_throughput".

Definition main : M unit :=
  print FetchingFirst ;;
  text1 <- fetch_raw_metrics ;;
  sleep 10 ;;
  print FetchingSecond ;;
  text2 <- fetch_raw_metrics ;;
  store_bandwidth text1 text2 ;;
  store_memory text2 ;;
  store_disk_free text2 ;;
  store_cpu text1 text2 ;;
  store_disk_iops_throughput text1 text2 ;;
  print AllStored.

End WriteIntoDb.

(** ** main.py: the runner *)

Module Runner.

(** The loop of [main] where [subprocess.run] finds the interpreter: each
    script runs as a subprocess, here the effect of the script on the
    world; a script that ends with an exception has a non-zero exit
    status, [subprocess.run] raises [CalledProcessError], which the loop
    reports before it stops. *)
Fixpoint run_scripts (scripts : list (string * M unit)) : M unit :=
  match scripts with
  | [] => ret tt
  | (name, script) :: rest =>
      print (Running name) ;;
      fun w =>
        match script w with
        | (Ok _, w') => (print (Succeeded name) ;; run_scripts rest) w'
        | (Raise _, w') => print (Failed name) w'
        end
  end.

(** [main()], [python] telling whether there is an executable of that
    name.  Without one [subprocess.run] itself raises
    [FileNotFoundError]; the loop catches [CalledProcessError] only, so
    the exception leaves [main] at the first script, which does not
    run. *)
Definition main (python : bool) (scripts : list (string * M unit)) : M unit :=
  if python then run_scripts scripts
  else match scripts with
       | [] => ret tt
       | (name, _) :: _ =>
           print (Running name) ;; lift (Raise FileNotFoundError)
       end.

End Runner.

(** ** The reports: CPU utilisation in sheet_to_looker.py and monthly.py *)

Module Report.

Import Frame.

(** [pd.to_datetime(column, errors='coerce')] on the timestamp column of a
    table read from the database, whose cells are timestamps or missing.
    A timestamp cell holds microseconds since the epoch, UTC; the missing
    timestamp [NaT] is the missing value [nan].  A text or a number in the
    column, which pandas would try to read as a date, is outside this
    model: it is taken as a value that cannot be read, which is [NaT]. *)
Definition to_datetime (c : cell) : cell :=
  match c with
  | Stamp t => Stamp t
  | _ => nan
  end.

Definition notnull (c : cell) : bool :=
  match c with
  | Num NaN => false
  | _ => true
  end.

(** Year and month of a day count since the epoch, proleptic Gregorian. *)
Definition civil_month (days : Z) : Z * Z :=
  let z := (days + 719468)%Z in
  let era := (z / 146097)%Z in
  let doe := (z - era * 146097)%Z in
  let yoe := ((doe - doe / 1460 + doe / 36524 - doe / 146096) / 365)%Z in
  let doy := (doe - (365 * yoe + yoe / 4 - yoe / 100))%Z in
  let mp := ((5 * doy + 2) / 153)%Z in
  let m := (if mp <? 10 then mp + 3 else mp - 9)%Z in
  ((yoe + era * 400 + (if m <=? 2 then 1 else 0))%Z, m).

Fixpoint digits (n : nat) (z : Z) : string :=
  match n with
  | O => EmptyString
  | S n' =>
      (digits n' (z / 10) ++
       String (ascii_of_N (48 + Z.to_N (z mod 10))) EmptyString)%string
  end.

(** [ts.dt.to_period('M').astype(str)], for the years 0 to 9999. *)
Definition month_of (c : cell) : cell :=
  match c with
  | Stamp t =>
      let (y, m) := civil_month (t / 86400000000) in
      Str (digits 4 y ++ "-" ++ digits 2 m)
  | _ => nan
  end.

(** [x.floor('min')] *)
Definition floor_minute (c : cell) : cell :=
  match c with
  | Stamp t => Stamp (t - t mod 60000000)
  | _ => c
  end.

(** The order of group keys. *)
Definition cell_leb (a b : cell) : bool :=
  match a, b with
  | Stamp s, Stamp t => (s <=? t)%Z
  | Str s, Str t => String.leb s t
  | Num x, Num y => Float.leb x y
  | Num _, _ => true
  | Str _, Stamp _ => true
  | _, _ => false
  end.

(** One group per key, in ascending key order, with the values of the
    key's rows in row order; rows with a missing key are dropped. *)
Fixpoint add_to_group (k : cell) (v : cell) (groups : list (cell * list cell))
  : list (cell * list cell) :=
  match groups with
  | [] => [(k, [v])]
  | (k', vs) :: rest =>
      if cell_eqb k' k then (k', vs ++ [v]) :: rest
      else if cell_leb k k' then (k, [v]) :: groups
      else (k', vs) :: add_to_group k v rest
  end.

Definition groupby (keys values : list cell) : list (cell * list cell) :=
  fold_left (fun g kv => if notnull (fst kv)
                         then add_to_group (fst kv) (snd kv) g else g)
            (combine keys values) [].

(** [sum] of a group, missing values skipped. *)
Fixpoint group_sum (vs : list cell) : result float :=
  match vs with
  | [] => Ok Float.zero
  | Num NaN :: vs' => group_sum vs'
  | v :: vs' =>
      let? x := as_float v in
      let? s := group_sum vs' in
      Ok (Float.add x s)
  end.

(** [mean] of a group, missing values skipped; NaN for a group without
    values. *)
Definition group_mean (vs : list cell) : result float :=
  let present := filter notnull vs in
  let? s := group_sum present in
  Ok (Float.div s (Float.of_Z (Z.of_nat (List.length present)))).

Definition sum_by (keys values : list cell) : result (list (cell * float)) :=
  traverse (fun g : cell * list cell =>
              let? s := group_sum (snd g) in Ok (fst g, s))
           (groupby keys values).

Definition mean_by (keys values : list cell) : result (list (cell * float)) :=
  traverse (fun g : cell * list cell =>
              let? s := group_mean (snd g) in Ok (fst g, s))
           (groupby keys values).

Fixpoint lookup (k : cell) (s : list (cell * float)) : option float :=
  match s with
  | [] => None
  | (k', v) :: s' => if cell_eqb k' k then Some v else lookup k s'
  end.

Definition is_idle (c : cell) : bool :=
  match c with
  | Str s => String.eqb s "idle" || String.eqb s "iowait"
  | _ => false
  end.

Definition hundred : float := Float.of_Z 100.
Definition one : float := Float.of_Z 1.

(** [100 * (1 - idle / total)] *)
Definition utilization (idle total : float) : float :=
  Float.mul hundred (Float.sub one (Float.div idle total)).

(** The sums of the rate per timestamp, over all rows and over the idle
    and iowait rows. *)
Definition total_and_idle (df : DataFrame)
  : result (list (cell * float) * list (cell * float)) :=
  let? ts := getcol df "timestamp" in
  let? rate := getcol df "rate_per_sec" in
  let? total := sum_by ts rate in
  let? state := getcol df "state" in
  let idle_rows := filter_rows df (map is_idle state) in
  let? ts_idle := getcol idle_rows "timestamp" in
  let? rate_idle := getcol idle_rows "rate_per_sec" in
  let? idle := sum_by ts_idle rate_idle in
  Ok (total, idle).

Definition required : list string := ["timestamp"; "state"; "rate_per_sec"].

End Report.

Module Monthly.

Import Frame Report.

Definition preprocess_month (df : DataFrame) : result DataFrame :=
  let? ts := getcol df "timestamp" in
  let df := setcol df "timestamp" (map to_datetime ts) in
  let? ts := getcol df "timestamp" in
  let df := filter_rows df (map notnull ts) in
  let? ts := getcol df "timestamp" in
  Ok (setcol df "month" (map month_of ts)).

(** [process_cpu_utilization(df)]: the frame of the months with the mean
    of [cpu_util_percent] over the timestamps of the month.  The
    [fillna(0)] comes before the division. *)
Definition process_cpu_utilization (df : DataFrame) : result DataFrame :=
  let? df := preprocess_month df in
  match first_missing required (columns df) with
  | Some _ => Ok (mkFrame [] [])
  | None =>
      let? ti := total_and_idle df in
      let (total, idle) := ti in
      let merged :=
        map (fun kt : cell * float =>
               let idle_k := match lookup (fst kt) idle with
                             | Some i => if Float.is_nan i then Float.zero else i
                             | None => Float.zero
                             end in
               let total_k := if Float.is_nan (snd kt) then Float.zero
                              else snd kt in
               (fst kt,
                Float.clip Float.zero hundred (utilization idle_k total_k)))
            total in
      let? means := mean_by (map (fun kv => month_of (fst kv)) merged)
                            (map (fun kv => Num (snd kv)) merged) in
      Ok (mkFrame ["month"; "cpu_util_percent"]
                  (map (fun kv : cell * float => [fst kv; Num (snd kv)]) means))
  end.

End Monthly.

Module SheetToLooker.

Import Frame Report.

Definition truncate_timestamp_to_minute (df : DataFrame) : result DataFrame :=
  if has_column df "timestamp" then
    let? ts := getcol df "timestamp" in
    let df := setcol df "timestamp" (map to_datetime ts) in
    let? ts := getcol df "timestamp" in
    Ok (setcol df "timestamp" (map floor_minute ts))
  else Ok df.

(** [round(1)]: to one decimal, a tie to the even neighbour. *)
Definition round_half_even (q : Q) : Z :=
  let f := Qfloor q in
  let r := (q - inject_Z f)%Q in
  match Qcompare r (1 # 2) with
  | Lt => f
  | Gt => (f + 1)%Z
  | Eq => if Z.even f then f else (f + 1)%Z
  end.

Definition round1 (x : float) : float :=
  match x with
  | Fin q => Fin (Qred (inject_Z (round_half_even (q * 10)) / 10))
  | _ => x
  end.

Definition fillna0 (x : float) : float :=
  if Float.is_nan x then Float.zero else x.

(** [str(x) + '%'] for a value with one decimal between 0 and 100. *)
Definition percent_string (x : float) : string :=
  match x with
  | Fin q =>
      let k := Qfloor (q * 10) in
      (NilEmpty.string_of_uint (N.to_uint (Z.to_N (k / 10))) ++ "." ++
       NilEmpty.string_of_uint (N.to_uint (Z.to_N (k mod 10))) ++ "%")%string
  | PInf => "inf%"
  | NInf => "-inf%"
  | NaN => "nan%"
  end.

(** [calculate_cpu_utilization_correct(df)]: the division pairs the two
    series on the timestamp, a timestamp without idle rows gives NaN; the
    [fillna(0)] comes last. *)
Definition calculate_cpu_utilization_correct (df : DataFrame)
  : result DataFrame :=
  let? df := truncate_timestamp_to_minute df in
  match first_missing required (columns df) with
  | Some _ => Ok (mkFrame [] [])
  | None =>
      let? ti := total_and_idle df in
      let (total, idle) := ti in
      let cpu_util :=
        map (fun kt : cell * float =>
               let raw := match lookup (fst kt) idle with
                          | Some i => utilization i (snd kt)
                          | None => NaN
                          end in
               (fst kt,
                fillna0 (round1 (Float.clip Float.zero hundred raw))))
            total in
      Ok (mkFrame ["timestamp"; "cpu_util_percent"; "numeric"]
            (map (fun kv : cell * float =>
                    [fst kv; Str (percent_string (snd kv)); Num (snd kv)])
                 cpu_util))
  end.

End SheetToLooker.

(** * Vocabulary of the properties *)

Import Text Frame WriteIntoDb.

(** ** The identifier remap *)

(** The effect of [series.map(table).fillna(series)] on one cell. *)
Definition remap (table : list (string * string)) (c : cell) : cell :=
  match c with
  | Str s => match assoc table s with
             | Some v => Str v
             | None => c
             end
  | _ => c
  end.

(** ** Columns and rows *)

Definition wf (df : DataFrame) : Prop :=
  forall r, In r (rows df) -> List.length r = List.length (columns df).

(** ** The join *)

Definition joined_columns (left right : DataFrame) (keys : list string)
    (ls rs : string) : list string :=
  map (suffixed keys (columns right) ls) (columns left) ++
  map (suffixed keys (columns left) rs)
      (filter (fun c => negb (mem c keys)) (columns right)).

(** The pairs of rows of the two frames whose key cells agree, in the
    order of the joined rows. *)
Definition matching_pairs (left right : DataFrame) (keys : list string)
  : list (list cell * list cell) :=
  flat_map
    (fun l => map (fun r => (l, r))
                  (filter (fun r => key_eqb (row_key (columns left) keys l)
                                            (row_key (columns right) keys r))
                          (rows right)))
    (rows left).

Definition joined_row (right : DataFrame) (keys : list string)
    (p : list cell * list cell) : list cell :=
  fst p ++ drop_keys (columns right) keys (snd p).

(** ** The rate calculator *)

Definition sixty : float := Float.of_Z 60.

Definition older_sample : DataFrame :=
  mkFrame ["device"; "value"]
          [[Str "eth0"; Num (Fin 1000)]; [Str "eth1"; Num (Fin 500)]].

Definition newer_sample : DataFrame :=
  mkFrame ["device"; "value"]
          [[Str "eth0"; Num (Fin 1030)]; [Str "eth1"; Num (Fin 200)]].

Definition sample_rates : DataFrame :=
  mkFrame ["device"; "value_old"; "value_new"; "value_rate"]
          [[Str "eth0"; Num (Fin 1000); Num (Fin 1030); Num (Fin (1 # 2))]].

(** ** Exposition text *)

(** The line grammar of the specification: the metric name, the labels as
    [key="value"] pairs between braces, separated by commas, a space and
    the value; no braces for a sample without labels. *)
Module Exposition.

Definition quote : string := String "034"%char EmptyString.
Definition newline : string := String "010"%char EmptyString.

Definition label_text (kv : string * string) : string :=
  fst kv ++ "=" ++ quote ++ snd kv ++ quote.

Definition sample_line (name : string) (labels : list (string * string))
    (value : string) : string :=
  match labels with
  | [] => name ++ " " ++ value
  | _ => name ++ "{" ++ String.concat "," (map label_text labels) ++ "} " ++ value
  end.

Definition text_of (lines : list string) : string :=
  String.concat newline lines.

End Exposition.

(** ** One collection cycle *)

Module Cycle.

Import Exposition.

Definition first_scrape : string :=
  text_of
    [sample_line "node_network_receive_bytes_total" [("device", "eth0")] "1000";
     sample_line "node_network_transmit_bytes_total" [("device", "eth0")] "700";
     sample_line "node_cpu_seconds_total" [("cpu", "0"); ("mode", "idle")] "100";
     sample_line "node_cpu_seconds_total" [("cpu", "0"); ("mode", "user")] "50"].

Definition second_scrape : string :=
  text_of
    [sample_line "node_network_receive_bytes_total" [("device", "eth0")] "1030";
     sample_line "node_network_transmit_bytes_total" [("device", "eth0")] "760";
     sample_line "node_cpu_seconds_total" [("cpu", "0"); ("mode", "idle")] "130";
     sample_line "node_cpu_seconds_total" [("cpu", "0"); ("mode", "user")] "80"].

(** A world whose scrape target answers at once. *)
Definition world : World :=
  mkWorld [mkResponse 0 (Some first_scrape); mkResponse 0 (Some second_scrape)]
          0 [] [].

End Cycle.

(** C1 as stated: the rates are the value differences over [seconds], the
    time between the two scrapes. *)
Definition rate_over (seconds : float) (df1 df2 : DataFrame)
    (keys : list string) (v : string) : Prop :=
  forall out row,
    calculate_rate df1 df2 keys v = Ok out ->
    In row (rows out) ->
    exists older newer,
      row_get (columns out) row (v ++ "_old") = Num older /\
      row_get (columns out) row (v ++ "_new") = Num newer /\
      row_get (columns out) row (v ++ "_rate")
        = Num (Float.div (Float.sub newer older) seconds).

(** The seconds between two readings of the clock. *)
Definition seconds_between (t1 t2 : Z) : float :=
  Fin (Qred (Qmake (t2 - t1) 1000000)).

(** ** Join keys *)

(** No two of the keys are equal. *)
Fixpoint distinct_keys (ks : list (list cell)) : bool :=
  match ks with
  | [] => true
  | k :: ks' => negb (existsb (key_eqb k) ks') && distinct_keys ks'
  end.

(** The join-key values of a snapshot are unique. *)
Definition unique_keys (df : DataFrame) (keys : list string) : Prop :=
  distinct_keys (map (row_key (columns df) keys) (rows df)) = true.

(** The number of rows of a frame whose join-key values are [K]. *)
Definition key_count (df : DataFrame) (keys : list string) (K : list cell) : nat :=
  List.length
    (filter (fun r => key_eqb K (row_key (columns df) keys r)) (rows df)).

(** ** Cells of a joined row *)

(** The value of a row under the value column. *)
Definition value_of (cols : list string) (row : list cell) (v : string) : float :=
  match row_get cols row v with
  | Num x => x
  | _ => NaN
  end.

Definition numeric (df : DataFrame) (v : string) : Prop :=
  forall r, In r (rows df) -> exists x, row_get (columns df) r v = Num x.

(** The row of [setcol] for a row [r] and its new cell [x]. *)
Definition put (cols : list string) (c : string) (r : list cell) (x : cell)
  : list cell :=
  if mem c cols then row_set cols r c x else r ++ [x].

(** The rate of a pair of matching rows. *)
Definition pair_rate (df1 df2 : DataFrame) (v : string)
    (p : list cell * list cell) : float :=
  Float.div (Float.sub (value_of (columns df2) (snd p) v)
                       (value_of (columns df1) (fst p) v)) sixty.

(** The row of rates of a pair of matching rows. *)
Definition rate_row (df1 df2 : DataFrame) (keys : list string) (v : string)
    (p : list cell * list cell) : list cell :=
  put (joined_columns df1 df2 keys "_old" "_new") (v ++ "_rate")
      (joined_row df2 keys p) (Num (pair_rate df1 df2 v p)).

(** C4 as stated: every pair of rows with the same join-key values gives
    exactly one row of rates. *)
Definition one_rate_per_matched_pair (df1 df2 : DataFrame)
    (keys : list string) (v : string) : Prop :=
  forall out l r,
    calculate_rate df1 df2 keys v = Ok out ->
    In l (rows df1) -> In r (rows df2) ->
    key_eqb (row_key (columns df1) keys l) (row_key (columns df2) keys r) = true ->
    key_count out keys (row_key (columns df1) keys l) = 1.

(** ** The sink *)

Definition instance_frame : DataFrame :=
  mkFrame ["instance"; "value"] [[Str "192.168.1.5:9100"; Num (Fin 1)]].

(** ** Absent families and failing collectors *)

(** The collectors of [main], in the order in which it calls them. *)
Definition collectors (text1 text2 : string) : list (M unit) :=
  [store_bandwidth text1 text2; store_memory text2; store_disk_free text2;
   store_cpu text1 text2; store_disk_iops_throughput text1 text2].

Fixpoint run_all (cs : list (M unit)) : M unit :=
  match cs with
  | [] => ret tt
  | c :: cs' => c ;; run_all cs'
  end.

(** The two scrapes of [main]. *)
Definition scrapes : M (string * string) :=
  print FetchingFirst ;;
  text1 <- fetch_raw_metrics ;;
  sleep 10 ;;
  print FetchingSecond ;;
  text2 <- fetch_raw_metrics ;;
  ret (text1, text2).

(** C2 as stated: a collector that raises does not keep the others from
    storing their records.  [stored table w] holds when the database of
    [w] has a frame for [table]. *)
Definition stored (table : string) (w : World) : bool :=
  existsb (fun tf : string * DataFrame => String.eqb (fst tf) table) (database w).

(** ** CPU utilisation *)

Definition november : Z := 1793750400000000.

(** The table of rates with one timestamp at which every rate is zero. *)
Definition idle_table : DataFrame :=
  mkFrame ["core"; "state"; "rate_per_sec"; "timestamp"; "ip"]
          [[Str "0"; Str "idle"; Num (Fin 0); Stamp november; Str "127.0.0.1"];
           [Str "0"; Str "user"; Num (Fin 0); Stamp november; Str "127.0.0.1"]].

(** ** The exposition parser *)



(** ** The round trip through exposition text *)

(** A synthetic sample: a label mapping and a value. *)
Record sample : Type := mkSample {
  labels : list (string * string);
  value : float
}.

(** The text of a set of samples of one family; [fmt] writes the values. *)
Definition serialize (fmt : float -> string) (name : string)
    (samples : list sample) : string :=
  Exposition.text_of
    (map (fun s => Exposition.sample_line name (labels s) (fmt (value s)))
         samples).

(** The cell that a sample has under a column: its value under the value
    column, the value of the label under a label name, nothing elsewhere. *)
Definition sample_cell (value_name : string) (s : sample) (k : string) : cell :=
  if String.eqb k value_name then Num (value s)
  else match assoc (labels s) k with
       | Some v => Str v
       | None => nan
       end.

(** Parsing the text of [samples] gives a frame whose rows are the
    samples, in the order of the text. *)
Definition recovers (p : pattern) (value_name : string) (fmt : float -> string)
    (samples : list sample) : Prop :=
  exists df,
    parse_metric p (serialize fmt (metric p) samples) value_name = Ok df /\
    Forall2 (fun s row => forall k,
               row_get (columns df) row k = sample_cell value_name s k)
            samples (rows df).

Fixpoint all_chars (p : ascii -> bool) (s : string) : bool :=
  match s with
  | EmptyString => true
  | String c s' => p c && all_chars p s'
  end.

Definition not_boundary (c : ascii) : bool := negb (is_boundary c).

(** A character allowed in a label value: no quote, no closing brace and
    no line boundary. *)
Definition plain (c : ascii) : bool :=
  negb (is_quote c) && negb (is_close_brace c) && negb (is_boundary c).

Definition label_ok (value_name : string) (kv : string * string) : bool :=
  negb (String.eqb (fst kv) EmptyString) && all_chars is_word (fst kv)
  && negb (String.eqb (fst kv) value_name) && all_chars plain (snd kv).

Definition sample_ok (value_name : string) (s : sample) : bool :=
  forallb (label_ok value_name) (labels s) && nodupb (map fst (labels s)).

(** Decimal text of a whole number that is not negative. *)
Definition format_whole (x : float) : string :=
  match x with
  | Fin q => NilEmpty.string_of_uint (N.to_uint (Z.to_N (Qnum q)))
  | _ => "nan"
  end.

(** The label block of a line. *)
Definition block_of (ls : list (string * string)) : string :=
  String.concat "," (map Exposition.label_text ls).

(** *** The record of a sample *)

Definition entry (kv : string * string) : string * cell := (fst kv, Str (snd kv)).

Definition record_of (value_name : string) (s : sample) : dict :=
  map entry (labels s) ++ [(value_name, Num (value s))].

Definition cell_of (d : dict) (k : string) : cell :=
  match dict_get d k with
  | Some c => c
  | None => nan
  end.

(** *** Round trip *)

(** What the serializer may be given for one sample. *)
Definition serializable (p : pattern) (value_name : string)
    (fmt : float -> string) (s : sample) : Prop :=
  sample_ok value_name s = true /\
  (labels s <> [] \/ braces_optional p = true) /\
  all_chars is_value_char (fmt (value s)) = true /\
  python_float (fmt (value s)) = Some (value s).

Definition root_volume : sample :=
  mkSample [("mountpoint", "/"); ("fstype", "ext4")] (Fin 5000000000).

Definition run_volume : sample := mkSample [("mountpoint", "/run")] (Fin 1).

Definition braced_volume : sample := mkSample [("mountpoint", "/a}b")] (Fin 1).

(** ** Frames of the parser *)

(** Whether the pattern matches a line. *)
Definition matches (p : pattern) (line : string) : bool :=
  match re_match p line with
  | Some _ => true
  | None => false
  end.

(** ** What a cycle stores *)

(** The tables of [write_into_db.py]. *)
Definition tables : list string :=
  ["bandwidth"; "ram_stats"; "disk_free_space"; "cpu_cstate_rates";
   "disk_iops"; "disk_throughput"].

(** A computation that leaves what the database holds in place and adds
    frames of the tables of the script only. *)
Definition appends {A : Type} (m : M A) : Prop :=
  forall w r w', m w = (r, w') ->
    exists added, database w' = database w ++ added /\
                  Forall (fun e : string * DataFrame => In (fst e) tables) added.

(** The scrape target fails at the first or at the second request. *)
Definition scrape_fails (w : World) : Prop :=
  match http w with
  | [] => True
  | r1 :: rest =>
      body r1 = None \/
      match rest with
      | [] => True
      | r2 :: _ => body r2 = None
      end
  end.

(** The frame that [insert] stores for a frame without the columns
    instance, timestamp and ip. *)
Definition stamped (df : DataFrame) (t : Z) : DataFrame :=
  mkFrame (columns df ++ ["timestamp"; "ip"])
          (map (fun r => r ++ [Stamp t; Str "127.0.0.1"]) (rows df)).

(** The world after [insert] has stored [df] in [table]. *)
Definition after_insert (w : World) (table : string) (df : DataFrame) : World :=
  mkWorld (http w) (clock w) (database w ++ [(table, df)])
          (console w ++ [Inserted (List.length (rows df)) table]).

(** ** The runner *)

Definition say (m : message) (w : World) : World :=
  mkWorld (http w) (clock w) (database w) (console w ++ [m]).

(** The world after every script of the list has run and succeeded, if
    they all do. *)
Fixpoint all_succeed (scripts : list (string * M unit)) (w : World)
  : option World :=
  match scripts with
  | [] => Some w
  | (name, script) :: rest =>
      match script (say (Running name) w) with
      | (Ok _, w') => all_succeed rest (say (Succeeded name) w')
      | (Raise _, _) => None
      end
  end.

(** ** Utilisation values *)

(** A utilisation that is a number between 0 and 100. *)
Definition percentage (x : float) : Prop :=
  exists q, x = Fin q /\ (0 <= q)%Q /\ (q <= 100)%Q.

(** A table of rates with a busy and an idle minute. *)
Definition busy_table : DataFrame :=
  mkFrame ["core"; "state"; "rate_per_sec"; "timestamp"; "ip"]
          [[Str "0"; Str "idle"; Num (Fin (1 # 2)); Stamp november; Str "127.0.0.1"];
           [Str "0"; Str "user"; Num (Fin (1 # 2)); Stamp november; Str "127.0.0.1"]].

(** ** Timestamps *)

(** The microseconds of a minute. *)
Definition minute : Z := 60000000.

(** A table with one timestamp in the middle of a minute. *)
Definition midminute_table : DataFrame :=
  mkFrame ["core"; "timestamp"] [[Str "0"; Stamp 90000001]].

(** ** The stored rates *)

(** The pairs of matching rows whose rate is not negative. *)
Definition nonnegative_pairs (df1 df2 : DataFrame) (keys : list string)
    (v : string) : list (list cell * list cell) :=
  filter (fun p => Float.leb Float.zero (pair_rate df1 df2 v p))
         (matching_pairs df1 df2 keys).

(** The world after [insert] of a frame with none of the columns
    instance, timestamp and ip: stored when it has rows, reported as no
    data otherwise. *)
Definition recorded (w : World) (table : string) (df : DataFrame) : World :=
  if empty df then say (NoDataToInsert table) w
  else after_insert w table (stamped df (clock w)).

(** The stored row of a pair of samples of the two scrapes: the core,
    the state and the rate. *)
Definition cpu_row (df1 df2 : DataFrame) (p : list cell * list cell)
  : list cell :=
  [row_get (columns df1) (fst p) "cpu"; row_get (columns df1) (fst p) "mode";
   Num (pair_rate df1 df2 "value" p)].

(** The table of [store_cpu] for the frames of the two scrapes: a row for
    every pair of samples with the same cpu and mode whose rate is not
    negative. *)
Definition cpu_rates (df1 df2 : DataFrame) : DataFrame :=
  mkFrame ["core"; "state"; "rate_per_sec"]
    (map (cpu_row df1 df2) (nonnegative_pairs df1 df2 ["cpu"; "mode"] "value")).

(** A row with the default instance added. *)
Definition with_instance (r : list cell) : list cell :=
  r ++ [Str "localhost:9100"].

(** [x * 8 / 1024 / 1024] *)
Definition mbps (x : float) : float :=
  Float.div (Float.div (Float.mul x (Float.of_Z 8)) (Float.of_Z 1024))
            (Float.of_Z 1024).

(** The stored row of a pair of samples of one direction. *)
Definition bandwidth_row (mode : string) (df1 df2 : DataFrame)
    (p : list cell * list cell) : list cell :=
  [Str ("node_network_" ++ mode ++ "_bytes_total"); Str mode;
   Num (pair_rate df1 df2 "value" p); Num (mbps (pair_rate df1 df2 "value" p))].

(** The table of one direction of [store_bandwidth]: a row for every pair
    of samples of the same device whose rate is not negative. *)
Definition bandwidth_rates (mode : string) (df1 df2 : DataFrame) : DataFrame :=
  mkFrame ["metric_name"; "mode"; "value"; "value_mbps"]
    (map (bandwidth_row mode df1 df2)
         (nonnegative_pairs df1 df2 ["device"] "value")).

(** ** The disk rates *)

(** The device of the older row of a pair. *)
Definition device_of (df : DataFrame) (p : list cell * list cell) : cell :=
  row_get (columns df) (fst p) "device".

(** The pairs of a read and a write rate of the same device. *)
Definition disk_pairs (r1 r2 w1 w2 : DataFrame) (rname wname : string)
  : list ((list cell * list cell) * (list cell * list cell)) :=
  flat_map
    (fun pr => map (fun pw => (pr, pw))
                   (filter (fun pw => cell_eqb (device_of r1 pr) (device_of w1 pw))
                           (nonnegative_pairs w1 w2 ["device"] wname)))
    (nonnegative_pairs r1 r2 ["device"] rname).

(** The table of one half of [store_disk_iops_throughput]. *)
Definition disk_rates (r1 r2 w1 w2 : DataFrame) (rname wname rout wout : string)
  : DataFrame :=
  mkFrame ["volume"; rout; wout]
    (map (fun pp => [remap device_table (device_of r1 (fst pp));
                     Num (pair_rate r1 r2 rname (fst pp));
                     Num (pair_rate w1 w2 wname (snd pp))])
         (disk_pairs r1 r2 w1 w2 rname wname)).

(** Two scrapes with the four disk counters of one device. *)
Definition disk_first_scrape : string :=
  Exposition.text_of
    [Exposition.sample_line "node_disk_reads_completed_total" [("device", "sda")] "100";
     Exposition.sample_line "node_disk_writes_completed_total" [("device", "sda")] "40";
     Exposition.sample_line "node_disk_read_bytes_total" [("device", "sda")] "4096";
     Exposition.sample_line "node_disk_written_bytes_total" [("device", "sda")] "1024"].

Definition disk_second_scrape : string :=
  Exposition.text_of
    [Exposition.sample_line "node_disk_reads_completed_total" [("device", "sda")] "160";
     Exposition.sample_line "node_disk_writes_completed_total" [("device", "sda")] "100";
     Exposition.sample_line "node_disk_read_bytes_total" [("device", "sda")] "8192";
     Exposition.sample_line "node_disk_written_bytes_total" [("device", "sda")] "2048"].

(** ** Reports of incomplete tables *)

(** A frame lacks one of the columns that the utilisation needs. *)
Definition lacks_required (df : DataFrame) : Prop :=
  exists c, In c Report.required /\ has_column df c = false.

(** A table of rates without the state of the processor. *)
Definition stateless_table : DataFrame :=
  mkFrame ["core"; "rate_per_sec"; "timestamp"]
          [[Str "0"; Num (Fin (1 # 2)); Stamp november]].

(** A table of rates without the time of the insert. *)
Definition timeless_table : DataFrame :=
  mkFrame ["core"; "state"; "rate_per_sec"]
          [[Str "0"; Str "idle"; Num (Fin (1 # 2))]].

(** ** The address of an instance *)

(** A non-empty run of decimal digits. *)
Definition digits_text (s : string) : Prop :=
  s <> EmptyString /\ all_chars is_digit s = true.




Definition starts_without (p : ascii -> bool) (s : string) : Prop :=
  match s with
  | EmptyString => True
  | String c _ => p c = false
  end.




(** ** Lines of a family and numerals *)

(** A label block goes up to the first closing brace. *)
Definition no_close_brace (c : ascii) : bool := negb (is_close_brace c).

(** The lines of a family, by their text: the metric name, a label block
    in braces without a closing brace inside, one space and a non-empty
    run of value characters that ends where the value characters end;
    where the braces are optional, also the name, one space and the run.
    The second and third argument are the label block and the value
    text. *)
Inductive family_line (p : pattern) : string -> option string -> string -> Prop :=
| braced_line (block v rest : string) :
    all_chars no_close_brace block = true ->
    v <> EmptyString -> all_chars is_value_char v = true ->
    starts_without is_value_char rest ->
    family_line p (metric p ++ "{" ++ block ++ "} " ++ v ++ rest)
                (Some block) v
| bare_line (v rest : string) :
    braces_optional p = true ->
    v <> EmptyString -> all_chars is_value_char v = true ->
    starts_without is_value_char rest ->
    family_line p (metric p ++ " " ++ v ++ rest) None v.

(** A run of digits, which may be empty. *)
Definition digit_run (s : string) : Prop := all_chars is_digit s = true.

Definition sign_text (s : string) : Prop :=
  s = EmptyString \/ s = "+" \/ s = "-".

(** Digits with an optional point, a digit on at least one side. *)
Definition mantissa (m : string) : Prop :=
  digits_text m \/
  exists ip fp, m = (ip ++ "." ++ fp)%string /\ digit_run ip /\ digit_run fp /\
                (ip <> EmptyString \/ fp <> EmptyString).

(** Nothing, or [e], an optional sign and digits. *)
Definition exponent (e : string) : Prop :=
  e = EmptyString \/
  exists sg ds, e = ("e" ++ sg ++ ds)%string /\ sign_text sg /\ digits_text ds.

(** The decimal numerals: an optional sign, a mantissa and an optional
    exponent.  These are the texts of value characters that [float]
    accepts. *)
Definition numeral (t : string) : Prop :=
  exists sg m e, t = (sg ++ m ++ e)%string /\
                 sign_text sg /\ mantissa m /\ exponent e.





(** A text with a line that is no sample among two samples of the
    processor counter. *)
Definition garbage_line : string := "garbage{unterminated".

Definition mixed_scrape : string :=
  Exposition.text_of
    [Exposition.sample_line "node_cpu_seconds_total"
       [("cpu", "0"); ("mode", "idle")] "100";
     garbage_line;
     Exposition.sample_line "node_cpu_seconds_total"
       [("cpu", "0"); ("mode", "user")] "5.5e1"].

(** * Properties *)

(** ** The identifier remap *)

Lemma fillna_series_map (table : list (string * string)) (series : list cell) :
  fillna_with (series_map table series) series = map (remap table) series.
Proof.
  unfold fillna_with, series_map.
  induction series as [|c series IH]; simpl; [reflexivity|].
  rewrite IH. f_equal.
  destruct c as [s|x|t]; simpl.
  - destruct (assoc table s); reflexivity.
  - destruct x; reflexivity.
  - reflexivity.
Qed.

Ltac case_key s k :=
  let E := fresh "E" in
  destruct (String.eqb k s) eqn:E;
  [apply String.eqb_eq in E; subst s; reflexivity|].

Lemma remap_mountpoint_twice (c : cell) :
  remap mountpoint_table (remap mountpoint_table c) = remap mountpoint_table c.
Proof.
  destruct c as [s|x|t]; try reflexivity.
  unfold remap at 2. unfold mountpoint_table, assoc.
  case_key s "/". case_key s "/run". case_key s "/run/user/1000".
  case_key s "/run/lock". case_key s "/run/snapd/ns".
  unfold remap, assoc. rewrite E, E0, E1, E2, E3. reflexivity.
Qed.

Lemma remap_device_twice (c : cell) :
  remap device_table (remap device_table c) = remap device_table c.
Proof.
  destruct c as [s|x|t]; try reflexivity.
  unfold remap at 2. unfold device_table, assoc.
  case_key s "sda". case_key s "sdb". case_key s "sdc".
  unfold remap, assoc. rewrite E, E0, E1. reflexivity.
Qed.

(** C9.  The remap of a column of identifiers, as [store_disk_free] and
    [store_disk_iops_throughput] perform it ([map] through the table, then
    [fillna] with the column itself), is idempotent for the mountpoint
    table and for the device table: a second pass changes nothing. *)
Theorem remap_idempotent (series : list cell) :
  let pass table s := fillna_with (series_map table s) s in
  pass mountpoint_table (pass mountpoint_table series)
    = pass mountpoint_table series
  /\ pass device_table (pass device_table series) = pass device_table series.
Proof.
  cbv beta zeta. rewrite !fillna_series_map, !map_map. split.
  - apply map_ext. intros c. apply remap_mountpoint_twice.
  - apply map_ext. intros c. apply remap_device_twice.
Qed.

(** ** Results and traversals *)

Lemma rbind_ok {A B : Type} (r : result A) (k : A -> result B) (b : B) :
  rbind r k = Ok b -> exists a, r = Ok a /\ k a = Ok b.
Proof.
  destruct r as [a|e]; simpl; intros H; [eauto | discriminate].
Qed.

Ltac rbind_inv H :=
  let a := fresh "a" in
  let Ha := fresh "Ha" in
  apply rbind_ok in H; destruct H as (a & Ha & H).

Lemma traverse_Forall2 {A B : Type} (f : A -> result B) (l : list A)
    (l' : list B) :
  traverse f l = Ok l' -> Forall2 (fun a b => f a = Ok b) l l'.
Proof.
  revert l'. induction l as [|a l IH]; simpl; intros l' H.
  - inversion H. constructor.
  - rbind_inv H. rbind_inv H. inversion H; subst. constructor; auto.
Qed.

Lemma traverse_total {A B : Type} (f : A -> result B) (l : list A) :
  (forall a, In a l -> exists b, f a = Ok b) -> exists l', traverse f l = Ok l'.
Proof.
  induction l as [|a l IH]; simpl; intros H; [eauto|].
  destruct (H a) as [b Hb]; [auto|]. rewrite Hb. simpl.
  destruct IH as [l' Hl']; [auto|]. rewrite Hl'. simpl. eauto.
Qed.

Lemma Forall2_length_eq {A B : Type} (R : A -> B -> Prop) l l' :
  Forall2 R l l' -> List.length l = List.length l'.
Proof. induction 1; simpl; congruence. Qed.

Lemma Forall2_combine_In {A B : Type} (R : A -> B -> Prop) l l' a b :
  Forall2 R l l' -> In (a, b) (combine l l') -> R a b.
Proof.
  induction 1; simpl; intros Hin; [contradiction|].
  destruct Hin as [Heq|Hin]; [inversion Heq; subst; assumption | auto].
Qed.

(** ** Columns and rows *)

Lemma mem_In (c : string) (l : list string) : mem c l = true <-> In c l.
Proof.
  unfold mem. rewrite existsb_exists. split.
  - intros (x & Hx & E). apply String.eqb_eq in E. subst. assumption.
  - intros H. exists c. split; [assumption | apply String.eqb_refl].
Qed.

Lemma getcol_ok (df : DataFrame) (c : string) (col : list cell) :
  getcol df c = Ok col ->
  has_column df c = true /\ col = map (fun r => row_get (columns df) r c) (rows df).
Proof.
  unfold getcol. destruct (has_column df c); intros H; inversion H; auto.
Qed.

Lemma row_get_set_same (cols : list string) (r : list cell) (c : string)
    (v : cell) :
  List.length r = List.length cols -> mem c cols = true ->
  row_get cols (row_set cols r c v) c = v.
Proof.
  revert r. induction cols as [|k cols IH]; intros r Hlen Hmem.
  - discriminate.
  - destruct r as [|w r]; [discriminate|]. simpl in *.
    destruct (String.eqb k c) eqn:E; simpl.
    + reflexivity.
    + rewrite String.eqb_sym, E in Hmem. apply IH; [lia | exact Hmem].
Qed.

Lemma row_get_set_other (cols : list string) (r : list cell) (c c' : string)
    (v : cell) :
  String.eqb c c' = false ->
  row_get cols (row_set cols r c v) c' = row_get cols r c'.
Proof.
  intros Hne. revert r. induction cols as [|k cols IH]; intros r.
  - reflexivity.
  - destruct r as [|w r]; [reflexivity|]. simpl.
    destruct (String.eqb k c) eqn:E; simpl.
    + apply String.eqb_eq in E. subst k. rewrite Hne. reflexivity.
    + destruct (String.eqb k c'); [reflexivity | apply IH].
Qed.

Lemma row_get_app_new (cols : list string) (r : list cell) (c : string)
    (v : cell) :
  List.length r = List.length cols -> mem c cols = false ->
  row_get (cols ++ [c]) (r ++ [v]) c = v.
Proof.
  revert r. induction cols as [|k cols IH]; intros r Hlen Hmem.
  - destruct r; [|discriminate]. simpl. rewrite String.eqb_refl. reflexivity.
  - destruct r as [|w r]; [discriminate|]. simpl in *.
    apply orb_false_iff in Hmem.
    destruct Hmem as [E Hmem]. rewrite String.eqb_sym, E.
    apply IH; [lia | exact Hmem].
Qed.

Lemma row_get_app_old (cols extra : list string) (r rest : list cell)
    (c : string) :
  List.length r = List.length cols -> mem c cols = true ->
  row_get (cols ++ extra) (r ++ rest) c = row_get cols r c.
Proof.
  revert r. induction cols as [|k cols IH]; intros r Hlen Hmem.
  - discriminate.
  - destruct r as [|w r]; [discriminate|]. simpl in *.
    destruct (String.eqb k c) eqn:E; [reflexivity|].
    rewrite String.eqb_sym, E in Hmem. apply IH; [lia | exact Hmem].
Qed.

Lemma row_set_length (cols : list string) (r : list cell) (c : string)
    (v : cell) :
  List.length (row_set cols r c v) = List.length r.
Proof.
  revert r. induction cols as [|k cols IH]; intros r; [reflexivity|].
  destruct r as [|w r]; [reflexivity|]. simpl.
  destruct (String.eqb k c); simpl; auto.
Qed.

Lemma append_eqb (v a b : string) :
  String.eqb (v ++ a) (v ++ b) = String.eqb a b.
Proof.
  induction v as [|c v IH]; simpl; [reflexivity|].
  rewrite Ascii.eqb_refl. exact IH.
Qed.

(** A row of [setcol df c values] is a row of [df] with its value under
    [c]; the other columns keep their cells. *)
Lemma setcol_rows (df : DataFrame) (c : string) (values : list cell)
    (row : list cell) :
  wf df -> In row (rows (setcol df c values)) ->
  exists r v, In (r, v) (combine (rows df) values) /\
    row_get (columns (setcol df c values)) row c = v /\
    forall c', has_column df c' = true -> String.eqb c c' = false ->
      row_get (columns (setcol df c values)) row c' = row_get (columns df) r c'.
Proof.
  intros Hwf. unfold setcol. destruct (has_column df c) eqn:Hc; simpl;
    rewrite in_map_iff; intros ([r v] & <- & Hin); exists r, v;
    (split; [assumption|]); simpl;
    assert (Hlen : List.length r = List.length (columns df))
      by (apply Hwf; eapply in_combine_l; eassumption).
  - split.
    + apply row_get_set_same; assumption.
    + intros c' _ Hne. apply row_get_set_other. assumption.
  - split.
    + apply row_get_app_new; assumption.
    + intros c' Hc' _. apply row_get_app_old; assumption.
Qed.

Lemma filter_rows_In (df : DataFrame) (mask : list bool) (row : list cell) :
  In row (rows (filter_rows df mask)) -> In (row, true) (combine (rows df) mask).
Proof.
  unfold filter_rows. simpl. rewrite in_map_iff.
  intros ([r b] & <- & Hin). apply filter_In in Hin. simpl in Hin.
  destruct Hin as [Hin ->]. exact Hin.
Qed.

(** ** The join *)

Lemma drop_keys_length (cols keys : list string) (r : list cell) :
  List.length r = List.length cols ->
  List.length (drop_keys cols keys r)
    = List.length (filter (fun c => negb (mem c keys)) cols).
Proof.
  revert r. induction cols as [|c cols IH]; intros r Hlen.
  - destruct r; reflexivity.
  - destruct r as [|v r]; [discriminate|]. simpl in *.
    destruct (mem c keys); simpl; rewrite IH by lia; reflexivity.
Qed.

Lemma joined_rows_eq (left right : DataFrame) (keys : list string) :
  flat_map
    (fun l => map (fun r => l ++ drop_keys (columns right) keys r)
                  (filter (fun r => key_eqb (row_key (columns left) keys l)
                                            (row_key (columns right) keys r))
                          (rows right)))
    (rows left)
  = map (joined_row right keys) (matching_pairs left right keys).
Proof.
  unfold matching_pairs.
  induction (rows left) as [|l ls' IH]; simpl; [reflexivity|].
  rewrite map_app, IH, map_map. reflexivity.
Qed.

Lemma merge_ok (left right : DataFrame) (keys : list string) (ls rs : string)
    (m : DataFrame) :
  merge left right keys ls rs = Ok m ->
  first_missing keys (columns left) = None /\
  first_missing keys (columns right) = None /\
  m = mkFrame (joined_columns left right keys ls rs)
              (map (joined_row right keys) (matching_pairs left right keys)).
Proof.
  unfold merge, joined_columns. rewrite joined_rows_eq.
  destruct (first_missing keys (columns left)); [discriminate|].
  destruct (first_missing keys (columns right)); [discriminate|].
  cbv zeta.
  destruct (suffix_dups _ [] (columns left) || _ || _ || _); [discriminate|].
  intros H. inversion H. repeat split; reflexivity.
Qed.

Lemma matching_pairs_In (left right : DataFrame) (keys : list string)
    (l r : list cell) :
  In (l, r) (matching_pairs left right keys) <->
  In l (rows left) /\ In r (rows right) /\
  key_eqb (row_key (columns left) keys l) (row_key (columns right) keys r) = true.
Proof.
  unfold matching_pairs. rewrite in_flat_map. split.
  - intros (l' & Hl & Hin). apply in_map_iff in Hin.
    destruct Hin as (r' & Heq & Hr). inversion Heq; subst.
    apply filter_In in Hr. tauto.
  - intros (Hl & Hr & Hk). exists l. split; [assumption|].
    apply in_map. apply filter_In. auto.
Qed.

Lemma merge_wf (left right : DataFrame) (keys : list string) (ls rs : string)
    (m : DataFrame) :
  wf left -> wf right -> merge left right keys ls rs = Ok m -> wf m.
Proof.
  intros Hl Hr Hm. apply merge_ok in Hm. destruct Hm as (_ & _ & ->).
  intros row. simpl. rewrite in_map_iff. intros ([l r] & <- & Hin).
  apply matching_pairs_In in Hin. destruct Hin as (Hinl & Hinr & _).
  unfold joined_row, joined_columns. simpl.
  rewrite !length_app, !length_map, drop_keys_length by (apply Hr; assumption).
  rewrite (Hl l Hinl). reflexivity.
Qed.

(** ** The rate calculator *)

Lemma rates_spec (rows : list (list cell)) (f g : list cell -> cell)
    (delta rate : list cell) :
  zip_with Float.sub (map f rows) (map g rows) = Ok delta ->
  map_with Float.div sixty delta = Ok rate ->
  Forall2 (fun row x => exists n o, f row = Num n /\ g row = Num o /\
             x = Num (Float.div (Float.sub n o) sixty)) rows rate.
Proof.
  unfold zip_with, map_with. revert delta rate.
  induction rows as [|row rows IH]; simpl; intros delta rate Hd Hr.
  - inversion Hd; subst. simpl in Hr. inversion Hr. constructor.
  - rbind_inv Hd. rbind_inv Hd. inversion Hd; subst. clear Hd.
    simpl in Hr. rbind_inv Hr. rbind_inv Hr. inversion Hr; subst. clear Hr.
    constructor; [|eapply IH; eassumption].
    unfold lift2 in *. simpl in *.
    destruct (f row) as [|n|]; try discriminate.
    destruct (g row) as [|o|]; try discriminate.
    simpl in *. inversion Ha; subst. simpl in Ha1. inversion Ha1; subst.
    eauto.
Qed.

Lemma ge_mask_spec (rows : list (list cell)) (g : list cell -> cell)
    (k : float) (mask : list bool) :
  ge_mask k (map g rows) = Ok mask ->
  Forall2 (fun row b => exists x, g row = Num x /\ b = Float.leb k x) rows mask.
Proof.
  unfold ge_mask. revert mask.
  induction rows as [|row rows IH]; simpl; intros mask H.
  - inversion H. constructor.
  - rbind_inv H. rbind_inv H. inversion H; subst. clear H.
    constructor; [|apply IH; assumption].
    destruct (g row) as [|y|]; simpl in *; try discriminate.
    inversion Ha. eauto.
Qed.

Lemma calculate_rate_ok (df1 df2 : DataFrame) (keys : list string)
    (v : string) (out : DataFrame) :
  calculate_rate df1 df2 keys v = Ok out ->
  exists merged rate mask,
    merge df1 df2 keys "_old" "_new" = Ok merged /\
    has_column merged (v ++ "_new") = true /\
    has_column merged (v ++ "_old") = true /\
    Forall2 (fun row x => exists n o,
               row_get (columns merged) row (v ++ "_new") = Num n /\
               row_get (columns merged) row (v ++ "_old") = Num o /\
               x = Num (Float.div (Float.sub n o) sixty))
            (rows merged) rate /\
    Forall2 (fun row b => exists x,
               row_get (columns (setcol merged (v ++ "_rate") rate)) row
                       (v ++ "_rate") = Num x /\ b = Float.leb Float.zero x)
            (rows (setcol merged (v ++ "_rate") rate)) mask /\
    out = filter_rows (setcol merged (v ++ "_rate") rate) mask.
Proof.
  unfold calculate_rate. intros H.
  rbind_inv H. rename a into merged.
  rbind_inv H. rename a into new. rbind_inv H. rename a into old.
  rbind_inv H. rename a into delta. rbind_inv H. rename a into rate.
  rbind_inv H. rename a into r. rbind_inv H. rename a into mask.
  inversion H; subst out. clear H.
  apply getcol_ok in Ha0, Ha1, Ha4.
  destruct Ha0 as [Hnew ->], Ha1 as [Hold ->], Ha4 as [_ ->].
  exists merged, rate, mask. repeat split; try assumption.
  - eapply rates_spec; eassumption.
  - apply ge_mask_spec. assumption.
Qed.

(** C5.  Every row the rate calculator returns carries a rate that is a
    number at least zero: a joined pair whose rate is negative (or NaN)
    is not in the output. *)
Theorem rate_nonnegative (df1 df2 : DataFrame) (keys : list string)
    (v : string) (out : DataFrame) (row : list cell) :
  calculate_rate df1 df2 keys v = Ok out ->
  In row (rows out) ->
  exists x, row_get (columns out) row (v ++ "_rate") = Num x /\
            Float.leb Float.zero x = true.
Proof.
  intros H Hin. apply calculate_rate_ok in H.
  destruct H as (merged & rate & mask & _ & _ & _ & _ & Hmask & ->).
  apply filter_rows_In in Hin.
  destruct (Forall2_combine_In _ _ _ _ _ Hmask Hin) as (x & Hx & Hb).
  exists x. split; [exact Hx | symmetry; exact Hb].
Qed.

Lemma sample_rates_eq :
  calculate_rate older_sample newer_sample ["device"] "value" = Ok sample_rates.
Proof. vm_compute. reflexivity. Defined.

Lemma rate_nonnegative_witness :
  exists x,
    row_get (columns sample_rates)
            [Str "eth0"; Num (Fin 1000); Num (Fin 1030); Num (Fin (1 # 2))]
            "value_rate" = Num x /\
    Float.leb Float.zero x = true.
Proof.
  apply (rate_nonnegative older_sample newer_sample ["device"] "value").
  - exact sample_rates_eq.
  - simpl. left. reflexivity.
Defined.

(** C1, as amended.  The rate of every returned row is the newer value
    minus the older value of the row, divided by one interval constant of
    the calculator, the same for all snapshots and keys; the time that
    elapsed between the two scrapes is no input of the calculator. *)
Theorem rate_divides_by_fixed_interval :
  exists interval : Q, (0 < interval)%Q /\
    forall (df1 df2 : DataFrame) (keys : list string) (v : string)
           (out : DataFrame) (row : list cell),
      wf df1 -> wf df2 ->
      calculate_rate df1 df2 keys v = Ok out ->
      In row (rows out) ->
      exists older newer,
        row_get (columns out) row (v ++ "_old") = Num older /\
        row_get (columns out) row (v ++ "_new") = Num newer /\
        row_get (columns out) row (v ++ "_rate")
          = Num (Float.div (Float.sub newer older) (Fin interval)).
Proof.
  exists (inject_Z 60). split; [reflexivity|].
  intros df1 df2 keys v out row Hwf1 Hwf2 H Hin.
  apply calculate_rate_ok in H.
  destruct H as (merged & rate & mask & Hm & Hnew & Hold & Hrate & _ & ->).
  apply filter_rows_In in Hin. apply in_combine_l in Hin.
  apply setcol_rows in Hin; [|exact (merge_wf _ _ _ _ _ _ Hwf1 Hwf2 Hm)].
  destruct Hin as (r & x & Hrx & Hget & Hother).
  destruct (Forall2_combine_In _ _ _ _ _ Hrate Hrx) as (n & o & Hn & Ho & ->).
  exists o, n. simpl. repeat split.
  - rewrite Hother; [exact Ho | exact Hold | apply append_eqb].
  - rewrite Hother; [exact Hn | exact Hnew | apply append_eqb].
  - exact Hget.
Qed.

Lemma older_sample_wf : wf older_sample.
Proof. intros r [<-|[<-|[]]]; reflexivity. Defined.

Lemma newer_sample_wf : wf newer_sample.
Proof. intros r [<-|[<-|[]]]; reflexivity. Defined.

Lemma rate_divides_by_fixed_interval_witness :
  exists interval : Q, (0 < interval)%Q /\
    exists older newer,
      row_get (columns sample_rates)
              [Str "eth0"; Num (Fin 1000); Num (Fin 1030); Num (Fin (1 # 2))]
              "value_old" = Num older /\
      row_get (columns sample_rates)
              [Str "eth0"; Num (Fin 1000); Num (Fin 1030); Num (Fin (1 # 2))]
              "value_new" = Num newer /\
      row_get (columns sample_rates)
              [Str "eth0"; Num (Fin 1000); Num (Fin 1030); Num (Fin (1 # 2))]
              "value_rate"
        = Num (Float.div (Float.sub newer older) (Fin interval)).
Proof.
  destruct rate_divides_by_fixed_interval as (interval & Hpos & H).
  exists interval. split; [exact Hpos|].
  apply (H older_sample newer_sample ["device"] "value" sample_rates).
  - exact older_sample_wf.
  - exact newer_sample_wf.
  - exact sample_rates_eq.
  - simpl. left. reflexivity.
Defined.

(** ** One collection cycle *)

(** C1, counterexample.  In the cycle of [main] on [Cycle.world] the two
    scrapes are 10 seconds apart and the receive counter of eth0 grows by
    30; the rate that the calculator returns for the two parsed snapshots
    is 30/60, not 30/10. *)
Lemma rate_ignores_elapsed_time :
  exists (text1 text2 : string) (w1 w2 : World) (df1 df2 : DataFrame),
    fetch_raw_metrics Cycle.world = (Ok text1, w1) /\
    (sleep 10 ;; fetch_raw_metrics) w1 = (Ok text2, w2) /\
    seconds_between (clock w1) (clock w2) = Float.of_Z 10 /\
    parse_metric receive_pattern text1 "value" = Ok df1 /\
    parse_metric receive_pattern text2 "value" = Ok df2 /\
    ~ rate_over (seconds_between (clock w1) (clock w2))
        (default_instance df1) (default_instance df2)
        ["instance"; "device"] "value".
Proof.
  do 6 eexists.
  split; [vm_compute; reflexivity|].
  split; [vm_compute; reflexivity|].
  split; [vm_compute; reflexivity|].
  split; [vm_compute; reflexivity|].
  split; [vm_compute; reflexivity|].
  intros H.
  destruct (H _ [Str "eth0"; Num (Fin 1000); Str "localhost:9100";
                 Num (Fin 1030); Num (Fin (1 # 2))] eq_refl)
    as (older & newer & Ho & Hn & Hr).
  - simpl. left. reflexivity.
  - vm_compute in Ho, Hn, Hr. inversion Ho; subst. inversion Hn; subst.
    discriminate Hr.
Qed.

(** ** Join keys *)

Lemma float_eqb_refl (x : float) : Float.eqb x x = true.
Proof. destruct x; simpl; try reflexivity. apply Qeq_bool_iff. reflexivity. Qed.

Lemma float_eqb_sym (x y : float) : Float.eqb x y = Float.eqb y x.
Proof.
  destruct x, y; simpl; try reflexivity.
  destruct (Qeq_bool q q0) eqn:E1, (Qeq_bool q0 q) eqn:E2; try reflexivity.
  - apply Qeq_bool_iff in E1. symmetry in E1. apply Qeq_bool_iff in E1. congruence.
  - apply Qeq_bool_iff in E2. symmetry in E2. apply Qeq_bool_iff in E2. congruence.
Qed.

Lemma float_eqb_trans (x y z : float) :
  Float.eqb x y = true -> Float.eqb y z = true -> Float.eqb x z = true.
Proof.
  destruct x, y, z; simpl; try congruence.
  rewrite !Qeq_bool_iff. intros H1 H2. rewrite H1. exact H2.
Qed.

Lemma cell_eqb_refl (a : cell) : cell_eqb a a = true.
Proof.
  destruct a; simpl.
  - apply String.eqb_refl.
  - apply float_eqb_refl.
  - apply Z.eqb_refl.
Qed.

Lemma cell_eqb_sym (a b : cell) : cell_eqb a b = cell_eqb b a.
Proof.
  destruct a, b; simpl; try reflexivity.
  - apply String.eqb_sym.
  - apply float_eqb_sym.
  - apply Z.eqb_sym.
Qed.

Lemma cell_eqb_trans (a b c : cell) :
  cell_eqb a b = true -> cell_eqb b c = true -> cell_eqb a c = true.
Proof.
  destruct a, b, c; simpl; try congruence.
  - rewrite !String.eqb_eq. congruence.
  - apply float_eqb_trans.
  - rewrite !Z.eqb_eq. congruence.
Qed.

Lemma key_eqb_refl (a : list cell) : key_eqb a a = true.
Proof.
  induction a as [|x a IH]; simpl; [reflexivity|].
  rewrite cell_eqb_refl. exact IH.
Qed.

Lemma key_eqb_sym (a b : list cell) : key_eqb a b = key_eqb b a.
Proof.
  revert b. induction a as [|x a IH]; intros [|y b]; simpl; try reflexivity.
  rewrite cell_eqb_sym, IH. reflexivity.
Qed.

Lemma key_eqb_trans (a b c : list cell) :
  key_eqb a b = true -> key_eqb b c = true -> key_eqb a c = true.
Proof.
  revert b c. induction a as [|x a IH]; intros [|y b] [|z c]; simpl;
    try congruence.
  rewrite !andb_true_iff. intros [H1 H2] [H3 H4]. split.
  - eapply cell_eqb_trans; eassumption.
  - eapply IH; eassumption.
Qed.

Lemma filter_none {A : Type} (p : A -> bool) (l : list A) :
  (forall a, In a l -> p a = false) -> filter p l = [].
Proof.
  induction l as [|a l IH]; simpl; intros H; [reflexivity|].
  rewrite (H a) by auto. apply IH. auto.
Qed.

Lemma distinct_filter {A : Type} (key : A -> list cell) (l : list A)
    (K : list cell) (a0 : A) :
  distinct_keys (map key l) = true -> In a0 l -> key_eqb K (key a0) = true ->
  filter (fun a => key_eqb K (key a)) l = [a0].
Proof.
  induction l as [|a l IH]; simpl; intros Hd Hin HK; [contradiction|].
  apply andb_true_iff in Hd. destruct Hd as [Hfresh Hd].
  apply negb_true_iff in Hfresh.
  destruct Hin as [->|Hin].
  - rewrite HK. f_equal. apply filter_none. intros a Ha.
    destruct (key_eqb K (key a)) eqn:E; [|reflexivity].
    exfalso. rewrite <- not_true_iff_false in Hfresh. apply Hfresh.
    apply existsb_exists. exists (key a). split; [apply in_map; assumption|].
    eapply key_eqb_trans; [|eassumption]. rewrite key_eqb_sym. assumption.
  - destruct (key_eqb K (key a)) eqn:E; [|apply IH; assumption].
    exfalso. rewrite <- not_true_iff_false in Hfresh. apply Hfresh.
    apply existsb_exists. exists (key a0). split; [apply in_map; assumption|].
    eapply key_eqb_trans; [|eassumption]. rewrite key_eqb_sym. assumption.
Qed.

(** ** Cells of a joined row *)

Lemma mem_map (f : string -> string) (c : string) (cols : list string) :
  mem c cols = true -> mem (f c) (map f cols) = true.
Proof. rewrite !mem_In. apply in_map. Qed.

Lemma row_get_nil (cols : list string) (c : string) : row_get cols [] c = nan.
Proof. destruct cols; reflexivity. Qed.

Lemma row_get_map (f : string -> string) (cols : list string) (r : list cell)
    (c : string) :
  nodupb (map f cols) = true -> mem c cols = true ->
  row_get (map f cols) r (f c) = row_get cols r c.
Proof.
  revert r. induction cols as [|k cols IH]; intros r Hnd Hc; [discriminate|].
  simpl in Hnd. apply andb_true_iff in Hnd. destruct Hnd as [Hk Hnd].
  apply negb_true_iff in Hk.
  destruct r as [|x r]; [reflexivity|]. simpl.
  unfold mem in Hc. simpl in Hc.
  destruct (String.eqb k c) eqn:E.
  - apply String.eqb_eq in E. subst k. rewrite String.eqb_refl. reflexivity.
  - rewrite String.eqb_sym, E in Hc. simpl in Hc.
    destruct (String.eqb (f k) (f c)) eqn:E'.
    + apply String.eqb_eq in E'. rewrite E' in Hk.
      rewrite (mem_map f c cols Hc) in Hk. discriminate.
    + apply IH; assumption.
Qed.

Lemma row_get_app_skip (cols extra : list string) (r rest : list cell)
    (c : string) :
  List.length r = List.length cols -> mem c cols = false ->
  row_get (cols ++ extra) (r ++ rest) c = row_get extra rest c.
Proof.
  revert r. induction cols as [|k cols IH]; intros r Hlen Hc.
  - destruct r; [reflexivity | discriminate].
  - destruct r as [|x r]; [discriminate|]. simpl in *.
    apply orb_false_iff in Hc. destruct Hc as [E Hc].
    rewrite String.eqb_sym, E. apply IH; [lia | exact Hc].
Qed.

Lemma drop_keys_get (cols keys : list string) (r : list cell) (c : string) :
  mem c keys = false ->
  row_get (filter (fun c => negb (mem c keys)) cols) (drop_keys cols keys r) c
    = row_get cols r c.
Proof.
  intros Hc. revert r. induction cols as [|k cols IH]; intros r; [reflexivity|].
  destruct r as [|x r]; simpl.
  - destruct (negb (mem k keys)); reflexivity || apply row_get_nil.
  - destruct (mem k keys) eqn:Hk; simpl.
    + destruct (String.eqb k c) eqn:E; [|apply IH].
      apply String.eqb_eq in E. congruence.
    + destruct (String.eqb k c); [reflexivity | apply IH].
Qed.

Lemma nodupb_app (l1 l2 : list string) :
  nodupb (l1 ++ l2) = true ->
  nodupb l1 = true /\ nodupb l2 = true /\
  forall c, mem c l2 = true -> mem c l1 = false.
Proof.
  induction l1 as [|k l1 IH]; simpl; intros H.
  - split; [reflexivity|]. split; [assumption|]. reflexivity.
  - apply andb_true_iff in H. destruct H as [Hk H].
    destruct (IH H) as (H1 & H2 & H3). apply negb_true_iff in Hk.
    assert (Hk1 : mem k l1 = false).
    { destruct (mem k l1) eqn:E; [|reflexivity].
      rewrite <- Hk. symmetry. apply mem_In. apply in_or_app. left.
      apply mem_In. assumption. }
    split; [rewrite Hk1; assumption|]. split; [assumption|].
    intros c Hc. unfold mem. simpl. fold (mem c l1). rewrite (H3 c Hc).
    destruct (String.eqb c k) eqn:E; [|reflexivity].
    apply String.eqb_eq in E. subst c.
    rewrite <- Hk. symmetry. apply mem_In. apply in_or_app. right.
    apply mem_In. assumption.
Qed.

Lemma first_missing_none (cs have : list string) :
  first_missing cs have = None <-> forall c, In c cs -> mem c have = true.
Proof.
  induction cs as [|c cs IH]; simpl.
  - split; [intros _ c [] | reflexivity].
  - destruct (mem c have) eqn:E.
    + rewrite IH. split; [intros H c' [<-|Hc']; auto | auto].
    + split; [discriminate|]. intros H. rewrite H in E by auto. discriminate.
Qed.

Lemma traverse_map {A B : Type} (f : A -> result B) (g : A -> B) (l : list A) :
  (forall a, In a l -> f a = Ok (g a)) -> traverse f l = Ok (map g l).
Proof.
  induction l as [|a l IH]; simpl; intros H; [reflexivity|].
  rewrite (H a) by auto. simpl. rewrite IH by auto. reflexivity.
Qed.

Lemma combine_map {A B C : Type} (f : A -> B) (g : A -> C) (l : list A) :
  combine (map f l) (map g l) = map (fun a => (f a, g a)) l.
Proof. induction l as [|a l IH]; simpl; [reflexivity | rewrite IH; reflexivity]. Qed.

Lemma zip_with_nums {A : Type} (op : float -> float -> float)
    (f g : A -> float) (l : list A) :
  zip_with op (map (fun a => Num (f a)) l) (map (fun a => Num (g a)) l)
    = Ok (map (fun a => Num (op (f a) (g a))) l).
Proof.
  unfold zip_with. rewrite combine_map.
  induction l as [|a l IH]; simpl; [reflexivity|].
  rewrite IH. reflexivity.
Qed.

Lemma map_with_nums {A : Type} (op : float -> float -> float) (k : float)
    (f : A -> float) (l : list A) :
  map_with op k (map (fun a => Num (f a)) l)
    = Ok (map (fun a => Num (op (f a) k)) l).
Proof.
  unfold map_with. induction l as [|a l IH]; simpl; [reflexivity|].
  rewrite IH. reflexivity.
Qed.

Lemma ge_mask_nums {A : Type} (k : float) (f : A -> float) (l : list A) :
  ge_mask k (map (fun a => Num (f a)) l) = Ok (map (fun a => Float.leb k (f a)) l).
Proof.
  unfold ge_mask. induction l as [|a l IH]; simpl; [reflexivity|].
  rewrite IH. reflexivity.
Qed.

Lemma setcol_rows_eq (df : DataFrame) (c : string) (values : list cell) :
  rows (setcol df c values)
    = map (fun rv => put (columns df) c (fst rv) (snd rv))
          (combine (rows df) values).
Proof.
  unfold setcol, put, has_column. destruct (mem c (columns df)); reflexivity.
Qed.

Lemma put_get_same (df : DataFrame) (c : string) (values : list cell)
    (r : list cell) (x : cell) :
  List.length r = List.length (columns df) ->
  row_get (columns (setcol df c values)) (put (columns df) c r x) c = x.
Proof.
  intros Hlen. unfold setcol, put, has_column.
  destruct (mem c (columns df)) eqn:E; simpl.
  - apply row_get_set_same; assumption.
  - apply row_get_app_new; assumption.
Qed.

Lemma put_get_other (df : DataFrame) (c : string) (values : list cell)
    (r : list cell) (x : cell) (k : string) :
  List.length r = List.length (columns df) ->
  mem k (columns df) = true -> String.eqb c k = false ->
  row_get (columns (setcol df c values)) (put (columns df) c r x) k
    = row_get (columns df) r k.
Proof.
  intros Hlen Hk Hne. unfold setcol, put, has_column.
  destruct (mem c (columns df)) eqn:E; simpl.
  - apply row_get_set_other; assumption.
  - apply row_get_app_old; assumption.
Qed.

Lemma filter_mask {A B : Type} (f : A -> B) (g : A -> bool) (l : list A) :
  map fst (filter (fun rb : B * bool => snd rb) (combine (map f l) (map g l)))
    = map f (filter g l).
Proof.
  induction l as [|a l IH]; simpl; [reflexivity|].
  destruct (g a); simpl; rewrite IH; reflexivity.
Qed.

Lemma filter_comm {A : Type} (p q : A -> bool) (l : list A) :
  filter p (filter q l) = filter q (filter p l).
Proof.
  induction l as [|a l IH]; simpl; [reflexivity|].
  destruct (p a) eqn:Hp, (q a) eqn:Hq; simpl; rewrite ?Hp, ?Hq, IH; reflexivity.
Qed.

Lemma filter_flat_map {A B : Type} (p : A -> bool) (q : B -> bool)
    (f : A -> list B) (l : list A) :
  (forall a b, In b (f a) -> q b = p a) ->
  filter q (flat_map f l) = flat_map f (filter p l).
Proof.
  intros H. induction l as [|a l IH]; simpl; [reflexivity|].
  rewrite filter_app, IH. destruct (p a) eqn:E; simpl.
  - f_equal. apply forallb_filter_id. apply forallb_forall.
    intros b Hb. rewrite (H a b Hb). exact E.
  - rewrite filter_none; [reflexivity|]. intros b Hb. rewrite (H a b Hb). exact E.
Qed.

Lemma filter_map_length {A B : Type} (q : B -> bool) (f : A -> B) (l : list A) :
  List.length (filter q (map f l)) = List.length (filter (fun a => q (f a)) l).
Proof.
  induction l as [|a l IH]; simpl; [reflexivity|].
  destruct (q (f a)); simpl; rewrite IH; reflexivity.
Qed.

Lemma key_count_zero (df : DataFrame) (keys : list string) (K : list cell)
    (r : list cell) :
  key_count df keys K = 0 -> In r (rows df) ->
  key_eqb K (row_key (columns df) keys r) = false.
Proof.
  unfold key_count. intros H Hr.
  destruct (key_eqb K (row_key (columns df) keys r)) eqn:E; [|reflexivity].
  apply length_zero_iff_nil in H.
  assert (Hin : In r (filter (fun r => key_eqb K (row_key (columns df) keys r))
                             (rows df))) by (apply filter_In; auto).
  rewrite H in Hin. contradiction.
Qed.

Lemma suffix_dups_distinct (f : string -> string) (seen cols : list string) :
  nodupb (map f cols) = true ->
  (forall c, In c cols -> mem (f c) (map f seen) = false) ->
  suffix_dups f seen cols = false.
Proof.
  revert seen. induction cols as [|c cols IH]; intros seen Hnd Hseen;
    [reflexivity|].
  cbn [suffix_dups]. rewrite (Hseen c) by (left; reflexivity). cbn [andb orb].
  cbn [map nodupb] in Hnd. apply andb_true_iff in Hnd.
  destruct Hnd as [Hc Hnd]. apply negb_true_iff in Hc.
  apply IH; [exact Hnd|]. intros c' Hc'. cbn [map mem existsb].
  fold (mem (f c') (map f seen)).
  rewrite (Hseen c') by (right; exact Hc'). rewrite orb_false_r.
  destruct (String.eqb (f c') (f c)) eqn:E; [|reflexivity].
  apply String.eqb_eq in E. exfalso.
  assert (Hin : mem (f c) (map f cols) = true).
  { apply mem_In. rewrite <- E. apply in_map. exact Hc'. }
  congruence.
Qed.

Lemma distinct_no_suffix_dups (f : string -> string) (cols : list string) :
  nodupb (map f cols) = true -> suffix_dups f [] cols = false.
Proof. intros H. apply suffix_dups_distinct; [exact H | reflexivity]. Qed.

(** Distinct joined column names leave nothing for the suffixes to
    collide with. *)
Lemma distinct_no_collision (left right : DataFrame) (keys : list string)
    (ls rs : string) :
  nodupb (joined_columns left right keys ls rs) = true ->
  collides (map (suffixed keys (columns right) ls) (columns left))
           (columns left)
           (filter (fun c => negb (mem c keys)) (columns right)) = false /\
  collides (map (suffixed keys (columns left) rs)
                (filter (fun c => negb (mem c keys)) (columns right)))
           (filter (fun c => negb (mem c keys)) (columns right))
           (columns left) = false.
Proof.
  unfold joined_columns. intros H.
  destruct (nodupb_app _ _ H) as (_ & _ & Hcross).
  set (rest := filter (fun c => negb (mem c keys)) (columns right)) in *.
  split.
  - destruct (collides _ (columns left) rest) eqn:E; [|reflexivity].
    exfalso. unfold collides in E. apply existsb_exists in E.
    destruct E as (c & Hc & Hcond). apply andb_true_iff in Hcond.
    destruct Hcond as [Hrest Hleft]. apply negb_true_iff in Hleft.
    assert (Hkey : mem c keys = false).
    { apply mem_In in Hrest. unfold rest in Hrest. apply filter_In in Hrest.
      destruct Hrest as [_ Hk]. apply negb_true_iff in Hk. exact Hk. }
    assert (Hr : mem c (map (suffixed keys (columns left) rs) rest) = true).
    { apply mem_In. apply in_map_iff. exists c. split; [|apply mem_In; exact Hrest].
      unfold suffixed. rewrite Hkey, Hleft. reflexivity. }
    apply Hcross in Hr. apply mem_In in Hc. congruence.
  - destruct (collides _ rest (columns left)) eqn:E; [|reflexivity].
    exfalso. unfold collides in E. apply existsb_exists in E.
    destruct E as (c & Hc & Hcond). apply andb_true_iff in Hcond.
    destruct Hcond as [Hleft Hrest]. apply negb_true_iff in Hrest.
    apply mem_In in Hc. pose proof (Hcross c Hc) as Hno.
    assert (Hl : mem c (map (suffixed keys (columns right) ls) (columns left))
                 = true).
    { apply mem_In. apply in_map_iff. exists c.
      split; [|apply mem_In; exact Hleft].
      unfold suffixed. destruct (mem c keys) eqn:Hk; [reflexivity|].
      destruct (mem c (columns right)) eqn:Hr; [|reflexivity].
      exfalso. assert (Hin : mem c rest = true).
      { apply mem_In. unfold rest. apply filter_In. split.
        - apply mem_In. exact Hr.
        - rewrite Hk. reflexivity. }
      congruence. }
    congruence.
Qed.

Section Joined.

Variables (df1 df2 : DataFrame) (keys : list string) (v : string).

Hypothesis wf1 : wf df1.
Hypothesis wf2 : wf df2.
Hypothesis keys1 : forall k, In k keys -> In k (columns df1).
Hypothesis keys2 : forall k, In k keys -> In k (columns df2).
Hypothesis v1 : In v (columns df1).
Hypothesis v2 : In v (columns df2).
Hypothesis v_no_key : ~ In v keys.
Hypothesis distinct_columns :
  nodupb (joined_columns df1 df2 keys "_old" "_new") = true.

Let jcols := joined_columns df1 df2 keys "_old" "_new".

Lemma mem_false (c : string) (l : list string) : ~ In c l -> mem c l = false.
Proof.
  intros H. destruct (mem c l) eqn:E; [|reflexivity].
  apply mem_In in E. contradiction.
Qed.

Lemma suffixed_key (other : list string) (s k : string) :
  In k keys -> suffixed keys other s k = k.
Proof. intros H. unfold suffixed. apply mem_In in H. rewrite H. reflexivity. Qed.

Lemma suffixed_old : suffixed keys (columns df2) "_old" v = (v ++ "_old")%string.
Proof.
  unfold suffixed. rewrite (mem_false _ _ v_no_key).
  apply mem_In in v2. rewrite v2. reflexivity.
Qed.

Lemma suffixed_new : suffixed keys (columns df1) "_new" v = (v ++ "_new")%string.
Proof.
  unfold suffixed. rewrite (mem_false _ _ v_no_key).
  apply mem_In in v1. rewrite v1. reflexivity.
Qed.

Lemma merge_joined :
  merge df1 df2 keys "_old" "_new"
    = Ok (mkFrame jcols (map (joined_row df2 keys) (matching_pairs df1 df2 keys))).
Proof.
  unfold merge. rewrite joined_rows_eq.
  assert (H1 : first_missing keys (columns df1) = None).
  { apply first_missing_none. intros c Hc. apply mem_In. auto. }
  assert (H2 : first_missing keys (columns df2) = None).
  { apply first_missing_none. intros c Hc. apply mem_In. auto. }
  rewrite H1, H2.
  destruct (nodupb_app _ _ distinct_columns) as (N1 & N2 & _).
  destruct (distinct_no_collision _ _ _ _ _ distinct_columns) as (C1 & C2).
  cbv zeta.
  rewrite (distinct_no_suffix_dups _ _ N1), (distinct_no_suffix_dups _ _ N2).
  rewrite C1, C2. reflexivity.
Qed.

Lemma joined_key (l r : list cell) (k : string) :
  In l (rows df1) -> In k keys ->
  row_get jcols (joined_row df2 keys (l, r)) k = row_get (columns df1) l k.
Proof.
  intros Hl Hk. unfold jcols, joined_columns, joined_row. simpl.
  destruct (nodupb_app _ _ distinct_columns) as (N1 & _ & _).
  rewrite row_get_app_old.
  - rewrite <- (suffixed_key (columns df2) "_old" k Hk) at 1.
    apply row_get_map; [exact N1 | apply mem_In; auto].
  - rewrite length_map. apply wf1. assumption.
  - rewrite <- (suffixed_key (columns df2) "_old" k Hk).
    apply mem_map. apply mem_In. auto.
Qed.

Lemma joined_old (l r : list cell) :
  In l (rows df1) ->
  row_get jcols (joined_row df2 keys (l, r)) (v ++ "_old")
    = row_get (columns df1) l v.
Proof.
  intros Hl. unfold jcols, joined_columns, joined_row. simpl.
  destruct (nodupb_app _ _ distinct_columns) as (N1 & _ & _).
  rewrite row_get_app_old.
  - rewrite <- suffixed_old. apply row_get_map; [exact N1 | apply mem_In; auto].
  - rewrite length_map. apply wf1. assumption.
  - rewrite <- suffixed_old. apply mem_map. apply mem_In. auto.
Qed.

Lemma v_not_dropped :
  mem v (filter (fun c => negb (mem c keys)) (columns df2)) = true.
Proof.
  apply mem_In. apply filter_In. split; [assumption|].
  rewrite (mem_false _ _ v_no_key). reflexivity.
Qed.

Lemma joined_new (l r : list cell) :
  In l (rows df1) ->
  row_get jcols (joined_row df2 keys (l, r)) (v ++ "_new")
    = row_get (columns df2) r v.
Proof.
  intros Hl. unfold jcols, joined_columns, joined_row. simpl.
  destruct (nodupb_app _ _ distinct_columns) as (_ & N2 & N3).
  rewrite row_get_app_skip.
  - rewrite <- suffixed_new. rewrite row_get_map.
    + apply drop_keys_get. apply mem_false. assumption.
    + exact N2.
    + exact v_not_dropped.
  - rewrite length_map. apply wf1. assumption.
  - apply N3. rewrite <- suffixed_new. apply mem_map. exact v_not_dropped.
Qed.

Hypothesis rate_no_key : ~ In (v ++ "_rate")%string keys.
Hypothesis numeric1 : numeric df1 v.
Hypothesis numeric2 : numeric df2 v.

Let pairs := matching_pairs df1 df2 keys.
Let merged := mkFrame jcols (map (joined_row df2 keys) pairs).

Lemma merged_wf : wf merged.
Proof. eapply merge_wf; [exact wf1 | exact wf2 | exact merge_joined]. Qed.

Lemma getcol_new :
  getcol merged (v ++ "_new")
    = Ok (map (fun p => Num (value_of (columns df2) (snd p) v)) pairs).
Proof.
  unfold getcol, has_column. simpl.
  assert (H : mem (v ++ "_new") jcols = true).
  { apply mem_In. apply in_or_app. right. rewrite <- suffixed_new.
    apply in_map. apply mem_In. exact v_not_dropped. }
  rewrite H, map_map. f_equal. apply map_ext_in. intros [l r] Hp.
  apply matching_pairs_In in Hp. destruct Hp as (Hl & Hr & _).
  rewrite joined_new by assumption. unfold value_of. simpl.
  destruct (numeric2 r Hr) as [x ->]. reflexivity.
Qed.

Lemma getcol_old :
  getcol merged (v ++ "_old")
    = Ok (map (fun p => Num (value_of (columns df1) (fst p) v)) pairs).
Proof.
  unfold getcol, has_column. simpl.
  assert (H : mem (v ++ "_old") jcols = true).
  { apply mem_In. apply in_or_app. left. rewrite <- suffixed_old.
    apply in_map. assumption. }
  rewrite H, map_map. f_equal. apply map_ext_in. intros [l r] Hp.
  apply matching_pairs_In in Hp. destruct Hp as (Hl & Hr & _).
  rewrite joined_old by assumption. unfold value_of. simpl.
  destruct (numeric1 l Hl) as [x ->]. reflexivity.
Qed.

Lemma rate_frame_rows :
  rows (setcol merged (v ++ "_rate") (map (fun p => Num (pair_rate df1 df2 v p)) pairs))
    = map (rate_row df1 df2 keys v) pairs.
Proof.
  rewrite setcol_rows_eq. simpl. rewrite combine_map, map_map. reflexivity.
Qed.

Let rates := map (fun p => Num (pair_rate df1 df2 v p)) pairs.

Lemma getcol_rate :
  getcol (setcol merged (v ++ "_rate") rates) (v ++ "_rate") = Ok rates.
Proof.
  unfold getcol.
  assert (Hh : has_column (setcol merged (v ++ "_rate") rates) (v ++ "_rate")
               = true).
  { unfold setcol, has_column.
    destruct (mem (v ++ "_rate") (columns merged)) eqn:E; simpl.
    - exact E.
    - apply mem_In. apply in_or_app. right. left. reflexivity. }
  rewrite Hh. f_equal. unfold rates at 2. rewrite rate_frame_rows, map_map.
  apply map_ext_in. intros p Hp. unfold rate_row.
  apply (put_get_same merged). apply merged_wf. simpl.
  apply in_map. exact Hp.
Qed.

(** The frame that the calculator returns. *)
Lemma calculate_rate_joined :
  calculate_rate df1 df2 keys v
    = Ok (mkFrame
            (columns (setcol merged (v ++ "_rate") rates))
            (map (rate_row df1 df2 keys v) (filter (fun p => Float.leb Float.zero (pair_rate df1 df2 v p))
                                  pairs))).
Proof.
  unfold calculate_rate. rewrite merge_joined. cbn [rbind].
  fold pairs. fold merged. rewrite getcol_new. cbn [rbind].
  rewrite getcol_old. cbn [rbind].
  rewrite zip_with_nums. cbn [rbind]. fold sixty. rewrite map_with_nums.
  cbn [rbind].
  change (map _ pairs) with rates at 1. rewrite getcol_rate. cbn [rbind].
  unfold rates at 1. rewrite ge_mask_nums. cbn [rbind].
  change (map (fun a => Num (Float.div _ sixty)) pairs) with rates.
  unfold filter_rows. f_equal. f_equal. unfold rates.
  rewrite rate_frame_rows. apply filter_mask.
Qed.

Let good (p : list cell * list cell) : bool := Float.leb Float.zero (pair_rate df1 df2 v p).
Let out := mkFrame (columns (setcol merged (v ++ "_rate") rates))
                   (map (rate_row df1 df2 keys v) (filter good pairs)).

Lemma rate_row_key (p : list cell * list cell) :
  In p pairs ->
  row_key (columns out) keys (rate_row df1 df2 keys v p) = row_key (columns df1) keys (fst p).
Proof.
  intros Hp. unfold row_key. apply map_ext_in. intros k Hk.
  destruct p as [l r]. pose proof Hp as Hp'.
  apply matching_pairs_In in Hp'. destruct Hp' as (Hl & _ & _).
  unfold out, rate_row. simpl columns.
  rewrite (put_get_other merged).
  - apply joined_key; assumption.
  - apply merged_wf. simpl. apply in_map. exact Hp.
  - simpl. apply mem_In. apply in_or_app. left.
    rewrite <- (suffixed_key (columns df2) "_old" k Hk).
    apply in_map. auto.
  - destruct (String.eqb (v ++ "_rate") k) eqn:E; [|reflexivity].
    apply String.eqb_eq in E. subst k. contradiction.
Qed.

Lemma out_key_count (K : list cell) :
  key_count out keys K
    = List.length
        (filter (fun p => key_eqb K (row_key (columns df1) keys (fst p)))
                (filter good pairs)).
Proof.
  unfold key_count. simpl rows. rewrite filter_map_length. f_equal.
  apply filter_ext_in. intros p Hp. apply filter_In in Hp.
  rewrite rate_row_key by tauto. reflexivity.
Qed.

Hypothesis unique1 : unique_keys df1 keys.
Hypothesis unique2 : unique_keys df2 keys.

Lemma pairs_of_key (l0 r0 : list cell) :
  In l0 (rows df1) -> In r0 (rows df2) ->
  key_eqb (row_key (columns df1) keys l0) (row_key (columns df2) keys r0) = true ->
  filter (fun p => key_eqb (row_key (columns df1) keys l0)
                           (row_key (columns df1) keys (fst p))) pairs
    = [(l0, r0)].
Proof.
  intros Hl Hr Hk. unfold pairs, matching_pairs.
  rewrite (filter_flat_map
             (fun l => key_eqb (row_key (columns df1) keys l0)
                               (row_key (columns df1) keys l))).
  - rewrite (distinct_filter (row_key (columns df1) keys) (rows df1) _ l0);
      [|exact unique1 | exact Hl | apply key_eqb_refl].
    simpl. rewrite app_nil_r.
    rewrite (distinct_filter (row_key (columns df2) keys) (rows df2) _ r0);
      [reflexivity | exact unique2 | exact Hr | exact Hk].
  - intros l p Hp. apply in_map_iff in Hp. destruct Hp as (r & <- & _).
    reflexivity.
Qed.

Lemma count_of_matched (l r : list cell) :
  In l (rows df1) -> In r (rows df2) ->
  key_eqb (row_key (columns df1) keys l) (row_key (columns df2) keys r) = true ->
  key_count out keys (row_key (columns df1) keys l)
    = if good (l, r) then 1 else 0.
Proof.
  intros Hl Hr Hk. rewrite out_key_count, filter_comm.
  rewrite (pairs_of_key l r Hl Hr Hk). simpl.
  destruct (good (l, r)); reflexivity.
Qed.

Lemma count_of_unmatched (K : list cell) :
  key_count df1 keys K = 0 \/ key_count df2 keys K = 0 ->
  key_count out keys K = 0.
Proof.
  intros H. rewrite out_key_count. rewrite filter_none; [reflexivity|].
  intros [l r] Hp. apply filter_In in Hp. destruct Hp as [Hp _].
  apply matching_pairs_In in Hp. destruct Hp as (Hl & Hr & Hk). simpl.
  destruct H as [H|H].
  - apply (key_count_zero _ _ _ _ H Hl).
  - destruct (key_eqb K (row_key (columns df1) keys l)) eqn:E; [|reflexivity].
    rewrite <- (key_count_zero _ _ _ _ H Hr). symmetry.
    eapply key_eqb_trans; eassumption.
Qed.

End Joined.

(** C4, counterexample.  The device eth1 is in both snapshots, once in
    each, with a value that falls from 500 to 200: there is no row of
    rates for it. *)
Lemma falling_counter_has_no_rate :
  unique_keys older_sample ["device"] /\
  unique_keys newer_sample ["device"] /\
  ~ one_rate_per_matched_pair older_sample newer_sample ["device"] "value".
Proof.
  split; [reflexivity|]. split; [reflexivity|].
  intros H.
  specialize (H sample_rates [Str "eth1"; Num (Fin 500)]
                [Str "eth1"; Num (Fin 200)] sample_rates_eq).
  simpl in H. discriminate H; auto.
Qed.

(** C4, as amended.  For two snapshots with unique join-key values whose
    join has distinct column names, the calculator returns a frame in
    which a pair of rows with the same join-key values has exactly one
    row when its rate is at least zero and none otherwise, and in which
    join-key values found in only one of the snapshots have no row. *)
Theorem inner_join_of_nonnegative_rates (df1 df2 : DataFrame)
    (keys : list string) (v : string) :
  wf df1 -> wf df2 ->
  (forall k, In k keys -> In k (columns df1)) ->
  (forall k, In k keys -> In k (columns df2)) ->
  In v (columns df1) -> In v (columns df2) ->
  ~ In v keys -> ~ In (v ++ "_rate")%string keys ->
  nodupb (joined_columns df1 df2 keys "_old" "_new") = true ->
  numeric df1 v -> numeric df2 v ->
  unique_keys df1 keys -> unique_keys df2 keys ->
  exists out,
    calculate_rate df1 df2 keys v = Ok out /\
    (forall l r,
       In l (rows df1) -> In r (rows df2) ->
       key_eqb (row_key (columns df1) keys l) (row_key (columns df2) keys r)
         = true ->
       key_count out keys (row_key (columns df1) keys l)
         = if Float.leb Float.zero (pair_rate df1 df2 v (l, r)) then 1 else 0) /\
    (forall K,
       key_count df1 keys K = 0 \/ key_count df2 keys K = 0 ->
       key_count out keys K = 0).
Proof.
  intros Hwf1 Hwf2 Hk1 Hk2 Hv1 Hv2 Hvk Hrk Hnd Hn1 Hn2 Hu1 Hu2.
  eexists. split; [|split].
  - apply calculate_rate_joined; assumption.
  - intros l r. apply count_of_matched; assumption.
  - intros K. apply count_of_unmatched; assumption.
Qed.

Lemma inner_join_of_nonnegative_rates_witness :
  exists out,
    calculate_rate older_sample newer_sample ["device"] "value" = Ok out /\
    (forall l r,
       In l (rows older_sample) -> In r (rows newer_sample) ->
       key_eqb (row_key (columns older_sample) ["device"] l)
               (row_key (columns newer_sample) ["device"] r) = true ->
       key_count out ["device"] (row_key (columns older_sample) ["device"] l)
         = if Float.leb Float.zero
                (pair_rate older_sample newer_sample "value" (l, r))
           then 1 else 0) /\
    (forall K,
       key_count older_sample ["device"] K = 0 \/
       key_count newer_sample ["device"] K = 0 ->
       key_count out ["device"] K = 0).
Proof.
  apply (inner_join_of_nonnegative_rates older_sample newer_sample
           ["device"] "value").
  - exact older_sample_wf.
  - exact newer_sample_wf.
  - intros k [<-|[]]. simpl. auto.
  - intros k [<-|[]]. simpl. auto.
  - simpl. auto.
  - simpl. auto.
  - intros [H|[]]. discriminate H.
  - intros [H|[]]. discriminate H.
  - reflexivity.
  - intros r [<-|[<-|[]]]; eexists; reflexivity.
  - intros r [<-|[<-|[]]]; eexists; reflexivity.
  - reflexivity.
  - reflexivity.
Defined.

(** ** The sink *)


Lemma has_column_setcol (df : DataFrame) (c k : string) (values : list cell) :
  has_column (setcol df c values) k = has_column df k || String.eqb k c.
Proof.
  unfold setcol, has_column. destruct (mem c (columns df)) eqn:E; simpl.
  - destruct (String.eqb k c) eqn:Ek; [|rewrite orb_false_r; reflexivity].
    apply String.eqb_eq in Ek. subst k. rewrite E. reflexivity.
  - unfold mem. rewrite existsb_app. simpl. rewrite orb_false_r. reflexivity.
Qed.

Lemma setcol_scalar_rows (df : DataFrame) (c : string) (x : cell) :
  rows (setcol_scalar df c x)
    = map (fun r => put (columns df) c r x) (rows df).
Proof.
  unfold setcol_scalar. rewrite setcol_rows_eq.
  rewrite <- (map_id (rows df)) at 1. rewrite combine_map, map_map.
  reflexivity.
Qed.

Lemma setcol_scalar_wf (df : DataFrame) (c : string) (x : cell) :
  wf df -> wf (setcol_scalar df c x).
Proof.
  intros Hwf row. rewrite setcol_scalar_rows, in_map_iff.
  intros (r & <- & Hr). specialize (Hwf r Hr).
  unfold setcol_scalar, setcol, put, has_column.
  destruct (mem c (columns df)); simpl.
  - rewrite row_set_length. exact Hwf.
  - rewrite !length_app. simpl. lia.
Qed.

Lemma scalar_get_same (df : DataFrame) (c : string) (x : cell) (r : list cell) :
  List.length r = List.length (columns df) ->
  row_get (columns (setcol_scalar df c x)) (put (columns df) c r x) c = x.
Proof. apply put_get_same. Qed.

Lemma scalar_get_other (df : DataFrame) (c : string) (x : cell) (r : list cell)
    (k : string) :
  List.length r = List.length (columns df) ->
  has_column df k = true -> String.eqb c k = false ->
  row_get (columns (setcol_scalar df c x)) (put (columns df) c r x) k
    = row_get (columns df) r k.
Proof. apply put_get_other. Qed.

Lemma has_column_scalar (df : DataFrame) (c k : string) (x : cell) :
  has_column (setcol_scalar df c x) k = has_column df k || String.eqb k c.
Proof. apply has_column_setcol. Qed.

(** Without an instance column every stored row carries the time of the
    insert and the ip 127.0.0.1, and its other columns are those of the
    record set. *)
Lemma insert_without_instance (df : DataFrame) (table : string) (w : World) :
  wf df -> empty df = false -> has_column df "instance" = false ->
  exists stored,
    insert df table w
      = (Ok tt, mkWorld (http w) (clock w) (database w ++ [(table, stored)])
                        (console w ++ [Inserted (List.length (rows df)) table])) /\
    List.length (rows stored) = List.length (rows df) /\
    forall row, In row (rows stored) ->
      row_get (columns stored) row "timestamp" = Stamp (clock w) /\
      row_get (columns stored) row "ip" = Str "127.0.0.1" /\
      exists r, In r (rows df) /\
        forall c, has_column df c = true ->
          String.eqb c "timestamp" = false -> String.eqb c "ip" = false ->
          row_get (columns stored) row c = row_get (columns df) r c.
Proof.
  intros Hwf Hne Hinst.
  set (df1 := setcol_scalar df "timestamp" (Stamp (clock w))).
  set (df2 := setcol_scalar df1 "ip" (Str "127.0.0.1")).
  exists df2.
  assert (Hwf1 : wf df1) by (apply setcol_scalar_wf; exact Hwf).
  assert (Hlen : List.length (rows df2) = List.length (rows df)).
  { unfold df2, df1. rewrite !setcol_scalar_rows, !length_map. reflexivity. }
  split; [|split; [exact Hlen|]].
  - unfold insert. rewrite Hne. unfold bind, now. cbn [negb]. cbv beta iota.
    fold df1.
    assert (H1 : has_column df1 "instance" = false).
    { unfold df1. rewrite has_column_scalar, Hinst. reflexivity. }
    rewrite H1. unfold ret, to_sql, print. simpl. fold df2.
    rewrite Hlen. reflexivity.
  - intros row Hrow. unfold df2 in Hrow. rewrite setcol_scalar_rows in Hrow.
    apply in_map_iff in Hrow. destruct Hrow as (r1 & <- & Hr1).
    pose proof (Hwf1 r1 Hr1) as Hlen1.
    unfold df1 in Hr1. rewrite setcol_scalar_rows in Hr1.
    apply in_map_iff in Hr1. destruct Hr1 as (r & <- & Hr).
    pose proof (Hwf r Hr) as Hlen0.
    unfold df2.
    split; [|split].
    + rewrite scalar_get_other; [| exact Hlen1 | | reflexivity].
      * unfold df1. apply scalar_get_same. exact Hlen0.
      * unfold df1. rewrite has_column_scalar. apply orb_true_r.
    + apply scalar_get_same. exact Hlen1.
    + exists r. split; [exact Hr|]. intros c Hc Ht Hi.
      rewrite scalar_get_other; [| exact Hlen1 | |].
      * unfold df1. apply scalar_get_other; try assumption.
        rewrite String.eqb_sym. exact Ht.
      * unfold df1. rewrite has_column_scalar, Hc. reflexivity.
      * rewrite String.eqb_sym. exact Hi.
Qed.

(** ** Absent families and failing collectors *)

(** A scrape text that has no family of the filesystem gauge. *)
Lemma no_filesystem_family :
  parse_metric filesystem_pattern Cycle.second_scrape "bytes"
    = Ok (mkFrame [] []).
Proof. vm_compute. reflexivity. Qed.

(** [store_disk_free] on a text without any sample of the filesystem
    gauge: [KeyError] for the column volume, nothing stored, nothing
    printed. *)
Lemma store_disk_free_on_empty_frame (text : string) (w : World) :
  parse_metric filesystem_pattern text "bytes" = Ok (mkFrame [] []) ->
  store_disk_free text w = (Raise (KeyError "volume"), w).
Proof.
  intros H. unfold store_disk_free, bind, lift. rewrite H. reflexivity.
Qed.

(** C8, the failing input.  [Cycle.second_scrape] holds no sample of the
    filesystem gauge, the parsed frame is empty, and [store_disk_free]
    raises [KeyError] for the column volume instead of storing nothing
    and reporting it: the world is left as it was, console included. *)
Theorem store_disk_free_raises_on_absent_family :
  parse_metric filesystem_pattern Cycle.second_scrape "bytes"
    = Ok (mkFrame [] []) /\
  store_disk_free Cycle.second_scrape (mkWorld [] 0 [] [])
    = (Raise (KeyError "volume"), mkWorld [] 0 [] []).
Proof. split; vm_compute; reflexivity. Qed.

(** The memory and CPU collectors at an absent family: no record, no
    exception; only the CPU collector reports it. *)
Lemma store_memory_on_absent_family (text : string) (w : World) :
  parse_metric memory_pattern text "bytes" = Ok (mkFrame [] []) ->
  store_memory text w = (Ok tt, w).
Proof.
  intros H. unfold store_memory, bind, lift. rewrite H. reflexivity.
Qed.

Lemma store_cpu_on_absent_family (text1 text2 : string) (w : World) :
  parse_metric cpu_pattern text1 "value" = Ok (mkFrame [] []) ->
  parse_metric cpu_pattern text2 "value" = Ok (mkFrame [] []) ->
  store_cpu text1 text2 w
    = (Ok tt, mkWorld (http w) (clock w) (database w) (console w ++ [NoCpuData])).
Proof.
  intros H1 H2. unfold store_cpu, bind, lift. rewrite H1, H2. reflexivity.
Qed.

Lemma run_all_failure (pre post : list (M unit)) (c : M unit)
    (w w1 w2 : World) (e : exn) :
  run_all pre w = (Ok tt, w1) -> c w1 = (Raise e, w2) ->
  run_all (pre ++ c :: post) w = (Raise e, w2).
Proof.
  revert w. induction pre as [|p pre IH]; simpl; intros w Hpre Hc.
  - inversion Hpre; subst. unfold bind. rewrite Hc. reflexivity.
  - unfold bind in *. destruct (p w) as [[[]|e'] w'].
    + apply IH; assumption.
    + discriminate.
Qed.

Lemma main_runs_collectors (w : World) :
  main w
    = (texts <- scrapes ;;
       run_all (collectors (fst texts) (snd texts)) ;;
       print AllStored) w.
Proof.
  unfold main, scrapes, collectors, run_all, bind, ret.
  destruct (print FetchingFirst w) as [[[]|e] w1]; [|reflexivity].
  destruct (fetch_raw_metrics w1) as [[text1|e] w2]; [|reflexivity].
  destruct (sleep 10 w2) as [[[]|e] w3]; [|reflexivity].
  destruct (print FetchingSecond w3) as [[[]|e] w4]; [|reflexivity].
  destruct (fetch_raw_metrics w4) as [[text2|e] w5]; [|reflexivity].
  simpl fst. simpl snd.
  destruct (store_bandwidth text1 text2 w5) as [[[]|e] w6]; [|reflexivity].
  destruct (store_memory text2 w6) as [[[]|e] w7]; [|reflexivity].
  destruct (store_disk_free text2 w7) as [[[]|e] w8]; [|reflexivity].
  destruct (store_cpu text1 text2 w8) as [[[]|e] w9]; [|reflexivity].
  destruct (store_disk_iops_throughput text1 text2 w9) as [[[]|e] w10];
    reflexivity.
Qed.

(** C2, as amended.  When a collector of the cycle raises, the collectors
    before it in the order of [main] have run and what they stored stays
    stored; the exception ends [main] in the world in which it was
    raised, so no later collector runs. *)
Theorem first_failure_ends_cycle (w w0 w1 w2 : World) (text1 text2 : string)
    (pre post : list (M unit)) (c : M unit) (e : exn) :
  scrapes w = (Ok (text1, text2), w0) ->
  collectors text1 text2 = pre ++ c :: post ->
  run_all pre w0 = (Ok tt, w1) ->
  c w1 = (Raise e, w2) ->
  main w = (Raise e, w2).
Proof.
  intros Hs Hsplit Hpre Hc. rewrite main_runs_collectors.
  unfold bind at 1. rewrite Hs. simpl fst. simpl snd.
  unfold bind. rewrite Hsplit.
  rewrite (run_all_failure pre post c w0 w1 w2 e Hpre Hc). reflexivity.
Qed.

Lemma first_failure_ends_cycle_witness :
  exists w2, main Cycle.world = (Raise (KeyError "volume"), w2).
Proof.
  eexists.
  eapply (first_failure_ends_cycle Cycle.world) with
    (text1 := Cycle.first_scrape) (text2 := Cycle.second_scrape)
    (pre := [store_bandwidth Cycle.first_scrape Cycle.second_scrape;
             store_memory Cycle.second_scrape])
    (c := store_disk_free Cycle.second_scrape)
    (post := [store_cpu Cycle.first_scrape Cycle.second_scrape;
              store_disk_iops_throughput Cycle.first_scrape
                Cycle.second_scrape]).
  - vm_compute. reflexivity.
  - reflexivity.
  - vm_compute. reflexivity.
  - vm_compute. reflexivity.
Defined.

(** C2, counterexample.  On [Cycle.world] the disk-free collector raises;
    the CPU collector, which on its own stores the rates of the two CPU
    samples of the scrapes, has not run when [main] ends. *)
Lemma failure_stops_later_collectors :
  exists w2 w3,
    main Cycle.world = (Raise (KeyError "volume"), w2) /\
    stored "cpu_cstate_rates" w2 = false /\
    store_cpu Cycle.first_scrape Cycle.second_scrape w2 = (Ok tt, w3) /\
    stored "cpu_cstate_rates" w3 = true.
Proof.
  do 2 eexists.
  split; [vm_compute; reflexivity|].
  split; [vm_compute; reflexivity|].
  split; vm_compute; reflexivity.
Qed.

(** The runner stops at the first script that fails. *)
Lemma runner_stops_at_failure (name : string) (script : M unit)
    (rest : list (string * M unit)) (w w' : World) (e : exn) :
  script (mkWorld (http w) (clock w) (database w) (console w ++ [Running name]))
    = (Raise e, w') ->
  Runner.run_scripts ((name, script) :: rest) w
    = (Ok tt, mkWorld (http w') (clock w') (database w')
                      (console w' ++ [Failed name])).
Proof.
  intros H. simpl. unfold bind, print at 1. rewrite H. reflexivity.
Qed.

(** ** CPU utilisation *)

(** C7, the failing input.  At a timestamp whose total rate is zero the
    monthly report computes NaN for the utilisation, and NaN for the
    mean of a month that has no other timestamp, while the per-timestamp
    report, which fills missing values after the division, gives 0. *)
Theorem monthly_utilization_undefined_at_zero_total :
  Monthly.process_cpu_utilization idle_table
    = Ok (mkFrame ["month"; "cpu_util_percent"] [[Str "2026-11"; Num NaN]]) /\
  SheetToLooker.calculate_cpu_utilization_correct idle_table
    = Ok (mkFrame ["timestamp"; "cpu_util_percent"; "numeric"]
                  [[Stamp november; Str "0.0%"; Num (Fin 0)]]).
Proof. split; vm_compute; reflexivity. Qed.

Lemma round_half_even_bounds (x : Q) :
  (0 <= x)%Q -> (x <= 1000)%Q ->
  (0 <= SheetToLooker.round_half_even x <= 1000)%Z.
Proof.
  intros H0 H1. unfold SheetToLooker.round_half_even.
  pose proof (Qfloor_resp_le _ _ H0) as Hf0. change (Qfloor 0) with 0%Z in Hf0.
  pose proof (Qfloor_resp_le _ _ H1) as Hf1.
  change (Qfloor 1000) with 1000%Z in Hf1.
  assert (Hup : ((x - inject_Z (Qfloor x) >= 1 # 2)%Q -> Qfloor x + 1 <= 1000)%Z).
  { intros Hr. destruct (Z.eq_dec (Qfloor x) 1000) as [E|E]; [|lia].
    exfalso. rewrite E in Hr. change (inject_Z 1000) with 1000%Q in Hr. lra. }
  destruct (Qcompare (x - inject_Z (Qfloor x)) (1 # 2)) eqn:E.
  - apply Qeq_alt in E. destruct (Z.even (Qfloor x)); [lia|].
    split; [lia|]. apply Hup. rewrite E. apply Qle_refl.
  - lia.
  - apply Qgt_alt in E. split; [lia|]. apply Hup. apply Qlt_le_weak. exact E.
Qed.

Lemma utilization_bounded (raw : float) :
  exists q, SheetToLooker.fillna0 (SheetToLooker.round1 (Float.clip Float.zero Report.hundred raw)) = Fin q /\
            (0 <= q)%Q /\ (q <= 100)%Q.
Proof.
  destruct raw as [q| | |].
  - unfold Float.clip, Float.ltb, Float.zero, Report.hundred, Float.of_Z.
    destruct (Qle_bool 0 q) eqn:E0; simpl negb; cbv iota.
    + destruct (Qle_bool q (inject_Z 100)) eqn:E1; simpl negb; cbv iota.
      * apply Qle_bool_iff in E0, E1. change (inject_Z 100) with 100%Q in E1.
        unfold SheetToLooker.round1, SheetToLooker.fillna0, Float.is_nan. eexists. split; [reflexivity|].
        assert (Hb : (0 <= SheetToLooker.round_half_even (q * 10) <= 1000)%Z).
        { apply round_half_even_bounds; lra. }
        rewrite Qred_correct.
        destruct Hb as [Hb0 Hb1]. rewrite Zle_Qle in Hb0, Hb1.
        change (inject_Z 0) with 0%Q in Hb0.
        change (inject_Z 1000) with 1000%Q in Hb1.
        generalize dependent (inject_Z (SheetToLooker.round_half_even (q * 10))).
        intros r Hr0 Hr1. unfold Qdiv. change (/ 10)%Q with (1 # 10)%Q.
        split; lra.
      * eexists. split; [vm_compute; reflexivity|]. split; lra.
    + eexists. split; [vm_compute; reflexivity|]. split; lra.
  - eexists. split; [vm_compute; reflexivity|]. split; lra.
  - eexists. split; [vm_compute; reflexivity|]. split; lra.
  - eexists. split; [vm_compute; reflexivity|]. split; lra.
Qed.

(** The per-timestamp report keeps the bound of C7: every utilisation
    that [calculate_cpu_utilization_correct] returns is a number between 0
    and 100. *)
Lemma per_timestamp_utilization_bounded (df out : DataFrame) (row : list cell) :
  SheetToLooker.calculate_cpu_utilization_correct df = Ok out ->
  In row (rows out) ->
  exists q, row_get (columns out) row "numeric" = Num (Fin q) /\
            (0 <= q)%Q /\ (q <= 100)%Q.
Proof.
  unfold SheetToLooker.calculate_cpu_utilization_correct. intros H Hin.
  rbind_inv H.
  destruct (first_missing Report.required (columns a)).
  - inversion H; subst. contradiction.
  - rbind_inv H. destruct a0 as [total idle]. inversion H; subst. clear H.
    simpl in Hin. rewrite map_map in Hin. apply in_map_iff in Hin.
    destruct Hin as ([k t] & <- & _). simpl.
    destruct (utilization_bounded
                match Report.lookup k idle with
                | Some i => Report.utilization i t
                | None => NaN
                end) as (q & -> & Hq).
    exists q. split; [reflexivity | exact Hq].
Qed.

(** ** The exposition parser *)


(** ** The round trip through exposition text *)

Lemma append_empty_r (s : string) : (s ++ "")%string = s.
Proof. induction s as [|c s IH]; simpl; [reflexivity | rewrite IH; reflexivity]. Qed.

Lemma append_assoc_s (a b c : string) :
  ((a ++ b) ++ c)%string = (a ++ (b ++ c))%string.
Proof. induction a as [|x a IH]; simpl; [reflexivity | rewrite IH; reflexivity]. Qed.

Lemma length_append_s (a b : string) :
  String.length (a ++ b) = String.length a + String.length b.
Proof. induction a as [|x a IH]; simpl; [reflexivity | rewrite IH; reflexivity]. Qed.

Lemma all_chars_app (p : ascii -> bool) (a b : string) :
  all_chars p (a ++ b) = all_chars p a && all_chars p b.
Proof.
  induction a as [|x a IH]; simpl; [reflexivity|].
  rewrite IH, andb_assoc. reflexivity.
Qed.

Lemma all_chars_weaken (p q : ascii -> bool) (s : string) :
  (forall c, p c = true -> q c = true) ->
  all_chars p s = true -> all_chars q s = true.
Proof.
  intros H. induction s as [|c s IH]; simpl; [reflexivity|].
  rewrite !andb_true_iff. intros [Hc Hs]. auto.
Qed.

Ltac each_char c :=
  destruct c as [[] [] [] [] [] [] [] []]; vm_compute; congruence.

Lemma word_not_boundary (c : ascii) : is_word c = true -> not_boundary c = true.
Proof. each_char c. Qed.

Lemma word_not_brace (c : ascii) :
  is_word c = true -> negb (is_close_brace c) = true.
Proof. each_char c. Qed.

Lemma value_char_not_boundary (c : ascii) :
  is_value_char c = true -> not_boundary c = true.
Proof. each_char c. Qed.

Lemma plain_not_boundary (c : ascii) : plain c = true -> not_boundary c = true.
Proof. each_char c. Qed.

Lemma plain_not_brace (c : ascii) : plain c = true -> negb (is_close_brace c) = true.
Proof. each_char c. Qed.

Lemma splitlines_line (l rest : string) :
  all_chars not_boundary l = true ->
  splitlines (l ++ String "010"%char rest) = l :: splitlines rest.
Proof.
  induction l as [|c l IH]; simpl; intros H; [reflexivity|].
  apply andb_true_iff in H. destruct H as [Hc Hl].
  unfold not_boundary in Hc. apply negb_true_iff in Hc. rewrite Hc.
  rewrite (IH Hl). reflexivity.
Qed.

Lemma splitlines_single (l : string) :
  all_chars not_boundary l = true -> l <> EmptyString -> splitlines l = [l].
Proof.
  induction l as [|c l IH]; simpl; intros H Hne; [contradiction|].
  apply andb_true_iff in H. destruct H as [Hc Hl].
  unfold not_boundary in Hc. apply negb_true_iff in Hc. rewrite Hc.
  destruct l as [|d l]; [reflexivity|].
  rewrite IH; [reflexivity | exact Hl | discriminate].
Qed.

Lemma splitlines_text_of (lines : list string) :
  (forall l, In l lines -> all_chars not_boundary l = true /\ l <> EmptyString) ->
  splitlines (Exposition.text_of lines) = lines.
Proof.
  unfold Exposition.text_of, Exposition.newline.
  induction lines as [|l lines IH]; intros H; [reflexivity|].
  destruct (H l) as [Hl Hne]; [left; reflexivity|].
  destruct lines as [|l' lines].
  - simpl. apply splitlines_single; assumption.
  - change (String.concat (String "010"%char "") (l :: l' :: lines))
      with (l ++ String "010"%char
                   (String.concat (String "010"%char "") (l' :: lines)))%string.
    rewrite splitlines_line by exact Hl. f_equal.
    apply IH. intros x Hx. apply H. right. exact Hx.
Qed.

Lemma strip_prefix_app (a b : string) : strip_prefix a (a ++ b) = Some b.
Proof.
  induction a as [|c a IH]; simpl; [reflexivity|].
  rewrite Ascii.eqb_refl. exact IH.
Qed.

Lemma span_app (p : ascii -> bool) (a b : string) :
  all_chars p a = true ->
  match b with EmptyString => True | String c _ => p c = false end ->
  span p (a ++ b) = (a, b).
Proof.
  intros Ha Hb. induction a as [|c a IH]; simpl.
  - destruct b as [|d b]; [reflexivity|]. simpl. rewrite Hb. reflexivity.
  - simpl in Ha. apply andb_true_iff in Ha. destruct Ha as [Hc Ha].
    rewrite Hc, (IH Ha). reflexivity.
Qed.

Lemma span_all (p : ascii -> bool) (a : string) :
  all_chars p a = true -> span p a = (a, EmptyString).
Proof.
  intros H. rewrite <- (append_empty_r a) at 1. apply span_app; [exact H | exact I].
Qed.

Lemma match_value_text (g : option string) (text : string) :
  all_chars is_value_char text = true -> text <> EmptyString ->
  match_value g (String " "%char text) = Some (g, text).
Proof.
  intros H Hne. unfold match_value. simpl. rewrite span_all by exact H. simpl.
  destruct text; [contradiction | reflexivity].
Qed.

Lemma label_text_no_brace (value_name : string) (kv : string * string) :
  label_ok value_name kv = true ->
  all_chars (fun c => negb (is_close_brace c)) (Exposition.label_text kv) = true.
Proof.
  unfold label_ok, Exposition.label_text, Exposition.quote.
  rewrite !andb_true_iff. intros [[[_ Hk] _] Hv].
  rewrite !all_chars_app. simpl.
  rewrite (all_chars_weaken _ _ _ word_not_brace Hk).
  rewrite (all_chars_weaken _ _ _ plain_not_brace Hv). reflexivity.
Qed.

Lemma label_text_no_boundary (value_name : string) (kv : string * string) :
  label_ok value_name kv = true ->
  all_chars not_boundary (Exposition.label_text kv) = true.
Proof.
  unfold label_ok, Exposition.label_text, Exposition.quote.
  rewrite !andb_true_iff. intros [[[_ Hk] _] Hv].
  rewrite !all_chars_app. simpl.
  rewrite (all_chars_weaken _ _ _ word_not_boundary Hk).
  rewrite (all_chars_weaken _ _ _ plain_not_boundary Hv). reflexivity.
Qed.

Lemma block_chars (p : ascii -> bool) (ls : list (string * string)) :
  p ","%char = true ->
  (forall kv, In kv ls -> all_chars p (Exposition.label_text kv) = true) ->
  all_chars p (block_of ls) = true.
Proof.
  intros Hcomma. unfold block_of.
  induction ls as [|kv ls IH]; intros H; [reflexivity|].
  destruct ls as [|kv' ls].
  - simpl. apply H. left. reflexivity.
  - change (String.concat "," (map Exposition.label_text (kv :: kv' :: ls)))
      with (Exposition.label_text kv ++ "," ++
            String.concat "," (map Exposition.label_text (kv' :: ls)))%string.
    rewrite !all_chars_app. rewrite (H kv) by (left; reflexivity).
    simpl. rewrite Hcomma. simpl. apply IH. intros x Hx. apply H. right. exact Hx.
Qed.

(** The match of a line that the serializer wrote. *)
Lemma re_match_sample_line (p : pattern) (value_name : string)
    (ls : list (string * string)) (text : string) :
  (forall kv, In kv ls -> label_ok value_name kv = true) ->
  ls <> [] \/ braces_optional p = true ->
  all_chars is_value_char text = true -> text <> EmptyString ->
  re_match p (Exposition.sample_line (metric p) ls text)
    = Some (match ls with [] => None | _ => Some (block_of ls) end, text).
Proof.
  intros Hls Hshape Htext Hne. unfold re_match, Exposition.sample_line.
  destruct ls as [|kv ls].
  - destruct Hshape as [H|H]; [contradiction|].
    rewrite strip_prefix_app, H. simpl. apply match_value_text; assumption.
  - rewrite strip_prefix_app. fold (block_of (kv :: ls)).
    change ("{" ++ block_of (kv :: ls) ++ "} " ++ text)%string
      with (String "{"%char (block_of (kv :: ls) ++ "} " ++ text))%string.
    cbv iota. change (code "{"%char =? 123)%N with true. cbv iota.
    rewrite span_app.
    + apply match_value_text; assumption.
    + apply block_chars; [reflexivity|]. intros x Hx.
      eapply label_text_no_brace. apply Hls. exact Hx.
    + reflexivity.
Qed.

Lemma until_quote_app (v rest : string) :
  all_chars plain v = true ->
  until_quote (v ++ String "034"%char rest) = Some v.
Proof.
  induction v as [|c v IH]; simpl; intros H; [reflexivity|].
  apply andb_true_iff in H. destruct H as [Hc Hv].
  assert (Hq : is_quote c = false) by (revert Hc; each_char c).
  assert (Hl : is_lf c = false) by (revert Hc; each_char c).
  rewrite Hq, Hl, (IH Hv). reflexivity.
Qed.

Lemma word_then_equals (k rest : string) :
  all_chars is_word k = true ->
  span is_word (k ++ String "="%char rest) = (k, String "="%char rest).
Proof. intros H. apply span_app; [exact H | reflexivity]. Qed.

Lemma match_pair_label (value_name : string) (kv : string * string)
    (rest : string) :
  label_ok value_name kv = true ->
  match_pair (Exposition.label_text kv ++ rest)
    = Some (fst kv, snd kv, String.length (Exposition.label_text kv)).
Proof.
  destruct kv as [k v]. unfold label_ok, Exposition.label_text, Exposition.quote.
  simpl fst. simpl snd. rewrite !andb_true_iff. intros [[[Hne Hk] _] Hv].
  unfold match_pair. rewrite !append_assoc_s. simpl append.
  rewrite word_then_equals by exact Hk.
  destruct k as [|c k]; [discriminate|].
  change (code "="%char =? 61)%N with true.
  change (is_quote "034"%char) with true. cbv iota. simpl andb. cbv iota.
  rewrite until_quote_app by exact Hv.
  rewrite !length_append_s. simpl String.length.
  rewrite !length_append_s. simpl String.length.
  f_equal. f_equal. lia.
Qed.

Lemma findall_skip (a b : string) :
  findall_pairs (String.length a) (a ++ b) = findall_pairs 0 b.
Proof. induction a as [|c a IH]; simpl; [reflexivity | exact IH]. Qed.

Lemma findall_label (value_name : string) (kv : string * string) (rest : string) :
  label_ok value_name kv = true ->
  findall_pairs 0 (Exposition.label_text kv ++ rest)
    = kv :: findall_pairs 0 rest.
Proof.
  intros H. pose proof (match_pair_label value_name kv rest H) as Hm.
  destruct (Exposition.label_text kv) as [|c t] eqn:E.
  - exfalso. destruct kv as [k v].
    unfold label_ok in H. simpl in H. rewrite !andb_true_iff in H.
    destruct H as [[[Hne _] _] _]. unfold Exposition.label_text in E.
    destruct k; [discriminate | discriminate E].
  - simpl. simpl in Hm. rewrite Hm. simpl pred.
    rewrite findall_skip. destruct kv; reflexivity.
Qed.

Lemma findall_block (value_name : string) (ls : list (string * string)) :
  (forall kv, In kv ls -> label_ok value_name kv = true) ->
  findall (block_of ls) = ls.
Proof.
  unfold findall, block_of.
  induction ls as [|kv ls IH]; intros H; [reflexivity|].
  destruct ls as [|kv' ls].
  - simpl. rewrite <- (append_empty_r (Exposition.label_text kv)).
    rewrite (findall_label value_name) by (apply H; left; reflexivity).
    reflexivity.
  - change (String.concat "," (map Exposition.label_text (kv :: kv' :: ls)))
      with (Exposition.label_text kv ++ String ","%char
            (String.concat "," (map Exposition.label_text (kv' :: ls))))%string.
    rewrite (findall_label value_name) by (apply H; left; reflexivity).
    f_equal.
    change (findall_pairs 0 (String ","%char ?s)) with (findall_pairs 0 s).
    apply IH. intros x Hx. apply H. right. exact Hx.
Qed.

(** *** The record of a sample *)

Lemma dict_set_fresh (d : dict) (k : string) (v : cell) :
  dict_get d k = None -> dict_set d k v = d ++ [(k, v)].
Proof.
  induction d as [|[k' v'] d IH]; simpl; intros H; [reflexivity|].
  destruct (String.eqb k' k); [discriminate|]. rewrite IH by exact H. reflexivity.
Qed.

Lemma dict_get_app (d e : dict) (k : string) :
  dict_get (d ++ e) k
    = match dict_get d k with Some v => Some v | None => dict_get e k end.
Proof.
  induction d as [|[k' v'] d IH]; simpl; [reflexivity|].
  destruct (String.eqb k' k); [reflexivity | exact IH].
Qed.

Lemma dict_get_entries (ls : list (string * string)) (k : string) :
  dict_get (map entry ls) k = option_map Str (assoc ls k).
Proof.
  induction ls as [|[k' v'] ls IH]; simpl; [reflexivity|].
  destruct (String.eqb k' k); [reflexivity | exact IH].
Qed.

Lemma assoc_none (ls : list (string * string)) (k : string) :
  mem k (map fst ls) = false -> assoc ls k = None.
Proof.
  induction ls as [|[k' v'] ls IH]; simpl; intros H; [reflexivity|].
  unfold mem in H. simpl in H. apply orb_false_iff in H. destruct H as [E H].
  rewrite String.eqb_sym, E. apply IH. exact H.
Qed.

Lemma dict_of_pairs_from (ls : list (string * string)) (acc : dict) :
  nodupb (map fst ls) = true ->
  (forall kv, In kv ls -> dict_get acc (fst kv) = None) ->
  fold_left (fun d kv => dict_set d (fst kv) (Str (snd kv))) ls acc
    = acc ++ map entry ls.
Proof.
  revert acc. induction ls as [|[k v] ls IH]; simpl; intros acc Hnd Hacc.
  - rewrite app_nil_r. reflexivity.
  - apply andb_true_iff in Hnd. destruct Hnd as [Hk Hnd].
    apply negb_true_iff in Hk.
    rewrite dict_set_fresh by (apply (Hacc (k, v)); left; reflexivity).
    rewrite IH; [rewrite <- app_assoc; reflexivity | exact Hnd |].
    intros [k' v'] Hin. simpl. rewrite dict_get_app.
    pose proof (Hacc (k', v') (or_intror Hin)) as Ha. simpl in Ha.
    rewrite Ha. simpl.
    destruct (String.eqb k k') eqn:E; [|reflexivity].
    apply String.eqb_eq in E. subst k'.
    assert (Hm : mem k (map fst ls) = true).
    { apply mem_In. apply in_map_iff. exists (k, v'). split; [reflexivity|exact Hin]. }
    congruence.
Qed.

Lemma dict_of_pairs_entries (ls : list (string * string)) :
  nodupb (map fst ls) = true -> dict_of_pairs ls = map entry ls.
Proof.
  intros H. unfold dict_of_pairs. rewrite dict_of_pairs_from; [reflexivity | exact H|].
  reflexivity.
Qed.

Lemma labels_dict_some (b : string) :
  labels_dict (Some b) = dict_of_pairs (findall b).
Proof. destruct b; reflexivity. Qed.

Lemma sample_ok_labels (value_name : string) (s : sample) :
  sample_ok value_name s = true ->
  (forall kv, In kv (labels s) -> label_ok value_name kv = true) /\
  nodupb (map fst (labels s)) = true /\
  mem value_name (map fst (labels s)) = false.
Proof.
  unfold sample_ok. rewrite andb_true_iff, forallb_forall. intros [Hl Hnd].
  repeat split; try assumption.
  destruct (mem value_name (map fst (labels s))) eqn:E; [|reflexivity].
  apply mem_In in E. apply in_map_iff in E. destruct E as (kv & Hk & Hin).
  specialize (Hl kv Hin). unfold label_ok in Hl. rewrite !andb_true_iff in Hl.
  destruct Hl as [[[_ _] Hne] _]. rewrite Hk, String.eqb_refl in Hne. discriminate.
Qed.

Lemma record_cell (value_name : string) (s : sample) (k : string) :
  sample_ok value_name s = true ->
  cell_of (record_of value_name s) k = sample_cell value_name s k.
Proof.
  intros H. destruct (sample_ok_labels _ _ H) as (_ & _ & Hv).
  unfold cell_of, record_of, sample_cell.
  rewrite dict_get_app, dict_get_entries. simpl.
  rewrite (String.eqb_sym value_name k).
  destruct (String.eqb k value_name) eqn:E.
  - apply String.eqb_eq in E. subst k. rewrite (assoc_none _ _ Hv). reflexivity.
  - destruct (assoc (labels s) k); reflexivity.
Qed.

(** The line of a sample parses to the record of the sample. *)
Lemma parse_sample_line (p : pattern) (value_name : string)
    (fmt : float -> string) (s : sample) :
  sample_ok value_name s = true ->
  labels s <> [] \/ braces_optional p = true ->
  all_chars is_value_char (fmt (value s)) = true ->
  python_float (fmt (value s)) = Some (value s) ->
  parse_line p value_name
    (Exposition.sample_line (metric p) (labels s) (fmt (value s)))
    = Ok (Some (record_of value_name s)).
Proof.
  intros Hok Hshape Hchars Hfloat.
  destruct (sample_ok_labels _ _ Hok) as (Hl & Hnd & Hv).
  unfold parse_line.
  rewrite (re_match_sample_line p value_name); try assumption.
  - rewrite Hfloat. do 2 f_equal. unfold record_of.
    assert (Hd : labels_dict (match labels s with
                              | [] => None
                              | _ => Some (block_of (labels s))
                              end) = map entry (labels s)).
    { destruct (labels s) as [|kv ls] eqn:E; [reflexivity|].
      rewrite labels_dict_some, (findall_block value_name) by exact Hl.
      apply dict_of_pairs_entries. exact Hnd. }
    rewrite Hd. apply dict_set_fresh.
    rewrite dict_get_entries, (assoc_none _ _ Hv). reflexivity.
  - intros E. rewrite E in Hfloat. discriminate Hfloat.
Qed.

(** *** The frame of a list of records *)

Lemma row_get_columns (f : string -> cell) (cols : list string) (k : string) :
  row_get cols (map f cols) k = if mem k cols then f k else nan.
Proof.
  induction cols as [|c cols IH]; simpl; [reflexivity|].
  unfold mem. simpl. rewrite (String.eqb_sym k c).
  destruct (String.eqb c k) eqn:E; simpl.
  - apply String.eqb_eq in E. subst c. reflexivity.
  - exact IH.
Qed.

Lemma add_keys_keeps (d : dict) (cols : list string) (k : string) :
  mem k cols = true -> mem k (add_keys cols d) = true.
Proof.
  unfold add_keys. revert cols.
  induction d as [|[k' v'] d IH]; simpl; intros cols H; [exact H|].
  apply IH. destruct (mem k' cols); [exact H|].
  apply mem_In. apply in_or_app. left. apply mem_In. exact H.
Qed.

Lemma add_keys_adds (d : dict) (cols : list string) (k : string) (c : cell) :
  dict_get d k = Some c -> mem k (add_keys cols d) = true.
Proof.
  unfold add_keys. revert cols.
  induction d as [|[k' v'] d IH]; simpl; intros cols H; [discriminate|].
  destruct (String.eqb k' k) eqn:E.
  - apply String.eqb_eq in E. subst k'. apply (add_keys_keeps d).
    destruct (mem k cols) eqn:Em; [exact Em|].
    apply mem_In. apply in_or_app. right. left. reflexivity.
  - apply IH. exact H.
Qed.

Lemma columns_cover (records : list dict) (cols : list string) (d : dict)
    (k : string) (c : cell) :
  In d records -> dict_get d k = Some c ->
  mem k (fold_left add_keys records cols) = true.
Proof.
  revert cols. induction records as [|d' records IH]; simpl; intros cols Hin Hk;
    [contradiction|].
  destruct Hin as [->|Hin].
  - clear IH. pose proof (add_keys_adds d cols k c Hk) as H.
    revert H. generalize (add_keys cols d). clear.
    induction records as [|d' records IH]; simpl; intros cs H; [exact H|].
    apply IH. apply add_keys_keeps. exact H.
  - apply IH; assumption.
Qed.

Lemma of_records_rows (records : list dict) :
  Forall2 (fun d row => forall k,
             row_get (columns (of_records records)) row k = cell_of d k)
          records (rows (of_records records)).
Proof.
  unfold of_records. simpl.
  set (cols := fold_left add_keys records []).
  assert (H : forall d k c, In d records -> dict_get d k = Some c ->
                            mem k cols = true).
  { intros d k c. apply columns_cover. }
  clearbody cols. induction records as [|d records IH]; simpl; constructor.
  - intros k. rewrite row_get_columns. unfold cell_of.
    destruct (dict_get d k) as [c|] eqn:E.
    + rewrite (H d k c) by (auto; left; reflexivity). reflexivity.
    + destruct (mem k cols); reflexivity.
  - apply IH. intros d' k c Hin. apply (H d' k c). right. exact Hin.
Qed.

(** *** Round trip *)

Lemma sample_line_chars (p : ascii -> bool) (value_name name : string)
    (ls : list (string * string)) (text : string) :
  p "{"%char = true -> p "}"%char = true -> p " "%char = true ->
  p ","%char = true ->
  all_chars p name = true -> all_chars p text = true ->
  (forall kv, In kv ls -> all_chars p (Exposition.label_text kv) = true) ->
  all_chars p (Exposition.sample_line name ls text) = true.
Proof.
  intros Ho Hc Hs Hcomma Hn Ht Hls. unfold Exposition.sample_line.
  destruct ls as [|kv ls].
  - rewrite !all_chars_app, Hn, Ht. simpl. rewrite Hs. reflexivity.
  - fold (block_of (kv :: ls)).
    rewrite !all_chars_app, Hn, Ht, (block_chars p) by assumption.
    simpl. rewrite Ho, Hc, Hs. reflexivity.
Qed.

Lemma sample_line_not_empty (name : string) (ls : list (string * string))
    (text : string) :
  Exposition.sample_line name ls text <> EmptyString.
Proof.
  unfold Exposition.sample_line. destruct ls; destruct name; discriminate.
Qed.

Lemma Forall2_of_map {A B C : Type} (R : B -> C -> Prop) (f : A -> B)
    (l : list A) (l' : list C) :
  Forall2 R (map f l) l' -> Forall2 (fun a c => R (f a) c) l l'.
Proof.
  revert l'. induction l as [|a l IH]; simpl; intros l' H; inversion H; subst;
    constructor; auto.
Qed.

Lemma Forall2_impl_In {A B : Type} (R R' : A -> B -> Prop) (l : list A)
    (l' : list B) :
  (forall a b, In a l -> R a b -> R' a b) -> Forall2 R l l' -> Forall2 R' l l'.
Proof.
  intros H F. induction F as [|a b l l' Hab F IH]; constructor.
  - apply H; [left; reflexivity | exact Hab].
  - apply IH. intros a' b' Hin. apply H. right. exact Hin.
Qed.

Section RoundTrip.

Variables (p : pattern) (value_name : string) (fmt : float -> string).

Lemma parse_sample_lines (samples : list sample) :
  (forall s, In s samples -> serializable p value_name fmt s) ->
  parse_lines p value_name
    (map (fun s => Exposition.sample_line (metric p) (labels s) (fmt (value s)))
         samples)
    = Ok (map (record_of value_name) samples).
Proof.
  induction samples as [|s samples IH]; simpl; intros H; [reflexivity|].
  destruct (H s) as (Hok & Hshape & Hchars & Hfloat); [left; reflexivity|].
  rewrite parse_sample_line by assumption. simpl.
  rewrite IH by (intros; apply H; right; assumption). reflexivity.
Qed.

(** C6, as amended.  For a list of samples whose label names are
    non-empty runs of word characters, distinct within a sample and
    different from the name of the value column, whose label values hold
    no quote, no closing brace and no line boundary, which carry at least
    one label unless the braces of the pattern are optional, and whose
    values are written as texts of value characters that [float] reads
    back, parsing the serialized text returns a frame with one row for
    each sample, in the order of the text: the row holds the value of the
    sample under the value column, the value of each of its labels under
    the name of the label and nothing under any other name. *)
Theorem round_trip (samples : list sample) :
  all_chars not_boundary (metric p) = true ->
  (forall s, In s samples -> serializable p value_name fmt s) ->
  recovers p value_name fmt samples.
Proof.
  intros Hname H. unfold recovers, serialize, parse_metric.
  rewrite splitlines_text_of.
  - rewrite parse_sample_lines by exact H. simpl.
    eexists. split; [reflexivity|].
    pose proof (of_records_rows (map (record_of value_name) samples)) as F.
    apply Forall2_of_map in F.
    eapply Forall2_impl_In; [|exact F].
    intros s row Hs Hrow k. simpl in Hrow. rewrite Hrow.
    apply record_cell. apply (H s Hs).
  - intros l Hl. apply in_map_iff in Hl. destruct Hl as (s & <- & Hs).
    destruct (H s Hs) as (Hok & _ & Hchars & _).
    destruct (sample_ok_labels _ _ Hok) as (Hls & _ & _).
    split; [|apply sample_line_not_empty].
    apply (sample_line_chars not_boundary value_name); try reflexivity.
    + exact Hname.
    + exact (all_chars_weaken _ _ _ value_char_not_boundary Hchars).
    + intros kv Hkv. apply (label_text_no_boundary value_name). auto.
Qed.

End RoundTrip.

Lemma round_trip_witness :
  recovers filesystem_pattern "bytes" format_whole [root_volume; run_volume].
Proof.
  apply round_trip.
  - reflexivity.
  - intros s [<-|[<-|[]]]; unfold serializable;
      (split; [reflexivity|]); (split; [left; discriminate|]);
      split; reflexivity.
Defined.

(** C6, counterexample.  A label value with a closing brace, and without
    any quote: the label block of the pattern ends at that brace, the
    line of the sample does not match and the parsed frame has no row
    for the sample. *)
Lemma brace_in_label_value_is_not_recovered :
  all_chars (fun c => negb (is_quote c)) "/a}b" = true /\
  parse_metric filesystem_pattern
    (serialize format_whole "node_filesystem_free_bytes" [braced_volume])
    "bytes" = Ok (mkFrame [] []) /\
  ~ recovers filesystem_pattern "bytes" format_whole [braced_volume].
Proof.
  split; [reflexivity|]. split; [vm_compute; reflexivity|].
  intros (df & Hdf & F).
  vm_compute in Hdf. inversion Hdf; subst df. inversion F.
Qed.

(** * Further properties of the code *)

(** ** Frames of the parser *)

Lemma dict_get_set_same (d : dict) (k : string) (v : cell) :
  dict_get (dict_set d k v) k = Some v.
Proof.
  induction d as [|[k' v'] d IH]; simpl.
  - rewrite String.eqb_refl. reflexivity.
  - destruct (String.eqb k' k) eqn:E; simpl; rewrite E; [reflexivity | exact IH].
Qed.

Lemma parse_lines_records (p : pattern) (value_name : string)
    (lines : list string) (records : list dict) :
  parse_lines p value_name lines = Ok records ->
  List.length records = List.length (filter (matches p) lines) /\
  forall d, In d records -> exists x, dict_get d value_name = Some (Num x).
Proof.
  revert records. induction lines as [|line lines IH]; simpl; intros records H.
  - inversion H. split; [reflexivity | intros d []].
  - rbind_inv H. rbind_inv H. inversion H; subst. clear H.
    destruct (IH _ Ha0) as [Hlen Hnum].
    unfold parse_line, matches in *.
    destruct (re_match p line) as [[labels_str text]|].
    + destruct (python_float text) as [x|]; [|discriminate].
      inversion Ha; subst. simpl. split; [rewrite Hlen; reflexivity|].
      intros d [<-|Hd]; [|auto]. exists x. apply dict_get_set_same.
    + inversion Ha; subst. split; [exact Hlen | exact Hnum].
Qed.

Lemma nodupb_snoc (cs : list string) (c : string) :
  nodupb cs = true -> mem c cs = false -> nodupb (cs ++ [c]) = true.
Proof.
  induction cs as [|k cs IH]; simpl; intros Hnd Hc; [reflexivity|].
  apply andb_true_iff in Hnd. destruct Hnd as [Hk Hnd].
  unfold mem in Hc. simpl in Hc. apply orb_false_iff in Hc. destruct Hc as [E Hc].
  rewrite IH by assumption. rewrite andb_true_r.
  unfold mem. rewrite existsb_app. simpl. rewrite orb_false_r.
  apply negb_true_iff in Hk. unfold mem in Hk. rewrite Hk.
  rewrite String.eqb_sym, E. reflexivity.
Qed.

Lemma add_keys_nodup (d : dict) (cols : list string) :
  nodupb cols = true -> nodupb (add_keys cols d) = true.
Proof.
  unfold add_keys. revert cols.
  induction d as [|[k v] d IH]; simpl; intros cols H; [exact H|].
  apply IH. destruct (mem k cols) eqn:E; [exact H|].
  apply nodupb_snoc; assumption.
Qed.

Lemma of_records_nodup (records : list dict) :
  nodupb (columns (of_records records)) = true.
Proof.
  unfold of_records. simpl.
  assert (H : nodupb [] = true) by reflexivity. revert H.
  generalize (@nil string). induction records as [|d records IH]; simpl;
    intros cols H; [exact H|].
  apply IH. apply add_keys_nodup. exact H.
Qed.

Lemma of_records_wf (records : list dict) : wf (of_records records).
Proof.
  intros r Hr. unfold of_records in *. simpl in *.
  apply in_map_iff in Hr. destruct Hr as (d & <- & _).
  apply length_map.
Qed.

Lemma of_records_length (records : list dict) :
  List.length (rows (of_records records)) = List.length records.
Proof. unfold of_records. simpl. apply length_map. Qed.

Lemma Forall2_In_r {A B : Type} (R : A -> B -> Prop) (l : list A) (l' : list B)
    (b : B) :
  Forall2 R l l' -> In b l' -> exists a, In a l /\ R a b.
Proof.
  induction 1 as [|a b' l l' Hab F IH]; simpl; intros Hin; [contradiction|].
  destruct Hin as [<-|Hin].
  - exists a. split; [left; reflexivity | exact Hab].
  - destruct (IH Hin) as (a' & Ha' & HR). exists a'. split; [right|]; assumption.
Qed.

Lemma parse_metric_records (p : pattern) (text value_name : string)
    (df : DataFrame) :
  parse_metric p text value_name = Ok df ->
  exists records,
    df = of_records records /\
    List.length records = List.length (filter (matches p) (splitlines text)) /\
    forall d, In d records -> exists x, dict_get d value_name = Some (Num x).
Proof.
  unfold parse_metric. intros H. rbind_inv H. inversion H; subst. clear H.
  exists a. split; [reflexivity|]. apply parse_lines_records. exact Ha.
Qed.

Lemma of_records_has_column (records : list dict) (d : dict) (k : string)
    (c : cell) :
  In d records -> dict_get d k = Some c ->
  has_column (of_records records) k = true.
Proof. intros Hd Hk. unfold has_column, of_records. simpl. eapply columns_cover; eassumption. Qed.

Lemma parse_metric_columns (p : pattern) (text value_name : string)
    (df : DataFrame) :
  parse_metric p text value_name = Ok df ->
  wf df /\ nodupb (columns df) = true /\
  (rows df = [] \/ has_column df value_name = true).
Proof.
  intros H. destruct (parse_metric_records _ _ _ _ H) as (records & -> & Hlen & Hnum).
  split; [apply of_records_wf|]. split; [apply of_records_nodup|].
  destruct records as [|d records]; [left; reflexivity|]. right.
  destruct (Hnum d) as [x Hx]; [left; reflexivity|].
  apply (of_records_has_column _ d value_name (Num x)); [left; reflexivity | exact Hx].
Qed.

(** The frame of [parse_metric]: one row for each line that the pattern
    matches, one cell per column in every row, no column name twice, and,
    whatever labels the lines carry, the value column with a number in
    every row. *)
Theorem parse_metric_frame (p : pattern) (text value_name : string)
    (df : DataFrame) :
  parse_metric p text value_name = Ok df ->
  List.length (rows df) = List.length (filter (matches p) (splitlines text)) /\
  wf df /\ nodupb (columns df) = true /\
  (rows df = [] \/ has_column df value_name = true) /\
  numeric df value_name.
Proof.
  intros H. pose proof (parse_metric_columns _ _ _ _ H) as (Hwf & Hnd & Hcol).
  destruct (parse_metric_records _ _ _ _ H) as (records & -> & Hlen & Hnum).
  split; [rewrite of_records_length; exact Hlen|].
  split; [exact Hwf|]. split; [exact Hnd|]. split; [exact Hcol|].
  - intros r Hr.
    destruct (Forall2_In_r _ _ _ _ (of_records_rows records) Hr) as (d & Hd & Hrow).
    destruct (Hnum d Hd) as [x Hx]. exists x.
    rewrite Hrow. unfold cell_of. rewrite Hx. reflexivity.
Qed.

Lemma parse_metric_frame_witness :
  List.length (rows (mkFrame ["device"; "value"] [[Str "eth0"; Num (Fin 1000)]]))
    = List.length (filter (matches receive_pattern)
                          (splitlines Cycle.first_scrape)) /\
  wf (mkFrame ["device"; "value"] [[Str "eth0"; Num (Fin 1000)]]) /\
  nodupb ["device"; "value"] = true /\
  (rows (mkFrame ["device"; "value"] [[Str "eth0"; Num (Fin 1000)]]) = [] \/
   has_column (mkFrame ["device"; "value"] [[Str "eth0"; Num (Fin 1000)]])
              "value" = true) /\
  numeric (mkFrame ["device"; "value"] [[Str "eth0"; Num (Fin 1000)]]) "value".
Proof.
  apply (parse_metric_frame receive_pattern Cycle.first_scrape "value").
  vm_compute. reflexivity.
Defined.

Lemma filter_nil_iff {A : Type} (f : A -> bool) (l : list A) :
  filter f l = [] <-> forall a, In a l -> f a = false.
Proof.
  split; [|apply filter_none].
  intros H a Ha. destruct (f a) eqn:E; [|reflexivity].
  assert (Hin : In a (filter f l)) by (apply filter_In; auto).
  rewrite H in Hin. contradiction.
Qed.

(** The frame of [parse_metric] is empty exactly when the pattern matches
    no line of the text: an empty frame means that the family is absent. *)
Theorem parse_metric_empty_iff (p : pattern) (text value_name : string)
    (df : DataFrame) :
  parse_metric p text value_name = Ok df ->
  (empty df = true <->
   forall line, In line (splitlines text) -> re_match p line = None).
Proof.
  intros H. destruct (parse_metric_records _ _ _ _ H) as (recs & Hdf & Hlen & Hnum).
  assert (Hm : (forall line, In line (splitlines text) -> re_match p line = None)
               <-> filter (matches p) (splitlines text) = []).
  { rewrite filter_nil_iff. unfold matches.
    split; intros Hall line Hin; specialize (Hall line Hin);
      destruct (re_match p line); congruence. }
  rewrite Hm. rewrite <- length_zero_iff_nil, <- Hlen, length_zero_iff_nil.
  subst df. unfold empty.
  destruct recs as [|d records].
  - split; reflexivity.
  - destruct (Hnum d) as [x Hx]; [left; reflexivity|].
    pose proof (of_records_has_column (d :: records) d value_name (Num x)
                  (or_introl eq_refl) Hx) as Hc.
    unfold has_column in Hc.
    destruct (columns (of_records (d :: records))); [discriminate|].
    simpl. split; discriminate.
Qed.

Lemma parse_metric_empty_iff_witness :
  empty (mkFrame [] []) = true <->
  forall line, In line (splitlines Cycle.first_scrape) ->
    re_match filesystem_pattern line = None.
Proof.
  apply (parse_metric_empty_iff filesystem_pattern Cycle.first_scrape "bytes").
  vm_compute. reflexivity.
Defined.

(** ** What a cycle stores *)

Lemma combine_const {A B : Type} (l : list A) (x : B) :
  combine l (map (fun _ => x) l) = map (fun a => (a, x)) l.
Proof. induction l as [|a l IH]; simpl; [reflexivity | rewrite IH; reflexivity]. Qed.

Lemma setcol_scalar_new (df : DataFrame) (c : string) (x : cell) :
  has_column df c = false ->
  setcol_scalar df c x
    = mkFrame (columns df ++ [c]) (map (fun r => r ++ [x]) (rows df)).
Proof.
  intros H. unfold setcol_scalar, setcol. rewrite H.
  rewrite combine_const, map_map. reflexivity.
Qed.

Lemma mem_app (c : string) (l1 l2 : list string) :
  mem c (l1 ++ l2) = mem c l1 || mem c l2.
Proof. unfold mem. apply existsb_app. Qed.

Lemma insert_fresh_columns (df : DataFrame) (table : string) (w : World) :
  empty df = false ->
  has_column df "instance" = false ->
  has_column df "timestamp" = false ->
  has_column df "ip" = false ->
  insert df table w = (Ok tt, after_insert w table (stamped df (clock w))).
Proof.
  intros Hne Hi Ht Hp. unfold insert. rewrite Hne.
  unfold bind, now. cbn [negb]. cbv beta iota.
  rewrite (setcol_scalar_new df "timestamp") by exact Ht.
  unfold has_column in *. cbn [columns].
  rewrite mem_app, Hi. cbn [mem existsb String.eqb Ascii.eqb Bool.eqb orb].
  unfold ret.
  rewrite setcol_scalar_new
    by (unfold has_column; cbn [columns]; rewrite mem_app, Hp; reflexivity).
  cbn [columns rows]. unfold to_sql, print, after_insert, stamped.
  cbn [http clock database console rows].
  rewrite !map_map, !length_map, <- app_assoc.
  assert (Hrows : map (fun x : list cell =>
                         (x ++ [Stamp (clock w)]) ++ [Str "127.0.0.1"]) (rows df)
                   = map (fun r => r ++ [Stamp (clock w); Str "127.0.0.1"])
                         (rows df)).
  { apply map_ext. intros r. rewrite <- app_assoc. reflexivity. }
  rewrite Hrows. reflexivity.
Qed.

(** [insert] of a frame that is not empty and has none of the columns
    instance, timestamp and ip: the frame is stored under the table with
    the time of the clock and the ip 127.0.0.1 added at the end of every
    row, the number of its rows is printed, and nothing else changes. *)
Theorem insert_stores_stamped (df : DataFrame) (table : string) (w : World) :
  empty df = false ->
  has_column df "instance" = false ->
  has_column df "timestamp" = false ->
  has_column df "ip" = false ->
  insert df table w = (Ok tt, after_insert w table (stamped df (clock w))).
Proof. apply insert_fresh_columns. Qed.

Lemma insert_stores_stamped_witness :
  insert (mkFrame ["metric"; "bytes"] [[Str "MemAvailable"; Num (Fin 7)]])
         "ram_stats" (mkWorld [] 5 [] [])
    = (Ok tt,
       after_insert (mkWorld [] 5 [] []) "ram_stats"
         (stamped (mkFrame ["metric"; "bytes"]
                           [[Str "MemAvailable"; Num (Fin 7)]]) 5)).
Proof.
  apply (insert_stores_stamped
           (mkFrame ["metric"; "bytes"] [[Str "MemAvailable"; Num (Fin 7)]])
           "ram_stats" (mkWorld [] 5 [] [])); reflexivity.
Defined.

Lemma appends_same {A : Type} (m : M A) :
  (forall w r w', m w = (r, w') -> database w' = database w) -> appends m.
Proof.
  intros H w r w' Hm. exists []. rewrite app_nil_r.
  split; [eapply H; eassumption | constructor].
Qed.

Lemma appends_ret {A : Type} (a : A) : appends (ret a).
Proof. apply appends_same. intros w r w' H. inversion H. reflexivity. Qed.

Lemma appends_lift {A : Type} (r : result A) : appends (lift r).
Proof. apply appends_same. intros w r' w' H. inversion H. reflexivity. Qed.

Lemma appends_print (m : message) : appends (print m).
Proof. apply appends_same. intros w r w' H. inversion H. reflexivity. Qed.

Lemma appends_now : appends now.
Proof. apply appends_same. intros w r w' H. inversion H. reflexivity. Qed.

Lemma appends_sleep (seconds : Z) : appends (sleep seconds).
Proof. apply appends_same. intros w r w' H. inversion H. reflexivity. Qed.

Lemma appends_fetch : appends fetch_raw_metrics.
Proof.
  apply appends_same. intros w r w'. unfold fetch_raw_metrics.
  destruct (http w) as [|resp rest]; [intros H; inversion H; reflexivity|].
  destruct (body resp); intros H; inversion H; reflexivity.
Qed.

Lemma appends_to_sql (df : DataFrame) (table : string) :
  In table tables -> appends (to_sql df table).
Proof.
  intros Ht w r w' H. inversion H. exists [(table, df)].
  split; [reflexivity|]. constructor; [exact Ht | constructor].
Qed.

Lemma appends_bind {A B : Type} (m : M A) (k : A -> M B) :
  appends m -> (forall a, appends (k a)) -> appends (bind m k).
Proof.
  intros Hm Hk w r w'. unfold bind.
  destruct (m w) as [[a|e] w1] eqn:E; intros H.
  - destruct (Hm _ _ _ E) as (x & Hx & Fx).
    destruct (Hk a _ _ _ H) as (y & Hy & Fy).
    exists (x ++ y). rewrite Hy, Hx, app_assoc. split; [reflexivity|].
    apply Forall_app. split; assumption.
  - inversion H; subst. exact (Hm _ _ _ E).
Qed.

Ltac appends_step :=
  first
    [ apply appends_bind; [|intros ?]
    | apply appends_ret
    | apply appends_lift
    | apply appends_print
    | apply appends_now
    | apply appends_sleep
    | apply appends_fetch
    | apply appends_to_sql; simpl; tauto
    | match goal with
      | |- appends (if ?b then _ else _) => destruct b
      end ].

Lemma appends_insert (df : DataFrame) (table : string) :
  In table tables -> appends (insert df table).
Proof. intros Ht. unfold insert. repeat appends_step. Qed.

Ltac appends_collector :=
  cbv zeta;
  repeat first [ appends_step | apply appends_insert; simpl; tauto ].

Lemma appends_store_cpu (text1 text2 : string) : appends (store_cpu text1 text2).
Proof. unfold store_cpu. appends_collector. Qed.

Lemma appends_store_memory (text : string) : appends (store_memory text).
Proof. unfold store_memory. appends_collector. Qed.

Lemma appends_store_disk_free (text : string) : appends (store_disk_free text).
Proof. unfold store_disk_free. appends_collector. Qed.

Lemma appends_store_direction (df_old df_new : DataFrame) (mode : string) :
  appends (store_direction df_old df_new mode).
Proof. unfold store_direction. appends_collector. Qed.

Lemma appends_store_bandwidth (text1 text2 : string) :
  appends (store_bandwidth text1 text2).
Proof.
  unfold store_bandwidth.
  repeat first [ apply appends_store_direction | appends_step ].
Qed.

Lemma appends_store_disk_pair (r1 r2 w1 w2 : DataFrame)
    (rname wname rout wout table : string) :
  In table tables ->
  appends (store_disk_pair r1 r2 w1 w2 rname wname rout wout table).
Proof.
  intros Ht. unfold store_disk_pair. cbv zeta.
  repeat first [ appends_step | apply appends_insert; exact Ht ].
Qed.

Lemma appends_store_disk_iops_throughput (text1 text2 : string) :
  appends (store_disk_iops_throughput text1 text2).
Proof.
  unfold store_disk_iops_throughput.
  repeat first [ apply appends_store_disk_pair; simpl; tauto | appends_step ].
Qed.

(** A cycle only adds to the database: whatever [main] does, and whether
    it ends with an exception or not, the frames that were stored before
    are still there, in place, and every frame that it adds goes to one
    of the six tables of the script. *)
Theorem main_only_appends (w w' : World) (r : result unit) :
  main w = (r, w') ->
  exists added,
    database w' = database w ++ added /\
    Forall (fun e : string * DataFrame => In (fst e) tables) added.
Proof.
  revert w r w'. change (appends main). unfold main.
  repeat first
    [ apply appends_store_bandwidth | apply appends_store_memory
    | apply appends_store_disk_free | apply appends_store_cpu
    | apply appends_store_disk_iops_throughput | appends_step ].
Qed.

Lemma main_only_appends_witness :
  exists added,
    database (snd (main Cycle.world)) = database Cycle.world ++ added /\
    Forall (fun e : string * DataFrame => In (fst e) tables) added.
Proof.
  apply (main_only_appends Cycle.world (snd (main Cycle.world))
                           (fst (main Cycle.world))).
  destruct (main Cycle.world); reflexivity.
Defined.

(** A scrape that fails ends the cycle: when the target fails at the
    first or at the second request, [main] raises the HTTP error and the
    database is as it was; no collector has run. *)
Theorem failed_scrape_stores_nothing (w : World) :
  scrape_fails w ->
  exists w', main w = (Raise HTTPError, w') /\ database w' = database w.
Proof.
  unfold scrape_fails, main, bind, print, sleep, fetch_raw_metrics.
  cbn [http clock database console].
  destruct (http w) as [|r1 rest]; [intros _; eexists; split; reflexivity|].
  destruct (body r1) as [text1|].
  - intros [H|H]; [discriminate|].
    destruct rest as [|r2 rest']; [eexists; split; reflexivity|].
    cbn [http clock database console]. rewrite H. eexists. split; reflexivity.
  - intros _. eexists. split; reflexivity.
Qed.

Lemma failed_scrape_stores_nothing_witness :
  exists w',
    main (mkWorld [mkResponse 3 (Some "up 1"); mkResponse 4 None] 0 [] [])
      = (Raise HTTPError, w') /\
    database w' = [].
Proof.
  apply (failed_scrape_stores_nothing
           (mkWorld [mkResponse 3 (Some "up 1"); mkResponse 4 None] 0 [] [])).
  simpl. right. reflexivity.
Defined.

(** ** The collectors at work *)

Lemma parse_metric_empty_frame (p : pattern) (text value_name : string)
    (df : DataFrame) :
  parse_metric p text value_name = Ok df -> empty df = true ->
  df = mkFrame [] [].
Proof.
  intros H He.
  destruct (parse_metric_records _ _ _ _ H) as (records & -> & _ & Hnum).
  destruct records as [|d records]; [reflexivity|]. exfalso.
  destruct (Hnum d) as [x Hx]; [left; reflexivity|].
  pose proof (of_records_has_column (d :: records) d value_name (Num x)
                (or_introl eq_refl) Hx) as Hc.
  unfold has_column in Hc. unfold empty in He.
  destruct (columns (of_records (d :: records))); [discriminate|].
  simpl in He. discriminate.
Qed.

Lemma first_missing_instance (cols : list string) :
  mem "instance" cols = true ->
  first_missing ["instance"; "device"] cols = None \/
  first_missing ["instance"; "device"] cols = Some "device".
Proof.
  intros H. simpl. rewrite H. destruct (mem "device" cols); auto.
Qed.

Lemma default_instance_has (df : DataFrame) :
  has_column (default_instance df) "instance" = true.
Proof.
  unfold default_instance. destruct (has_column df "instance") eqn:E; [exact E|].
  unfold setcol_scalar. rewrite has_column_setcol. apply orb_true_r.
Qed.

Lemma calculate_rate_without_device (df1 df2 : DataFrame) :
  empty df1 = true \/ empty df2 = true ->
  df1 = mkFrame [] [] \/ empty df1 = false ->
  df2 = mkFrame [] [] \/ empty df2 = false ->
  calculate_rate (default_instance df1) (default_instance df2)
                 ["instance"; "device"] "value"
    = Raise (KeyError "device").
Proof.
  intros He H1 H2. unfold calculate_rate, merge.
  assert (Hleft : df1 = mkFrame [] [] \/
                  first_missing ["instance"; "device"]
                    (columns (default_instance df1)) = None \/
                  first_missing ["instance"; "device"]
                    (columns (default_instance df1)) = Some "device").
  { destruct H1 as [->|_]; [left; reflexivity|]. right.
    apply first_missing_instance. apply default_instance_has. }
  destruct Hleft as [->|[Hl|Hl]].
  - reflexivity.
  - rewrite Hl. destruct He as [He|He].
    + destruct H1 as [->|H1]; [discriminate Hl | congruence].
    + destruct H2 as [->|H2]; [reflexivity | congruence].
  - rewrite Hl. reflexivity.
Qed.

(** The bandwidth collector at an absent family: when one of the two
    receive snapshots has no sample, the join on the device raises
    [KeyError] for the column device; nothing is stored or printed. *)
Theorem store_bandwidth_raises_without_receive_samples
    (text1 text2 : string) (rx1 rx2 tx1 tx2 : DataFrame) (w : World) :
  parse_metric receive_pattern text1 "value" = Ok rx1 ->
  parse_metric receive_pattern text2 "value" = Ok rx2 ->
  parse_metric transmit_pattern text1 "value" = Ok tx1 ->
  parse_metric transmit_pattern text2 "value" = Ok tx2 ->
  empty rx1 = true \/ empty rx2 = true ->
  store_bandwidth text1 text2 w = (Raise (KeyError "device"), w).
Proof.
  intros H1 H2 H3 H4 He.
  unfold store_bandwidth, bind, lift. rewrite H1, H2, H3, H4.
  unfold store_direction, bind, lift. cbv zeta.
  rewrite calculate_rate_without_device; [reflexivity | exact He | |].
  - destruct (empty rx1) eqn:E; [left | right; reflexivity].
    eapply parse_metric_empty_frame; eassumption.
  - destruct (empty rx2) eqn:E; [left | right; reflexivity].
    eapply parse_metric_empty_frame; eassumption.
Qed.

Lemma store_bandwidth_raises_without_receive_samples_witness :
  store_bandwidth "" Cycle.second_scrape (mkWorld [] 0 [] [])
    = (Raise (KeyError "device"), mkWorld [] 0 [] []).
Proof.
  eapply (store_bandwidth_raises_without_receive_samples "" Cycle.second_scrape).
  - vm_compute. reflexivity.
  - vm_compute. reflexivity.
  - vm_compute. reflexivity.
  - vm_compute. reflexivity.
  - left. reflexivity.
Defined.

Lemma select_ok (df : DataFrame) (cs : list string) :
  (forall c, In c cs -> has_column df c = true) ->
  select df cs
    = Ok (mkFrame cs (map (fun r => map (row_get (columns df) r) cs) (rows df))).
Proof.
  intros H. unfold select.
  assert (Hm : first_missing cs (columns df) = None)
    by (apply first_missing_none; exact H).
  rewrite Hm. reflexivity.
Qed.

Lemma empty_false_rows (df : DataFrame) : empty df = false -> rows df <> [].
Proof.
  unfold empty. destruct (columns df), (rows df); congruence.
Qed.

Lemma empty_of_rows (cs : list string) (c : string) (rows : list (list cell)) :
  rows <> [] -> empty (mkFrame (c :: cs) rows) = false.
Proof. destruct rows; [contradiction | reflexivity]. Qed.

(** The memory collector: for a text whose parse succeeds with samples of
    the gauge it stores, in ram_stats, one row for each sample with the
    metric MemAvailable, the bytes of the sample, the time of the clock
    and the ip 127.0.0.1; the value is taken as it is, no rate is
    computed. *)
Theorem store_memory_stores_gauge (text : string) (df : DataFrame) (w : World) :
  parse_metric memory_pattern text "bytes" = Ok df ->
  empty df = false ->
  store_memory text w
    = (Ok tt,
       after_insert w "ram_stats"
         (stamped
            (mkFrame ["metric"; "bytes"]
               (map (fun r => [Str "MemAvailable";
                               row_get (columns df) r "bytes"]) (rows df)))
            (clock w))).
Proof.
  intros H Hne.
  destruct (parse_metric_columns _ _ _ _ H) as (Hwf & _ & Hcol).
  destruct Hcol as [Hcol|Hcol]; [destruct (empty_false_rows _ Hne Hcol)|].
  unfold store_memory, bind, lift. rewrite H, Hne. cbn [negb]. cbv zeta.
  rewrite select_ok.
  - rewrite setcol_scalar_rows, map_map.
    assert (Hrows :
      map (fun r => map (row_get (columns (setcol_scalar df "metric"
                                             (Str "MemAvailable")))
                                 (put (columns df) "metric" r (Str "MemAvailable")))
                        ["metric"; "bytes"]) (rows df)
      = map (fun r => [Str "MemAvailable"; row_get (columns df) r "bytes"])
            (rows df)).
    { apply map_ext_in. intros r Hr. cbn [map].
      rewrite scalar_get_same by (apply Hwf; exact Hr).
      rewrite scalar_get_other; [reflexivity | apply Hwf; exact Hr | exact Hcol |].
      reflexivity. }
    rewrite Hrows.
    rewrite insert_fresh_columns; try reflexivity.
    apply empty_of_rows. intros E. apply map_eq_nil in E.
    exact (empty_false_rows _ Hne E).
  - intros c [<-|[<-|[]]]; rewrite has_column_scalar.
    + apply orb_true_r.
    + rewrite Hcol. reflexivity.
Qed.

Lemma store_memory_stores_gauge_witness :
  store_memory "node_memory_MemAvailable_bytes 1e9" (mkWorld [] 5 [] [])
    = (Ok tt,
       after_insert (mkWorld [] 5 [] []) "ram_stats"
         (stamped
            (mkFrame ["metric"; "bytes"]
               (map (fun r => [Str "MemAvailable";
                               row_get ["bytes"] r "bytes"])
                    [[Num (Fin 1000000000)]]))
            5)).
Proof.
  apply (store_memory_stores_gauge "node_memory_MemAvailable_bytes 1e9"
           (mkFrame ["bytes"] [[Num (Fin 1000000000)]]) (mkWorld [] 5 [] [])).
  - vm_compute. reflexivity.
  - reflexivity.
Defined.

Lemma nodupb_map_inj (f : string -> string) (cols : list string) :
  (forall a b, In a cols -> In b cols -> f a = f b -> a = b) ->
  nodupb cols = true -> nodupb (map f cols) = true.
Proof.
  induction cols as [|c cols IH]; simpl; intros Hinj Hnd; [reflexivity|].
  apply andb_true_iff in Hnd. destruct Hnd as [Hc Hnd].
  rewrite IH; [|intros a b Ha Hb; apply Hinj; right; assumption | exact Hnd].
  rewrite andb_true_r. apply negb_true_iff. apply negb_true_iff in Hc.
  destruct (mem (f c) (map f cols)) eqn:E; [|reflexivity].
  apply mem_In in E. apply in_map_iff in E. destruct E as (b & Hfb & Hb).
  assert (b = c) by (apply Hinj; [right; exact Hb | left; reflexivity | exact Hfb]).
  subst b. apply mem_In in Hb. congruence.
Qed.

Lemma combine_self_map {A B : Type} (h : A -> B) (l : list A) :
  combine l (map h l) = map (fun a => (a, h a)) l.
Proof. induction l as [|a l IH]; simpl; [reflexivity | rewrite IH; reflexivity]. Qed.

(** The renaming of [store_disk_free]. *)
Lemma rename_mountpoint (df : DataFrame) :
  nodupb (columns df) = true ->
  has_column df "volume" = false ->
  exists f : string -> string,
    columns (rename df [("mountpoint", "volume")]) = map f (columns df) /\
    f "mountpoint" = "volume" /\ f "bytes" = "bytes" /\
    nodupb (map f (columns df)) = true.
Proof.
  intros Hnd Hv.
  exists (fun c => match assoc [("mountpoint", "volume")] c with
                   | Some c' => c'
                   | None => c
                   end).
  split; [reflexivity|]. split; [reflexivity|]. split; [reflexivity|].
  apply nodupb_map_inj; [|exact Hnd].
  intros a b Ha Hb. cbn [assoc].
  destruct (String.eqb "mountpoint" a) eqn:Ea, (String.eqb "mountpoint" b) eqn:Eb;
    cbv iota; intros E.
  - apply String.eqb_eq in Ea, Eb. congruence.
  - subst b. apply mem_In in Hb. unfold has_column in Hv. congruence.
  - subst a. apply mem_In in Ha. unfold has_column in Hv. congruence.
  - exact E.
Qed.

(** The disk-free collector: for a text whose samples of the filesystem
    gauge carry the label mountpoint (and no label volume) it stores, in
    disk_free_space, one row for each sample with the volume, which is the
    mountpoint passed through the lookup table, the bytes of the sample,
    the time of the clock and the ip 127.0.0.1. *)
Theorem store_disk_free_stores_volumes (text : string) (df : DataFrame)
    (w : World) :
  parse_metric filesystem_pattern text "bytes" = Ok df ->
  empty df = false ->
  has_column df "mountpoint" = true ->
  has_column df "volume" = false ->
  store_disk_free text w
    = (Ok tt,
       after_insert w "disk_free_space"
         (stamped
            (mkFrame ["volume"; "bytes"]
               (map (fun r => [remap mountpoint_table
                                     (row_get (columns df) r "mountpoint");
                               row_get (columns df) r "bytes"]) (rows df)))
            (clock w))).
Proof.
  intros H Hne Hmp Hvol.
  destruct (parse_metric_columns _ _ _ _ H) as (Hwf & Hnd & Hcol).
  destruct Hcol as [Hcol|Hcol]; [destruct (empty_false_rows _ Hne Hcol)|].
  destruct (rename_mountpoint df Hnd Hvol) as (f & Hcols & Hfm & Hfb & Hfnd).
  unfold store_disk_free, bind, lift. rewrite H, Hmp.
  set (df' := rename df [("mountpoint", "volume")]) in *.
  assert (Hrows' : rows df' = rows df) by reflexivity.
  assert (Hwf' : wf df').
  { intros r Hr. rewrite Hcols, length_map. apply Hwf. exact Hr. }
  assert (Hv' : has_column df' "volume" = true).
  { unfold has_column. rewrite Hcols, <- Hfm. apply mem_map. exact Hmp. }
  assert (Hb' : has_column df' "bytes" = true).
  { unfold has_column. rewrite Hcols, <- Hfb. apply mem_map. exact Hcol. }
  assert (Hgv : forall r, row_get (columns df') r "volume"
                          = row_get (columns df) r "mountpoint").
  { intros r. rewrite Hcols, <- Hfm. apply row_get_map; assumption. }
  assert (Hgb : forall r, row_get (columns df') r "bytes"
                          = row_get (columns df) r "bytes").
  { intros r. rewrite Hcols, <- Hfb at 1. apply row_get_map; assumption. }
  unfold remap_column, getcol. rewrite Hv'. cbn [rbind].
  rewrite fillna_series_map, map_map.
  set (vals := map (fun r => remap mountpoint_table
                               (row_get (columns df') r "volume")) (rows df')).
  rewrite select_ok.
  - rewrite setcol_rows_eq. unfold vals. rewrite combine_self_map, !map_map.
    cbn [fst snd map]. rewrite Hrows'.
    assert (Hrows :
      map (fun r =>
             [row_get (columns (setcol df' "volume" vals))
                (put (columns df') "volume" r
                     (remap mountpoint_table (row_get (columns df') r "volume")))
                "volume";
              row_get (columns (setcol df' "volume" vals))
                (put (columns df') "volume" r
                     (remap mountpoint_table (row_get (columns df') r "volume")))
                "bytes"]) (rows df)
      = map (fun r => [remap mountpoint_table (row_get (columns df) r "mountpoint");
                       row_get (columns df) r "bytes"]) (rows df)).
    { apply map_ext_in. intros r Hr.
      rewrite put_get_same by (apply Hwf'; exact Hr).
      rewrite put_get_other; [| apply Hwf'; exact Hr | exact Hb' | reflexivity].
      rewrite Hgv, Hgb. reflexivity. }
    match goal with
    | |- insert (mkFrame _ ?R) _ _ = _ =>
        replace R
          with (map (fun r => [remap mountpoint_table
                                     (row_get (columns df) r "mountpoint");
                               row_get (columns df) r "bytes"]) (rows df))
          by (symmetry; exact Hrows)
    end.
    rewrite insert_fresh_columns; try reflexivity.
    apply empty_of_rows. intros E. apply map_eq_nil in E.
    exact (empty_false_rows _ Hne E).
  - intros c [<-|[<-|[]]]; rewrite has_column_setcol.
    + apply orb_true_r.
    + rewrite Hb'. reflexivity.
Qed.

Lemma store_disk_free_stores_volumes_witness :
  store_disk_free
    (Exposition.sample_line "node_filesystem_free_bytes"
       [("mountpoint", "/")] "5000000000")
    (mkWorld [] 5 [] [])
    = (Ok tt,
       after_insert (mkWorld [] 5 [] []) "disk_free_space"
         (stamped
            (mkFrame ["volume"; "bytes"]
               (map (fun r => [remap mountpoint_table
                                     (row_get ["mountpoint"; "bytes"] r "mountpoint");
                               row_get ["mountpoint"; "bytes"] r "bytes"])
                    [[Str "/"; Num (Fin 5000000000)]]))
            5)).
Proof.
  apply (store_disk_free_stores_volumes _
           (mkFrame ["mountpoint"; "bytes"] [[Str "/"; Num (Fin 5000000000)]])
           (mkWorld [] 5 [] [])).
  - vm_compute. reflexivity.
  - reflexivity.
  - reflexivity.
  - reflexivity.
Defined.

(** ** The runner *)

(** The runner stops at the first script that fails: when the scripts
    before it have succeeded, the run ends with the report of the
    failure in the world that the failed script left, and no script
    after it runs. *)
Theorem runner_stops_at_first_failure (pre post : list (string * M unit))
    (name : string) (script : M unit) (w w1 w2 : World) (e : exn) :
  all_succeed pre w = Some w1 ->
  script (say (Running name) w1) = (Raise e, w2) ->
  Runner.run_scripts (pre ++ (name, script) :: post) w
    = (Ok tt, say (Failed name) w2).
Proof.
  revert w. induction pre as [|[n s] pre IH]; simpl; intros w Hpre Hs.
  - inversion Hpre; subst. unfold bind, print at 1. fold (say (Running name) w1).
    rewrite Hs. reflexivity.
  - unfold bind, print at 1. fold (say (Running n) w).
    destruct (s (say (Running n) w)) as [[[]|e'] w'] eqn:E; [|discriminate].
    unfold print. fold (say (Succeeded n) w'). apply IH; assumption.
Qed.

Lemma runner_stops_at_first_failure_witness :
  Runner.run_scripts
    ([("write_into_db.py", print AllStored)] ++
     ("sheet_to_looker.py", lift (Raise ValueError)) ::
     [("monthly.py", print NoCpuData)])
    (mkWorld [] 0 [] [])
  = (Ok tt,
     say (Failed "sheet_to_looker.py")
       (say (Running "sheet_to_looker.py")
          (mkWorld [] 0 []
             [Running "write_into_db.py"; AllStored;
              Succeeded "write_into_db.py"]))).
Proof.
  eapply (runner_stops_at_first_failure
            [("write_into_db.py", print AllStored)]
            [("monthly.py", print NoCpuData)]
            "sheet_to_looker.py" (lift (Raise ValueError))).
  - reflexivity.
  - reflexivity.
Defined.



(** ** Shape of the rates *)

Lemma setcol_wf (df : DataFrame) (c : string) (values : list cell) :
  wf df -> wf (setcol df c values).
Proof.
  intros Hwf row. rewrite setcol_rows_eq, in_map_iff.
  intros ([r v] & <- & Hin). apply in_combine_l in Hin.
  specialize (Hwf r Hin). simpl.
  unfold setcol, put, has_column. destruct (mem c (columns df)); simpl.
  - rewrite row_set_length. exact Hwf.
  - rewrite !length_app. simpl. lia.
Qed.

Lemma filter_rows_wf (df : DataFrame) (mask : list bool) :
  wf df -> wf (filter_rows df mask).
Proof.
  intros Hwf row Hrow. apply filter_rows_In in Hrow.
  apply in_combine_l in Hrow. exact (Hwf row Hrow).
Qed.

Lemma flat_map_length_le {A B : Type} (f : A -> list B) (l : list A) (n : nat) :
  (forall a, List.length (f a) <= n) ->
  List.length (flat_map f l) <= List.length l * n.
Proof.
  intros H. induction l as [|a l IH]; simpl; [lia|].
  rewrite length_app. specialize (H a). lia.
Qed.

Lemma matching_pairs_length (left right : DataFrame) (keys : list string) :
  List.length (matching_pairs left right keys)
    <= List.length (rows left) * List.length (rows right).
Proof.
  unfold matching_pairs. apply flat_map_length_le. intros l.
  rewrite length_map. apply filter_length_le.
Qed.

(** The frame of rates is well formed when the snapshots are: every row
    has one cell per column, the join keys and the three value columns
    (older, newer, rate) are among the columns, and there are no more
    rows than pairs of an older and a newer row. *)
Theorem calculate_rate_shape (df1 df2 : DataFrame) (keys : list string)
    (v : string) (out : DataFrame) :
  wf df1 -> wf df2 ->
  calculate_rate df1 df2 keys v = Ok out ->
  wf out /\
  (forall k, In k keys -> has_column out k = true) /\
  has_column out (v ++ "_old") = true /\
  has_column out (v ++ "_new") = true /\
  has_column out (v ++ "_rate") = true /\
  List.length (rows out) <= List.length (rows df1) * List.length (rows df2).
Proof.
  intros Hwf1 Hwf2 H. apply calculate_rate_ok in H.
  destruct H as (merged & rate & mask & Hm & Hnew & Hold & _ & _ & ->).
  pose proof (merge_wf _ _ _ _ _ _ Hwf1 Hwf2 Hm) as Hwfm.
  apply merge_ok in Hm. destruct Hm as (Hk1 & _ & Hmerged).
  unfold filter_rows at 2 3 4 5. cbn [columns].
  fold (has_column (setcol merged (v ++ "_rate") rate)).
  split; [apply filter_rows_wf, setcol_wf; exact Hwfm|].
  split; [|split; [|split; [|split]]].
  - intros k Hk. unfold has_column. cbn [columns]. fold (has_column (setcol merged (v ++ "_rate") rate) k).
    rewrite has_column_setcol. apply orb_true_iff. left.
    rewrite Hmerged. unfold has_column, joined_columns. cbn [columns].
    rewrite mem_app. apply orb_true_iff. left.
    rewrite <- (suffixed_key keys (columns df2) "_old" k Hk).
    apply mem_map. rewrite first_missing_none in Hk1. apply Hk1. exact Hk.
  - unfold has_column. cbn [columns]. fold (has_column (setcol merged (v ++ "_rate") rate) (v ++ "_old")).
    rewrite has_column_setcol, Hold. reflexivity.
  - unfold has_column. cbn [columns]. fold (has_column (setcol merged (v ++ "_rate") rate) (v ++ "_new")).
    rewrite has_column_setcol, Hnew. reflexivity.
  - unfold has_column. cbn [columns]. fold (has_column (setcol merged (v ++ "_rate") rate) (v ++ "_rate")).
    rewrite has_column_setcol, String.eqb_refl. apply orb_true_r.
  - unfold filter_rows. cbn [rows]. rewrite length_map.
    eapply Nat.le_trans; [apply filter_length_le|].
    rewrite length_combine. rewrite setcol_rows_eq, length_map, length_combine.
    rewrite Hmerged. cbn [rows]. rewrite length_map.
    pose proof (matching_pairs_length df1 df2 keys). lia.
Qed.

Lemma calculate_rate_shape_witness :
  wf sample_rates /\
  (forall k, In k ["device"] -> has_column sample_rates k = true) /\
  has_column sample_rates "value_old" = true /\
  has_column sample_rates "value_new" = true /\
  has_column sample_rates "value_rate" = true /\
  List.length (rows sample_rates)
    <= List.length (rows older_sample) * List.length (rows newer_sample).
Proof.
  apply (calculate_rate_shape older_sample newer_sample ["device"] "value").
  - exact older_sample_wf.
  - exact newer_sample_wf.
  - exact sample_rates_eq.
Defined.

(** ** Utilisation values *)

Lemma clip_percentage (raw : float) :
  Float.clip Float.zero Report.hundred raw = NaN \/
  percentage (Float.clip Float.zero Report.hundred raw).
Proof.
  unfold percentage.
  destruct raw as [q| | |].
  - unfold Float.clip, Float.ltb, Float.zero, Report.hundred, Float.of_Z.
    destruct (Qle_bool 0 q) eqn:E0; cbn [negb]; cbv iota.
    + destruct (Qle_bool q (inject_Z 100)) eqn:E1; cbn [negb]; cbv iota.
      * apply Qle_bool_iff in E0, E1. right. exists q. auto.
      * right. eexists. split; [reflexivity|]. split; [|apply Qle_refl].
        change (inject_Z 100) with 100%Q. lra.
    + right. eexists. split; [reflexivity|]. split; [apply Qle_refl | lra].
  - right. exists 100%Q. split; [reflexivity|]. split; lra.
  - right. exists 0%Q. split; [reflexivity|]. split; lra.
  - left. reflexivity.
Qed.

Lemma group_sum_percentages (vs : list cell) :
  (forall c, In c vs -> exists x, c = Num x /\ percentage x) ->
  exists s, Report.group_sum vs = Ok (Fin s) /\
            (0 <= s)%Q /\ (s <= 100 * inject_Z (Z.of_nat (List.length vs)))%Q.
Proof.
  induction vs as [|c vs IH]; intros H.
  - exists 0%Q. split; [reflexivity|]. split; [apply Qle_refl|].
    cbn [List.length Z.of_nat]. change (inject_Z 0) with 0%Q. lra.
  - destruct (H c) as (x & -> & q & -> & Hq0 & Hq1); [left; reflexivity|].
    destruct IH as (s & Hs & Hs0 & Hs1); [intros c Hc; apply H; right; exact Hc|].
    exists (Qred (q + s)). cbn [Report.group_sum as_float rbind]. rewrite Hs.
    cbn [rbind Float.add]. split; [reflexivity|].
    rewrite Qred_correct. split; [lra|].
    cbn [List.length]. rewrite Nat2Z.inj_succ. unfold Z.succ.
    rewrite inject_Z_plus. change (inject_Z 1) with 1%Q. lra.
Qed.

Lemma group_mean_percentages (vs : list cell) (m : float) :
  (forall c, In c vs -> exists x, c = Num x /\ (x = NaN \/ percentage x)) ->
  Report.group_mean vs = Ok m -> m = NaN \/ percentage m.
Proof.
  intros H. unfold Report.group_mean.
  set (present := filter Report.notnull vs).
  assert (Hp : forall c, In c present -> exists x, c = Num x /\ percentage x).
  { intros c Hc. apply filter_In in Hc. destruct Hc as [Hc Hn].
    destruct (H c Hc) as (x & -> & [->|Hx]); [discriminate Hn|]. eauto. }
  destruct (group_sum_percentages present Hp) as (s & Hs & Hs0 & Hs1).
  rewrite Hs. cbn [rbind]. intros Hm. inversion Hm; subst m. clear Hm.
  unfold Float.div, Float.of_Z.
  destruct (Qeq_bool (inject_Z (Z.of_nat (List.length present))) 0) eqn:E.
  - apply Qeq_bool_iff in E. rewrite E in Hs1.
    assert (Hz : (s == 0)%Q) by lra.
    left. unfold Float.sgn, Float.inf_of_sign.
    assert (Hn : Qnum s = 0%Z).
    { unfold Qeq in Hz. simpl in Hz. lia. }
    rewrite Hn. reflexivity.
  - right. exists (Qred (s / inject_Z (Z.of_nat (List.length present)))).
    split; [reflexivity|].
    assert (Hpos : (0 < inject_Z (Z.of_nat (List.length present)))%Q).
    { assert (Hge : (0 <= inject_Z (Z.of_nat (List.length present)))%Q).
      { change 0%Q with (inject_Z 0). rewrite <- Zle_Qle. lia. }
      apply Qle_lteq in Hge. destruct Hge as [Hlt|Heq]; [exact Hlt|].
      symmetry in Heq. apply Qeq_bool_iff in Heq. congruence. }
    split.
    + rewrite Qred_correct. apply Qle_shift_div_l; [exact Hpos | lra].
    + rewrite Qred_correct. apply Qle_shift_div_r; [exact Hpos | lra].
Qed.

Lemma add_to_group_values (k v : cell) (groups : list (cell * list cell))
    (P : cell -> Prop) :
  P v -> (forall g c, In g groups -> In c (snd g) -> P c) ->
  forall g c, In g (Report.add_to_group k v groups) -> In c (snd g) -> P c.
Proof.
  intros Hv. induction groups as [|[k' vs] groups IH]; simpl; intros H g c Hg Hc.
  - destruct Hg as [<-|[]]. simpl in Hc. destruct Hc as [<-|[]]. exact Hv.
  - destruct (cell_eqb k' k).
    + destruct Hg as [<-|Hg].
      * simpl in Hc. apply in_app_or in Hc. destruct Hc as [Hc|[<-|[]]].
        -- apply (H (k', vs) c); [left; reflexivity | exact Hc].
        -- exact Hv.
      * apply (H g c); [right; exact Hg | exact Hc].
    + destruct (Report.cell_leb k k').
      * destruct Hg as [<-|Hg].
        -- simpl in Hc. destruct Hc as [<-|[]]. exact Hv.
        -- apply (H g c); assumption.
      * destruct Hg as [<-|Hg].
        -- apply (H (k', vs) c); [left; reflexivity | exact Hc].
        -- apply (IH (fun g c Hg Hc => H g c (or_intror Hg) Hc) g c Hg Hc).
Qed.

Lemma groupby_values (keys values : list cell) (P : cell -> Prop) :
  (forall c, In c values -> P c) ->
  forall g c, In g (Report.groupby keys values) -> In c (snd g) -> P c.
Proof.
  intros H. unfold Report.groupby.
  assert (Hacc : forall g c, In g (@nil (cell * list cell)) -> In c (snd g) -> P c)
    by (intros g c []).
  assert (Hkv : forall kv, In kv (combine keys values) -> P (snd kv)).
  { intros [k v] Hin. apply in_combine_r in Hin. apply H. exact Hin. }
  revert Hacc Hkv. generalize (@nil (cell * list cell)).
  induction (combine keys values) as [|[k v] kvs IH]; simpl; intros acc Hacc Hkv.
  - exact Hacc.
  - apply IH.
    + destruct (Report.notnull k); [|exact Hacc].
      apply add_to_group_values; [apply (Hkv (k, v)); left; reflexivity | exact Hacc].
    + intros kv Hin. apply Hkv. right. exact Hin.
Qed.

(** The monthly report never leaves the range: every utilisation of a
    month that [process_cpu_utilization] returns is NaN or a number
    between 0 and 100. *)
Theorem monthly_utilization_nan_or_bounded (df out : DataFrame)
    (row : list cell) :
  Monthly.process_cpu_utilization df = Ok out ->
  In row (rows out) ->
  exists x, row_get (columns out) row "cpu_util_percent" = Num x /\
            (x = NaN \/ percentage x).
Proof.
  unfold Monthly.process_cpu_utilization. intros H Hin.
  rbind_inv H.
  destruct (first_missing Report.required (columns a)).
  - inversion H; subst. contradiction.
  - rbind_inv H. destruct a0 as [total idle]. rbind_inv H.
    inversion H; subst. clear H. simpl in Hin.
    apply in_map_iff in Hin. destruct Hin as ([k m] & <- & Hkm). simpl.
    exists m. split; [reflexivity|].
    unfold Report.mean_by in Ha1. apply traverse_Forall2 in Ha1.
    destruct (Forall2_In_r _ _ _ _ Ha1 Hkm) as (g & Hg & Hmean).
    rbind_inv Hmean. inversion Hmean; subst. clear Hmean.
    apply (group_mean_percentages (snd g)); [|exact Ha2].
    intros c Hc.
    apply (groupby_values _ _
             (fun c => exists x, c = Num x /\ (x = NaN \/ percentage x))
             ) with (g := g) (c := c) in Hg; [exact Hg | | exact Hc].
    intros c' Hc'. rewrite map_map in Hc'. apply in_map_iff in Hc'.
    destruct Hc' as ([k' t] & <- & _). simpl.
    eexists. split; [reflexivity|]. apply clip_percentage.
Qed.

Lemma monthly_utilization_nan_or_bounded_witness :
  exists x,
    row_get ["month"; "cpu_util_percent"] [Str "2026-11"; Num (Fin 50)]
            "cpu_util_percent" = Num x /\
    (x = NaN \/ percentage x).
Proof.
  apply (monthly_utilization_nan_or_bounded busy_table
           (mkFrame ["month"; "cpu_util_percent"] [[Str "2026-11"; Num (Fin 50)]])).
  - vm_compute. reflexivity.
  - left. reflexivity.
Defined.

Lemma per_timestamp_utilization_bounded_witness :
  exists q,
    row_get ["timestamp"; "cpu_util_percent"; "numeric"]
            [Stamp november; Str "50.0%"; Num (Fin 50)] "numeric" = Num (Fin q) /\
    (0 <= q)%Q /\ (q <= 100)%Q.
Proof.
  apply (per_timestamp_utilization_bounded busy_table
           (mkFrame ["timestamp"; "cpu_util_percent"; "numeric"]
                    [[Stamp november; Str "50.0%"; Num (Fin 50)]])).
  - vm_compute. reflexivity.
  - left. reflexivity.
Defined.

(** ** Timestamps *)

Lemma row_set_set (cols : list string) (r : list cell) (c : string)
    (v v' : cell) :
  row_set cols (row_set cols r c v) c v' = row_set cols r c v'.
Proof.
  revert r. induction cols as [|k cols IH]; intros r; [reflexivity|].
  destruct r as [|w r]; [reflexivity|]. simpl.
  destruct (String.eqb k c) eqn:E; simpl; rewrite ?E; [reflexivity|].
  rewrite IH. reflexivity.
Qed.

Lemma row_get_absent (cols : list string) (r : list cell) (c : string) :
  mem c cols = false -> row_get cols r c = nan.
Proof.
  revert r. induction cols as [|k cols IH]; intros r H; [reflexivity|].
  destruct r as [|w r]; [reflexivity|].
  unfold mem in H. cbn [existsb] in H. apply orb_false_iff in H.
  destruct H as [Hk H]. cbn [row_get].
  rewrite String.eqb_sym, Hk. apply IH. exact H.
Qed.

Lemma floor_minute_fixed (c : cell) :
  Report.floor_minute
    (Report.to_datetime (Report.floor_minute (Report.to_datetime c)))
  = Report.floor_minute (Report.to_datetime c).
Proof.
  destruct c as [s|x|t]; try reflexivity. simpl. f_equal.
  assert (H : ((t - t mod 60000000) mod 60000000 = 0)%Z).
  { rewrite Zminus_mod, Z.mod_mod, Z.sub_diag by lia. reflexivity. }
  rewrite H. lia.
Qed.

Lemma setcol_present (df : DataFrame) (c : string) (values : list cell) :
  has_column df c = true ->
  setcol df c values
  = mkFrame (columns df)
      (map (fun rv => row_set (columns df) (fst rv) c (snd rv))
           (combine (rows df) values)).
Proof. intros Hc. unfold setcol. rewrite Hc. reflexivity. Qed.

(** The rows that [truncate_timestamp_to_minute] returns. *)
Lemma truncate_rows (df out : DataFrame) :
  wf df -> has_column df "timestamp" = true ->
  SheetToLooker.truncate_timestamp_to_minute df = Ok out ->
  out = mkFrame (columns df)
          (map (fun r => row_set (columns df) r "timestamp"
                           (Report.floor_minute
                              (Report.to_datetime
                                 (row_get (columns df) r "timestamp"))))
               (rows df)).
Proof.
  intros Hwf Hc. unfold SheetToLooker.truncate_timestamp_to_minute.
  rewrite Hc. unfold getcol at 1. rewrite Hc. cbn [rbind].
  rewrite (setcol_present df) by exact Hc.
  unfold getcol, has_column. cbn [columns rows].
  unfold has_column in Hc. rewrite Hc. cbn [rbind].
  rewrite setcol_present by exact Hc. cbn [columns rows].
  intros H. inversion H. clear H. f_equal.
  rewrite !map_map.
  rewrite (combine_self_map
             (fun x => Report.to_datetime (row_get (columns df) x "timestamp"))
             (rows df)).
  rewrite !map_map, combine_map, map_map. cbn [fst snd].
  apply map_ext_in. intros r Hr.
  rewrite row_set_set, row_get_set_same; [reflexivity | apply Hwf, Hr | exact Hc].
Qed.

(** Truncation changes the timestamp column only, and rounds every
    timestamp down to the whole minute: the row at each position keeps
    its other cells, and a timestamp [t] becomes the multiple of a minute
    that lies at most one minute before it. *)
Theorem truncate_floors_to_minute (df out : DataFrame) :
  wf df ->
  SheetToLooker.truncate_timestamp_to_minute df = Ok out ->
  columns out = columns df /\
  List.length (rows out) = List.length (rows df) /\
  forall i r, nth_error (rows df) i = Some r ->
    exists r', nth_error (rows out) i = Some r' /\
      (forall c, c <> "timestamp" ->
         row_get (columns out) r' c = row_get (columns df) r c) /\
      (forall t, row_get (columns df) r "timestamp" = Stamp t ->
         exists t', row_get (columns out) r' "timestamp" = Stamp t' /\
                    (t' mod minute = 0)%Z /\ (t' <= t < t' + minute)%Z).
Proof.
  intros Hwf H. destruct (has_column df "timestamp") eqn:Hc.
  - apply truncate_rows in H; [|exact Hwf|exact Hc]. subst out.
    cbn [columns rows]. split; [reflexivity|]. split; [apply length_map|].
    intros i r Hi. eexists. split; [apply map_nth_error; exact Hi|]. split.
    + intros c Hne. apply row_get_set_other. apply String.eqb_neq.
      intros E. apply Hne. symmetry. exact E.
    + intros t Ht. rewrite Ht. cbn [Report.to_datetime Report.floor_minute].
      exists (t - t mod 60000000)%Z. split.
      * apply row_get_set_same; [|exact Hc].
        apply Hwf. eapply nth_error_In. exact Hi.
      * unfold minute. split.
        -- rewrite Zminus_mod, Z.mod_mod, Z.sub_diag by lia. reflexivity.
        -- pose proof (Z.mod_pos_bound t 60000000 ltac:(lia)). lia.
  - unfold SheetToLooker.truncate_timestamp_to_minute in H. rewrite Hc in H.
    inversion H; subst out. split; [reflexivity|]. split; [reflexivity|].
    intros i r Hi. exists r. split; [exact Hi|]. split; [reflexivity|].
    intros t Ht. exfalso.
    rewrite (row_get_absent _ r _ Hc) in Ht. discriminate.
Qed.

Lemma truncate_floors_to_minute_witness :
  columns midminute_table = columns midminute_table /\
  List.length (rows (mkFrame ["core"; "timestamp"] [[Str "0"; Stamp 60000000]]))
    = List.length (rows midminute_table) /\
  forall i r, nth_error (rows midminute_table) i = Some r ->
    exists r',
      nth_error (rows (mkFrame ["core"; "timestamp"]
                               [[Str "0"; Stamp 60000000]])) i = Some r' /\
      (forall c, c <> "timestamp" ->
         row_get (columns midminute_table) r' c
           = row_get (columns midminute_table) r c) /\
      (forall t, row_get (columns midminute_table) r "timestamp" = Stamp t ->
         exists t', row_get (columns midminute_table) r' "timestamp" = Stamp t' /\
                    (t' mod minute = 0)%Z /\ (t' <= t < t' + minute)%Z).
Proof.
  apply (truncate_floors_to_minute midminute_table
           (mkFrame ["core"; "timestamp"] [[Str "0"; Stamp 60000000]])).
  - intros r [<-|[]]. reflexivity.
  - vm_compute. reflexivity.
Defined.

(** Truncating twice is truncating once: the second truncation, which
    [calculate_cpu_utilization_correct] applies to a table that [main]
    has truncated already, changes nothing. *)
Theorem truncate_idempotent (df out : DataFrame) :
  wf df ->
  SheetToLooker.truncate_timestamp_to_minute df = Ok out ->
  SheetToLooker.truncate_timestamp_to_minute out = Ok out.
Proof.
  intros Hwf H. destruct (has_column df "timestamp") eqn:Hc.
  - pose proof (truncate_rows df out Hwf Hc H) as Hout.
    assert (Hwf' : wf out).
    { subst out. intros r Hr. cbn [rows columns] in *.
      apply in_map_iff in Hr. destruct Hr as (r0 & <- & Hr0).
      rewrite row_set_length. apply Hwf, Hr0. }
    assert (Hc' : has_column out "timestamp" = true).
    { subst out. exact Hc. }
    destruct (SheetToLooker.truncate_timestamp_to_minute out) as [out'|e] eqn:E.
    + apply truncate_rows in E; [|exact Hwf'|exact Hc']. f_equal.
      rewrite E. rewrite Hout at 3. rewrite Hout. cbn [columns rows].
      f_equal. rewrite map_map. apply map_ext_in. intros r Hr.
      rewrite row_set_set, row_get_set_same; [|apply Hwf, Hr|exact Hc].
      rewrite floor_minute_fixed. reflexivity.
    + exfalso. unfold SheetToLooker.truncate_timestamp_to_minute in E.
      rewrite Hc' in E. unfold getcol in E at 1. rewrite Hc' in E.
      cbn [rbind] in E. unfold getcol in E.
      rewrite has_column_setcol, Hc' in E. discriminate E.
  - unfold SheetToLooker.truncate_timestamp_to_minute in H. rewrite Hc in H.
    inversion H; subst out.
    unfold SheetToLooker.truncate_timestamp_to_minute. rewrite Hc. reflexivity.
Qed.

Lemma truncate_idempotent_witness :
  SheetToLooker.truncate_timestamp_to_minute
    (mkFrame ["core"; "timestamp"] [[Str "0"; Stamp 60000000]])
  = Ok (mkFrame ["core"; "timestamp"] [[Str "0"; Stamp 60000000]]).
Proof.
  apply (truncate_idempotent midminute_table).
  - intros r [<-|[]]. reflexivity.
  - vm_compute. reflexivity.
Defined.

(** ** The processor rates *)

Lemma default_instance_cpu (rs : list (list cell)) :
  default_instance (mkFrame ["cpu"; "mode"; "value"] rs)
  = mkFrame ["cpu"; "mode"; "value"; "instance"] (map with_instance rs).
Proof.
  unfold default_instance. cbn [has_column columns mem existsb String.eqb Ascii.eqb Bool.eqb orb].
  rewrite setcol_scalar_new by reflexivity. reflexivity.
Qed.

Lemma triple (r : list cell) :
  List.length r = 3 -> exists a b c, r = [a; b; c].
Proof.
  destruct r as [|a [|b [|c [|d r]]]]; try discriminate. intros _. eauto.
Qed.

Lemma flat_map_map {A B C : Type} (f : B -> list C) (g : A -> B) (l : list A) :
  flat_map f (map g l) = flat_map (fun a => f (g a)) l.
Proof. induction l as [|a l IH]; simpl; [reflexivity | rewrite IH; reflexivity]. Qed.

Lemma map_flat_map {A B C : Type} (f : A -> list B) (g : B -> C) (l : list A) :
  map g (flat_map f l) = flat_map (fun a => map g (f a)) l.
Proof.
  induction l as [|a l IH]; simpl; [reflexivity|].
  rewrite map_app, IH. reflexivity.
Qed.

Lemma filter_map_comm {A B : Type} (f : B -> bool) (g : A -> B) (l : list A) :
  filter f (map g l) = map g (filter (fun a => f (g a)) l).
Proof.
  induction l as [|a l IH]; simpl; [reflexivity|].
  rewrite IH. destruct (f (g a)); reflexivity.
Qed.

Lemma flat_map_ext_in {A B : Type} (f g : A -> list B) (l : list A) :
  (forall a, In a l -> f a = g a) -> flat_map f l = flat_map g l.
Proof.
  induction l as [|a l IH]; intros H; simpl; [reflexivity|].
  rewrite (H a) by (left; reflexivity). rewrite IH; [reflexivity|].
  intros b Hb. apply H. right. exact Hb.
Qed.

Lemma filter_ext_in' {A : Type} (f g : A -> bool) (l : list A) :
  (forall a, In a l -> f a = g a) -> filter f l = filter g l.
Proof.
  induction l as [|a l IH]; intros H; simpl; [reflexivity|].
  rewrite (H a) by (left; reflexivity). rewrite IH; [reflexivity|].
  intros b Hb. apply H. right. exact Hb.
Qed.

(** The pairs that the join of [store_cpu] matches are the pairs with
    equal cpu and mode. *)
Lemma cpu_matching_pairs (rs1 rs2 : list (list cell)) :
  (forall r, In r rs1 -> List.length r = 3) ->
  (forall r, In r rs2 -> List.length r = 3) ->
  matching_pairs (mkFrame ["cpu"; "mode"; "value"; "instance"] (map with_instance rs1))
                 (mkFrame ["cpu"; "mode"; "value"; "instance"] (map with_instance rs2))
                 ["instance"; "cpu"; "mode"]
  = map (fun p => (with_instance (fst p), with_instance (snd p)))
        (matching_pairs (mkFrame ["cpu"; "mode"; "value"] rs1)
                        (mkFrame ["cpu"; "mode"; "value"] rs2) ["cpu"; "mode"]).
Proof.
  intros H1 H2. unfold matching_pairs. cbn [rows columns].
  rewrite flat_map_map, map_flat_map. apply flat_map_ext_in. intros l Hl.
  rewrite filter_map_comm, !map_map. cbn [fst snd].
  f_equal. apply filter_ext_in'. intros r Hr.
  destruct (triple l (H1 l Hl)) as (a & b & c & ->).
  destruct (triple r (H2 r Hr)) as (a' & b' & c' & ->).
  reflexivity.
Qed.

Lemma parse_metric_numeric (p : pattern) (text value_name : string)
    (df : DataFrame) :
  parse_metric p text value_name = Ok df -> numeric df value_name.
Proof.
  intros H. destruct (parse_metric_records _ _ _ _ H) as (records & -> & Hlen & Hnum).
  intros r Hr.
  destruct (Forall2_In_r _ _ _ _ (of_records_rows records) Hr) as (d & Hd & Hrow).
  destruct (Hnum d Hd) as [x Hx]. exists x.
  rewrite Hrow. unfold cell_of. rewrite Hx. reflexivity.
Qed.

Lemma with_instance_wf (rs : list (list cell)) :
  (forall r, In r rs -> List.length r = 3) ->
  wf (mkFrame ["cpu"; "mode"; "value"; "instance"] (map with_instance rs)).
Proof.
  intros H r Hr. cbn [rows columns] in *. apply in_map_iff in Hr.
  destruct Hr as (r0 & <- & Hr0). unfold with_instance.
  rewrite length_app, (H r0 Hr0). reflexivity.
Qed.

Lemma with_instance_numeric (rs : list (list cell)) :
  (forall r, In r rs -> List.length r = 3) ->
  numeric (mkFrame ["cpu"; "mode"; "value"] rs) "value" ->
  numeric (mkFrame ["cpu"; "mode"; "value"; "instance"] (map with_instance rs))
          "value".
Proof.
  intros H Hn r Hr. cbn [rows columns] in *. apply in_map_iff in Hr.
  destruct Hr as (r0 & <- & Hr0). destruct (Hn r0 Hr0) as [x Hx]. exists x.
  destruct (triple r0 (H r0 Hr0)) as (a & b & c & ->). exact Hx.
Qed.

Lemma insert_recorded (df : DataFrame) (table : string) (w : World) :
  has_column df "instance" = false ->
  has_column df "timestamp" = false ->
  has_column df "ip" = false ->
  insert df table w = (Ok tt, recorded w table df).
Proof.
  intros Hi Ht Hp. unfold recorded. destruct (empty df) eqn:E.
  - unfold insert. rewrite E. reflexivity.
  - apply insert_fresh_columns; assumption.
Qed.

(** The rates that [store_cpu] computes and selects. *)
Lemma store_cpu_rates (rs1 rs2 : list (list cell)) :
  (forall r, In r rs1 -> List.length r = 3) ->
  (forall r, In r rs2 -> List.length r = 3) ->
  numeric (mkFrame ["cpu"; "mode"; "value"] rs1) "value" ->
  numeric (mkFrame ["cpu"; "mode"; "value"] rs2) "value" ->
  (let? df_rate :=
     calculate_rate (default_instance (mkFrame ["cpu"; "mode"; "value"] rs1))
                    (default_instance (mkFrame ["cpu"; "mode"; "value"] rs2))
                    ["instance"; "cpu"; "mode"] "value" in
   select (rename df_rate [("cpu", "core"); ("mode", "state");
                           ("value_rate", "rate_per_sec")])
          ["core"; "state"; "rate_per_sec"])
  = Ok (cpu_rates (mkFrame ["cpu"; "mode"; "value"] rs1)
                  (mkFrame ["cpu"; "mode"; "value"] rs2)).
Proof.
  intros H1 H2 N1 N2. rewrite !default_instance_cpu.
  rewrite calculate_rate_joined.
  - cbn [rbind]. rewrite select_ok.
    + unfold cpu_rates, nonnegative_pairs. apply f_equal. apply f_equal.
      unfold rename. cbn [rows].
      rewrite cpu_matching_pairs by assumption.
      rewrite filter_map_comm, !map_map.
      assert (Hrate : forall p,
                In p (matching_pairs (mkFrame ["cpu"; "mode"; "value"] rs1)
                        (mkFrame ["cpu"; "mode"; "value"] rs2) ["cpu"; "mode"]) ->
                pair_rate
                  (mkFrame ["cpu"; "mode"; "value"; "instance"] (map with_instance rs1))
                  (mkFrame ["cpu"; "mode"; "value"; "instance"] (map with_instance rs2))
                  "value" (with_instance (fst p), with_instance (snd p))
                = pair_rate (mkFrame ["cpu"; "mode"; "value"] rs1)
                            (mkFrame ["cpu"; "mode"; "value"] rs2) "value" p).
      { intros [l r] Hp. apply matching_pairs_In in Hp.
        destruct Hp as (Hl & Hr & _). cbn [rows] in Hl, Hr.
        destruct (triple l (H1 l Hl)) as (a & b & c & ->).
        destruct (triple r (H2 r Hr)) as (a' & b' & c' & ->).
        reflexivity. }
      rewrite (filter_ext_in' _
                 (fun p => Float.leb Float.zero
                             (pair_rate (mkFrame ["cpu"; "mode"; "value"] rs1)
                                        (mkFrame ["cpu"; "mode"; "value"] rs2)
                                        "value" p)))
        by (intros p Hp; cbn [fst snd]; rewrite (Hrate p Hp); reflexivity).
      apply map_ext_in. intros [l r] Hp. apply filter_In in Hp.
      destruct Hp as [Hp _]. pose proof (Hrate _ Hp) as Hpr.
      apply matching_pairs_In in Hp.
      destruct Hp as (Hl & Hr & _). cbn [rows] in Hl, Hr.
      destruct (triple l (H1 l Hl)) as (a & b & c & ->).
      destruct (triple r (H2 r Hr)) as (a' & b' & c' & ->).
      cbn [fst snd] in *. unfold cpu_row. cbn [fst snd columns].
      rewrite <- Hpr. reflexivity.
    + intros c [<-|[<-|[<-|[]]]]; reflexivity.
  - apply with_instance_wf; assumption.
  - apply with_instance_wf; assumption.
  - intros k [<-|[<-|[<-|[]]]]; cbn [columns]; auto 10 using in_eq, in_cons.
  - intros k [<-|[<-|[<-|[]]]]; cbn [columns]; auto 10 using in_eq, in_cons.
  - cbn [columns]. auto 10 using in_eq, in_cons.
  - cbn [columns]. auto 10 using in_eq, in_cons.
  - intros [H|[H|[H|[]]]]; discriminate.
  - reflexivity.
  - apply with_instance_numeric; assumption.
  - apply with_instance_numeric; assumption.
Qed.

(** [store_cpu] on two scrapes whose processor samples carry the labels
    cpu and mode: it stores, under cpu_cstate_rates, one row with core,
    state and rate for every pair of a first and a second sample with the
    same cpu and mode whose value has not fallen, the rate being the
    difference over sixty; when no pair is left it stores nothing and
    reports that there is no data to insert. *)
Theorem store_cpu_stores_rates (text1 text2 : string) (df1 df2 : DataFrame)
    (w : World) :
  parse_metric cpu_pattern text1 "value" = Ok df1 ->
  parse_metric cpu_pattern text2 "value" = Ok df2 ->
  empty df1 = false -> empty df2 = false ->
  columns df1 = ["cpu"; "mode"; "value"] ->
  columns df2 = ["cpu"; "mode"; "value"] ->
  store_cpu text1 text2 w
  = (Ok tt, recorded w "cpu_cstate_rates" (cpu_rates df1 df2)).
Proof.
  intros P1 P2 E1 E2 C1 C2.
  destruct (parse_metric_columns _ _ _ _ P1) as (Hwf1 & _ & _).
  destruct (parse_metric_columns _ _ _ _ P2) as (Hwf2 & _ & _).
  pose proof (parse_metric_numeric _ _ _ _ P1) as N1.
  pose proof (parse_metric_numeric _ _ _ _ P2) as N2.
  unfold store_cpu, bind, lift. rewrite P1, P2, E1, E2. cbn [negb andb].
  cbv zeta.
  destruct df1 as [c1 rs1], df2 as [c2 rs2]. cbn [columns] in C1, C2. subst c1 c2.
  assert (H1 : forall r, In r rs1 -> List.length r = 3) by (intros r Hr; apply (Hwf1 r Hr)).
  assert (H2 : forall r, In r rs2 -> List.length r = 3) by (intros r Hr; apply (Hwf2 r Hr)).
  pose proof (store_cpu_rates rs1 rs2 H1 H2 N1 N2) as Hrates.
  destruct (calculate_rate _ _ _ _) as [df_rate|e]; [|discriminate Hrates].
  cbn [rbind] in Hrates. rewrite Hrates.
  apply insert_recorded; reflexivity.
Qed.

Lemma store_cpu_stores_rates_witness :
  store_cpu Cycle.first_scrape Cycle.second_scrape Cycle.world
  = (Ok tt,
     recorded Cycle.world "cpu_cstate_rates"
       (cpu_rates
          (mkFrame ["cpu"; "mode"; "value"]
             [[Str "0"; Str "idle"; Num (Fin 100)];
              [Str "0"; Str "user"; Num (Fin 50)]])
          (mkFrame ["cpu"; "mode"; "value"]
             [[Str "0"; Str "idle"; Num (Fin 130)];
              [Str "0"; Str "user"; Num (Fin 80)]]))).
Proof.
  apply store_cpu_stores_rates; vm_compute; reflexivity.
Defined.

(** ** The network rates *)

Lemma default_instance_device (rs : list (list cell)) :
  default_instance (mkFrame ["device"; "value"] rs)
  = mkFrame ["device"; "value"; "instance"] (map with_instance rs).
Proof.
  unfold default_instance. cbn [has_column columns mem existsb String.eqb Ascii.eqb Bool.eqb orb].
  rewrite setcol_scalar_new by reflexivity. reflexivity.
Qed.

Lemma couple (r : list cell) :
  List.length r = 2 -> exists a b, r = [a; b].
Proof.
  destruct r as [|a [|b [|c r]]]; try discriminate. intros _. eauto.
Qed.

Lemma device_matching_pairs (rs1 rs2 : list (list cell)) :
  (forall r, In r rs1 -> List.length r = 2) ->
  (forall r, In r rs2 -> List.length r = 2) ->
  matching_pairs (mkFrame ["device"; "value"; "instance"] (map with_instance rs1))
                 (mkFrame ["device"; "value"; "instance"] (map with_instance rs2))
                 ["instance"; "device"]
  = map (fun p => (with_instance (fst p), with_instance (snd p)))
        (matching_pairs (mkFrame ["device"; "value"] rs1)
                        (mkFrame ["device"; "value"] rs2) ["device"]).
Proof.
  intros H1 H2. unfold matching_pairs. cbn [rows columns].
  rewrite flat_map_map, map_flat_map. apply flat_map_ext_in. intros l Hl.
  rewrite filter_map_comm, !map_map. cbn [fst snd].
  f_equal. apply filter_ext_in'. intros r Hr.
  destruct (couple l (H1 l Hl)) as (a & b & ->).
  destruct (couple r (H2 r Hr)) as (a' & b' & ->).
  reflexivity.
Qed.

Lemma device_instance_wf (rs : list (list cell)) :
  (forall r, In r rs -> List.length r = 2) ->
  wf (mkFrame ["device"; "value"; "instance"] (map with_instance rs)).
Proof.
  intros H r Hr. cbn [rows columns] in *. apply in_map_iff in Hr.
  destruct Hr as (r0 & <- & Hr0). unfold with_instance.
  rewrite length_app, (H r0 Hr0). reflexivity.
Qed.

Lemma device_instance_numeric (rs : list (list cell)) :
  (forall r, In r rs -> List.length r = 2) ->
  numeric (mkFrame ["device"; "value"] rs) "value" ->
  numeric (mkFrame ["device"; "value"; "instance"] (map with_instance rs))
          "value".
Proof.
  intros H Hn r Hr. cbn [rows columns] in *. apply in_map_iff in Hr.
  destruct Hr as (r0 & <- & Hr0). destruct (Hn r0 Hr0) as [x Hx]. exists x.
  destruct (couple r0 (H r0 Hr0)) as (a & b & ->). exact Hx.
Qed.

(** The frame of rates of one direction. *)
Lemma device_rates (rs1 rs2 : list (list cell)) :
  (forall r, In r rs1 -> List.length r = 2) ->
  (forall r, In r rs2 -> List.length r = 2) ->
  numeric (mkFrame ["device"; "value"] rs1) "value" ->
  numeric (mkFrame ["device"; "value"] rs2) "value" ->
  calculate_rate (default_instance (mkFrame ["device"; "value"] rs1))
                 (default_instance (mkFrame ["device"; "value"] rs2))
                 ["instance"; "device"] "value"
  = Ok (mkFrame ["device"; "value_old"; "instance"; "value_new"; "value_rate"]
          (map (fun p =>
                  [row_get ["device"; "value"] (fst p) "device";
                   row_get ["device"; "value"] (fst p) "value";
                   Str "localhost:9100";
                   row_get ["device"; "value"] (snd p) "value";
                   Num (pair_rate (mkFrame ["device"; "value"] rs1)
                                  (mkFrame ["device"; "value"] rs2) "value" p)])
               (nonnegative_pairs (mkFrame ["device"; "value"] rs1)
                                  (mkFrame ["device"; "value"] rs2)
                                  ["device"] "value"))).
Proof.
  intros H1 H2 N1 N2. rewrite !default_instance_device.
  rewrite calculate_rate_joined.
  - apply f_equal. apply f_equal.
    rewrite device_matching_pairs by assumption.
    rewrite filter_map_comm, !map_map.
    assert (Hrate : forall p,
              In p (matching_pairs (mkFrame ["device"; "value"] rs1)
                      (mkFrame ["device"; "value"] rs2) ["device"]) ->
              pair_rate
                (mkFrame ["device"; "value"; "instance"] (map with_instance rs1))
                (mkFrame ["device"; "value"; "instance"] (map with_instance rs2))
                "value" (with_instance (fst p), with_instance (snd p))
              = pair_rate (mkFrame ["device"; "value"] rs1)
                          (mkFrame ["device"; "value"] rs2) "value" p).
    { intros [l r] Hp. apply matching_pairs_In in Hp.
      destruct Hp as (Hl & Hr & _). cbn [rows] in Hl, Hr.
      destruct (couple l (H1 l Hl)) as (a & b & ->).
      destruct (couple r (H2 r Hr)) as (a' & b' & ->).
      reflexivity. }
    unfold nonnegative_pairs.
    rewrite (filter_ext_in' _
               (fun p => Float.leb Float.zero
                           (pair_rate (mkFrame ["device"; "value"] rs1)
                                      (mkFrame ["device"; "value"] rs2)
                                      "value" p)))
      by (intros p Hp; cbn [fst snd]; rewrite (Hrate p Hp); reflexivity).
    apply map_ext_in. intros [l r] Hp. apply filter_In in Hp.
    destruct Hp as [Hp _]. pose proof (Hrate _ Hp) as Hpr.
    apply matching_pairs_In in Hp.
    destruct Hp as (Hl & Hr & _). cbn [rows] in Hl, Hr.
    destruct (couple l (H1 l Hl)) as (a & b & ->).
    destruct (couple r (H2 r Hr)) as (a' & b' & ->).
    cbn [fst snd] in *. rewrite <- Hpr. reflexivity.
  - apply device_instance_wf; assumption.
  - apply device_instance_wf; assumption.
  - intros k [<-|[<-|[]]]; cbn [columns]; auto 10 using in_eq, in_cons.
  - intros k [<-|[<-|[]]]; cbn [columns]; auto 10 using in_eq, in_cons.
  - cbn [columns]. auto 10 using in_eq, in_cons.
  - cbn [columns]. auto 10 using in_eq, in_cons.
  - intros [H|[H|[]]]; discriminate.
  - reflexivity.
  - apply device_instance_numeric; assumption.
  - apply device_instance_numeric; assumption.
Qed.

Lemma getcol_map {A : Type} (cs : list string) (g : A -> list cell)
    (l : list A) (c : string) :
  mem c cs = true ->
  getcol (mkFrame cs (map g l)) c = Ok (map (fun a => row_get cs (g a) c) l).
Proof.
  intros H. unfold getcol, has_column. cbn [columns rows]. rewrite H.
  rewrite map_map. reflexivity.
Qed.

Lemma setcol_new_map {A : Type} (cs : list string) (g : A -> list cell)
    (h : A -> cell) (l : list A) (c : string) :
  mem c cs = false ->
  setcol (mkFrame cs (map g l)) c (map h l)
  = mkFrame (cs ++ [c]) (map (fun a => g a ++ [h a]) l).
Proof.
  intros H. unfold setcol, has_column. cbn [columns rows]. rewrite H.
  rewrite combine_map, map_map. reflexivity.
Qed.

Lemma setcol_scalar_new_map {A : Type} (cs : list string) (g : A -> list cell)
    (x : cell) (l : list A) (c : string) :
  mem c cs = false ->
  setcol_scalar (mkFrame cs (map g l)) c x
  = mkFrame (cs ++ [c]) (map (fun a => g a ++ [x]) l).
Proof.
  intros H. rewrite setcol_scalar_new by exact H. cbn [columns rows].
  rewrite map_map. reflexivity.
Qed.

Lemma store_direction_rates (rs1 rs2 : list (list cell)) (mode : string)
    (w : World) :
  (forall r, In r rs1 -> List.length r = 2) ->
  (forall r, In r rs2 -> List.length r = 2) ->
  numeric (mkFrame ["device"; "value"] rs1) "value" ->
  numeric (mkFrame ["device"; "value"] rs2) "value" ->
  store_direction (mkFrame ["device"; "value"] rs1)
                  (mkFrame ["device"; "value"] rs2) mode w
  = (Ok tt,
     recorded w "bandwidth"
       (bandwidth_rates mode (mkFrame ["device"; "value"] rs1)
                             (mkFrame ["device"; "value"] rs2))).
Proof.
  intros H1 H2 N1 N2. unfold store_direction, bind, lift.
  rewrite (device_rates rs1 rs2 H1 H2 N1 N2).
  rewrite setcol_scalar_new_map by reflexivity.
  rewrite setcol_scalar_new_map by reflexivity.
  rewrite getcol_map by reflexivity.
  rewrite setcol_new_map by reflexivity.
  rewrite getcol_map by reflexivity.
  cbn [app row_get String.eqb Ascii.eqb Bool.eqb].
  rewrite map_with_nums. rewrite map_with_nums. rewrite map_with_nums.
  rewrite (setcol_new_map _ _ (fun a => Num _)) by reflexivity.
  rewrite select_ok by (intros c [<-|[<-|[<-|[<-|[]]]]]; reflexivity).
  rewrite insert_recorded by reflexivity.
  unfold bandwidth_rates. cbn [columns rows]. rewrite map_map.
  reflexivity.
Qed.

(** [store_bandwidth] on two scrapes whose receive and transmit samples
    carry the label device only: for each direction in turn it stores,
    under bandwidth, one row for every pair of a first and a second sample
    of the same device whose value has not fallen, with the family name,
    the direction, the rate (the difference over sixty) and the rate times
    8 over 1024 over 1024; the device is not stored. A direction without
    such a pair is reported as having no data. *)
Theorem store_bandwidth_stores_rates (text1 text2 : string)
    (rx1 rx2 tx1 tx2 : DataFrame) (w : World) :
  parse_metric receive_pattern text1 "value" = Ok rx1 ->
  parse_metric receive_pattern text2 "value" = Ok rx2 ->
  parse_metric transmit_pattern text1 "value" = Ok tx1 ->
  parse_metric transmit_pattern text2 "value" = Ok tx2 ->
  columns rx1 = ["device"; "value"] -> columns rx2 = ["device"; "value"] ->
  columns tx1 = ["device"; "value"] -> columns tx2 = ["device"; "value"] ->
  store_bandwidth text1 text2 w
  = (Ok tt,
     recorded
       (recorded w "bandwidth" (bandwidth_rates "receive" rx1 rx2))
       "bandwidth" (bandwidth_rates "transmit" tx1 tx2)).
Proof.
  intros P1 P2 P3 P4 C1 C2 C3 C4.
  destruct (parse_metric_columns _ _ _ _ P1) as (W1 & _ & _).
  destruct (parse_metric_columns _ _ _ _ P2) as (W2 & _ & _).
  destruct (parse_metric_columns _ _ _ _ P3) as (W3 & _ & _).
  destruct (parse_metric_columns _ _ _ _ P4) as (W4 & _ & _).
  pose proof (parse_metric_numeric _ _ _ _ P1) as N1.
  pose proof (parse_metric_numeric _ _ _ _ P2) as N2.
  pose proof (parse_metric_numeric _ _ _ _ P3) as N3.
  pose proof (parse_metric_numeric _ _ _ _ P4) as N4.
  unfold store_bandwidth, bind, lift. rewrite P1, P2, P3, P4.
  destruct rx1 as [c1 r1], rx2 as [c2 r2], tx1 as [c3 r3], tx2 as [c4 r4].
  cbn [columns] in C1, C2, C3, C4. subst c1 c2 c3 c4.
  rewrite store_direction_rates;
    [|intros r Hr; apply (W1 r Hr)|intros r Hr; apply (W2 r Hr)|exact N1|exact N2].
  apply store_direction_rates;
    [intros r Hr; apply (W3 r Hr)|intros r Hr; apply (W4 r Hr)|exact N3|exact N4].
Qed.

Lemma store_bandwidth_stores_rates_witness :
  store_bandwidth Cycle.first_scrape Cycle.second_scrape Cycle.world
  = (Ok tt,
     recorded
       (recorded Cycle.world "bandwidth"
          (bandwidth_rates "receive"
             (mkFrame ["device"; "value"] [[Str "eth0"; Num (Fin 1000)]])
             (mkFrame ["device"; "value"] [[Str "eth0"; Num (Fin 1030)]])))
       "bandwidth"
       (bandwidth_rates "transmit"
          (mkFrame ["device"; "value"] [[Str "eth0"; Num (Fin 700)]])
          (mkFrame ["device"; "value"] [[Str "eth0"; Num (Fin 760)]]))).
Proof.
  apply store_bandwidth_stores_rates; vm_compute; reflexivity.
Defined.

(** ** The disk rates *)

Ltac device_rate_frame H1 H2 :=
  rewrite calculate_rate_joined;
  [ f_equal; f_equal; unfold nonnegative_pairs;
    apply map_ext_in;
    let l := fresh "l" in let r := fresh "r" in let Hp := fresh "Hp" in
    let Hl := fresh "Hl" in let Hr := fresh "Hr" in
    intros [l r] Hp; apply filter_In in Hp; destruct Hp as [Hp _];
    apply matching_pairs_In in Hp; destruct Hp as (Hl & Hr & _);
    cbn [rows] in Hl, Hr;
    destruct (couple l (H1 l Hl)) as (? & ? & ->);
    destruct (couple r (H2 r Hr)) as (? & ? & ->);
    reflexivity
  | intros r Hr; apply (H1 r Hr)
  | intros r Hr; apply (H2 r Hr)
  | intros k [<-|[]]; cbn [columns]; auto using in_eq, in_cons
  | intros k [<-|[]]; cbn [columns]; auto using in_eq, in_cons
  | cbn [columns]; auto using in_eq, in_cons
  | cbn [columns]; auto using in_eq, in_cons
  | intros [H|[]]; discriminate
  | reflexivity
  | assumption
  | assumption ].

Lemma reads_rates (rs1 rs2 : list (list cell)) :
  (forall r, In r rs1 -> List.length r = 2) ->
  (forall r, In r rs2 -> List.length r = 2) ->
  numeric (mkFrame ["device"; "reads"] rs1) "reads" ->
  numeric (mkFrame ["device"; "reads"] rs2) "reads" ->
  calculate_rate (mkFrame ["device"; "reads"] rs1)
                 (mkFrame ["device"; "reads"] rs2) ["device"] "reads"
  = Ok (mkFrame ["device"; "reads_old"; "reads_new"; "reads_rate"]
          (map (fun p =>
                  [device_of (mkFrame ["device"; "reads"] rs1) p;
                   row_get ["device"; "reads"] (fst p) "reads";
                   row_get ["device"; "reads"] (snd p) "reads";
                   Num (pair_rate (mkFrame ["device"; "reads"] rs1)
                                  (mkFrame ["device"; "reads"] rs2) "reads" p)])
               (nonnegative_pairs (mkFrame ["device"; "reads"] rs1)
                                  (mkFrame ["device"; "reads"] rs2)
                                  ["device"] "reads"))).
Proof. intros H1 H2 N1 N2. device_rate_frame H1 H2. Qed.

Lemma writes_rates (rs1 rs2 : list (list cell)) :
  (forall r, In r rs1 -> List.length r = 2) ->
  (forall r, In r rs2 -> List.length r = 2) ->
  numeric (mkFrame ["device"; "writes"] rs1) "writes" ->
  numeric (mkFrame ["device"; "writes"] rs2) "writes" ->
  calculate_rate (mkFrame ["device"; "writes"] rs1)
                 (mkFrame ["device"; "writes"] rs2) ["device"] "writes"
  = Ok (mkFrame ["device"; "writes_old"; "writes_new"; "writes_rate"]
          (map (fun p =>
                  [device_of (mkFrame ["device"; "writes"] rs1) p;
                   row_get ["device"; "writes"] (fst p) "writes";
                   row_get ["device"; "writes"] (snd p) "writes";
                   Num (pair_rate (mkFrame ["device"; "writes"] rs1)
                                  (mkFrame ["device"; "writes"] rs2) "writes" p)])
               (nonnegative_pairs (mkFrame ["device"; "writes"] rs1)
                                  (mkFrame ["device"; "writes"] rs2)
                                  ["device"] "writes"))).
Proof. intros H1 H2 N1 N2. device_rate_frame H1 H2. Qed.

Lemma rbytes_rates (rs1 rs2 : list (list cell)) :
  (forall r, In r rs1 -> List.length r = 2) ->
  (forall r, In r rs2 -> List.length r = 2) ->
  numeric (mkFrame ["device"; "rbytes"] rs1) "rbytes" ->
  numeric (mkFrame ["device"; "rbytes"] rs2) "rbytes" ->
  calculate_rate (mkFrame ["device"; "rbytes"] rs1)
                 (mkFrame ["device"; "rbytes"] rs2) ["device"] "rbytes"
  = Ok (mkFrame ["device"; "rbytes_old"; "rbytes_new"; "rbytes_rate"]
          (map (fun p =>
                  [device_of (mkFrame ["device"; "rbytes"] rs1) p;
                   row_get ["device"; "rbytes"] (fst p) "rbytes";
                   row_get ["device"; "rbytes"] (snd p) "rbytes";
                   Num (pair_rate (mkFrame ["device"; "rbytes"] rs1)
                                  (mkFrame ["device"; "rbytes"] rs2) "rbytes" p)])
               (nonnegative_pairs (mkFrame ["device"; "rbytes"] rs1)
                                  (mkFrame ["device"; "rbytes"] rs2)
                                  ["device"] "rbytes"))).
Proof. intros H1 H2 N1 N2. device_rate_frame H1 H2. Qed.

Lemma wbytes_rates (rs1 rs2 : list (list cell)) :
  (forall r, In r rs1 -> List.length r = 2) ->
  (forall r, In r rs2 -> List.length r = 2) ->
  numeric (mkFrame ["device"; "wbytes"] rs1) "wbytes" ->
  numeric (mkFrame ["device"; "wbytes"] rs2) "wbytes" ->
  calculate_rate (mkFrame ["device"; "wbytes"] rs1)
                 (mkFrame ["device"; "wbytes"] rs2) ["device"] "wbytes"
  = Ok (mkFrame ["device"; "wbytes_old"; "wbytes_new"; "wbytes_rate"]
          (map (fun p =>
                  [device_of (mkFrame ["device"; "wbytes"] rs1) p;
                   row_get ["device"; "wbytes"] (fst p) "wbytes";
                   row_get ["device"; "wbytes"] (snd p) "wbytes";
                   Num (pair_rate (mkFrame ["device"; "wbytes"] rs1)
                                  (mkFrame ["device"; "wbytes"] rs2) "wbytes" p)])
               (nonnegative_pairs (mkFrame ["device"; "wbytes"] rs1)
                                  (mkFrame ["device"; "wbytes"] rs2)
                                  ["device"] "wbytes"))).
Proof. intros H1 H2 N1 N2. device_rate_frame H1 H2. Qed.

Lemma flat_map_pairs {A B C D E : Type} (gr : A -> C) (gw : B -> D)
    (F : C -> D -> E) (Q : C -> D -> bool) (Pr : list A) (Pw : list B) :
  flat_map (fun l => map (fun r => F l r) (filter (fun r => Q l r) (map gw Pw)))
           (map gr Pr)
  = map (fun pp => F (gr (fst pp)) (gw (snd pp)))
        (flat_map (fun pr => map (fun pw => (pr, pw))
                                 (filter (fun pw => Q (gr pr) (gw pw)) Pw))
                  Pr).
Proof.
  rewrite flat_map_map, map_flat_map. apply flat_map_ext_in. intros pr _.
  rewrite filter_map_comm, !map_map. reflexivity.
Qed.

Lemma setcol_present_map {A : Type} (cs : list string) (g : A -> list cell)
    (h : A -> cell) (l : list A) (c : string) :
  mem c cs = true ->
  setcol (mkFrame cs (map g l)) c (map h l)
  = mkFrame cs (map (fun a => row_set cs (g a) c (h a)) l).
Proof.
  intros H. unfold setcol, has_column. cbn [columns rows]. rewrite H.
  rewrite combine_map, map_map. reflexivity.
Qed.

Ltac disk_half Hr Hw E1 E2 E3 E4 :=
  match goal with
  | |- store_disk_pair ?R1 ?R2 ?W1 ?W2 ?rn ?wn _ _ _ _ = _ =>
      unfold store_disk_pair, bind, lift; rewrite E1, E2, E3, E4;
      cbn [negb andb];
      rewrite Hr, Hw;
      unfold merge;
      cbn [columns rows first_missing mem existsb String.eqb Ascii.eqb
           Bool.eqb orb map filter negb suffixed nodupb andb app String.append
           collides suffix_dups];
      rewrite (flat_map_pairs _ _ (fun l r => l ++ drop_keys _ _ r)
                 (fun l r => key_eqb (row_key _ _ l) (row_key _ _ r)));
      match goal with
      | |- context [flat_map ?f ?l] =>
          replace (flat_map f l) with (disk_pairs R1 R2 W1 W2 rn wn);
          [| unfold disk_pairs; apply flat_map_ext_in; intros pr _; f_equal;
             apply filter_ext; intros pw; symmetry;
             exact (andb_true_r (cell_eqb (device_of _ pr) (device_of _ pw))) ]
      end;
      unfold rename, remap_column;
      cbn [columns rows map assoc String.eqb Ascii.eqb Bool.eqb];
      rewrite getcol_map by reflexivity; cbn [rbind];
      rewrite fillna_series_map, map_map;
      rewrite setcol_present_map by reflexivity;
      rewrite select_ok by (intros c [<-|[<-|[<-|[]]]]; reflexivity);
      rewrite insert_recorded by reflexivity;
      unfold disk_rates; cbn [columns rows]; rewrite map_map; reflexivity
  end.

Lemma store_iops (rs1 rs2 ws1 ws2 : list (list cell)) (w : World) :
  (forall r, In r rs1 -> List.length r = 2) ->
  (forall r, In r rs2 -> List.length r = 2) ->
  (forall r, In r ws1 -> List.length r = 2) ->
  (forall r, In r ws2 -> List.length r = 2) ->
  numeric (mkFrame ["device"; "reads"] rs1) "reads" ->
  numeric (mkFrame ["device"; "reads"] rs2) "reads" ->
  numeric (mkFrame ["device"; "writes"] ws1) "writes" ->
  numeric (mkFrame ["device"; "writes"] ws2) "writes" ->
  empty (mkFrame ["device"; "reads"] rs1) = false ->
  empty (mkFrame ["device"; "reads"] rs2) = false ->
  empty (mkFrame ["device"; "writes"] ws1) = false ->
  empty (mkFrame ["device"; "writes"] ws2) = false ->
  store_disk_pair (mkFrame ["device"; "reads"] rs1)
                  (mkFrame ["device"; "reads"] rs2)
                  (mkFrame ["device"; "writes"] ws1)
                  (mkFrame ["device"; "writes"] ws2)
                  "reads" "writes" "read_iops" "write_iops" "disk_iops" w
  = (Ok tt,
     recorded w "disk_iops"
       (disk_rates (mkFrame ["device"; "reads"] rs1)
                   (mkFrame ["device"; "reads"] rs2)
                   (mkFrame ["device"; "writes"] ws1)
                   (mkFrame ["device"; "writes"] ws2)
                   "reads" "writes" "read_iops" "write_iops")).
Proof.
  intros H1 H2 H3 H4 N1 N2 N3 N4 E1 E2 E3 E4.
  disk_half (reads_rates rs1 rs2 H1 H2 N1 N2) (writes_rates ws1 ws2 H3 H4 N3 N4)
            E1 E2 E3 E4.
Qed.

Lemma store_throughput (rs1 rs2 ws1 ws2 : list (list cell)) (w : World) :
  (forall r, In r rs1 -> List.length r = 2) ->
  (forall r, In r rs2 -> List.length r = 2) ->
  (forall r, In r ws1 -> List.length r = 2) ->
  (forall r, In r ws2 -> List.length r = 2) ->
  numeric (mkFrame ["device"; "rbytes"] rs1) "rbytes" ->
  numeric (mkFrame ["device"; "rbytes"] rs2) "rbytes" ->
  numeric (mkFrame ["device"; "wbytes"] ws1) "wbytes" ->
  numeric (mkFrame ["device"; "wbytes"] ws2) "wbytes" ->
  empty (mkFrame ["device"; "rbytes"] rs1) = false ->
  empty (mkFrame ["device"; "rbytes"] rs2) = false ->
  empty (mkFrame ["device"; "wbytes"] ws1) = false ->
  empty (mkFrame ["device"; "wbytes"] ws2) = false ->
  store_disk_pair (mkFrame ["device"; "rbytes"] rs1)
                  (mkFrame ["device"; "rbytes"] rs2)
                  (mkFrame ["device"; "wbytes"] ws1)
                  (mkFrame ["device"; "wbytes"] ws2)
                  "rbytes" "wbytes" "read_bytes_per_sec" "write_bytes_per_sec" "disk_throughput" w
  = (Ok tt,
     recorded w "disk_throughput"
       (disk_rates (mkFrame ["device"; "rbytes"] rs1)
                   (mkFrame ["device"; "rbytes"] rs2)
                   (mkFrame ["device"; "wbytes"] ws1)
                   (mkFrame ["device"; "wbytes"] ws2)
                   "rbytes" "wbytes" "read_bytes_per_sec" "write_bytes_per_sec")).
Proof.
  intros H1 H2 H3 H4 N1 N2 N3 N4 E1 E2 E3 E4.
  disk_half (rbytes_rates rs1 rs2 H1 H2 N1 N2) (wbytes_rates ws1 ws2 H3 H4 N3 N4)
            E1 E2 E3 E4.
Qed.

Lemma parse_metric_not_empty (p : pattern) (text value_name : string)
    (df : DataFrame) (c : string) (cs : list string) :
  parse_metric p text value_name = Ok df -> columns df = c :: cs ->
  empty df = false.
Proof.
  intros H Hc. destruct (parse_metric_records _ _ _ _ H) as (records & -> & _ & _).
  destruct records as [|d records]; [discriminate Hc|].
  pose proof (of_records_length (d :: records)) as Hlen.
  unfold empty. rewrite Hc.
  destruct (rows (of_records (d :: records))); [discriminate Hlen | reflexivity].
Qed.

(** [store_disk_iops_throughput] on two scrapes whose four disk counters
    carry the label device only: it stores, under disk_iops and then under
    disk_throughput, one row for every device with a read pair and a write
    pair of samples whose values have not fallen, with the volume (the
    device passed through the lookup table) and the two rates, each the
    difference over sixty. A half without such a device is reported as
    having no data. *)
Theorem store_disk_iops_throughput_stores_rates (text1 text2 : string)
    (r1 r2 w1 w2 rb1 rb2 wb1 wb2 : DataFrame) (w : World) :
  parse_metric reads_pattern text1 "reads" = Ok r1 ->
  parse_metric reads_pattern text2 "reads" = Ok r2 ->
  parse_metric writes_pattern text1 "writes" = Ok w1 ->
  parse_metric writes_pattern text2 "writes" = Ok w2 ->
  parse_metric read_bytes_pattern text1 "rbytes" = Ok rb1 ->
  parse_metric read_bytes_pattern text2 "rbytes" = Ok rb2 ->
  parse_metric written_bytes_pattern text1 "wbytes" = Ok wb1 ->
  parse_metric written_bytes_pattern text2 "wbytes" = Ok wb2 ->
  columns r1 = ["device"; "reads"] -> columns r2 = ["device"; "reads"] ->
  columns w1 = ["device"; "writes"] -> columns w2 = ["device"; "writes"] ->
  columns rb1 = ["device"; "rbytes"] -> columns rb2 = ["device"; "rbytes"] ->
  columns wb1 = ["device"; "wbytes"] -> columns wb2 = ["device"; "wbytes"] ->
  store_disk_iops_throughput text1 text2 w
  = (Ok tt,
     recorded
       (recorded w "disk_iops"
          (disk_rates r1 r2 w1 w2 "reads" "writes" "read_iops" "write_iops"))
       "disk_throughput"
       (disk_rates rb1 rb2 wb1 wb2 "rbytes" "wbytes"
                   "read_bytes_per_sec" "write_bytes_per_sec")).
Proof.
  intros P1 P2 P3 P4 P5 P6 P7 P8 C1 C2 C3 C4 C5 C6 C7 C8.
  pose proof (parse_metric_not_empty _ _ _ _ _ _ P1 C1) as E1.
  pose proof (parse_metric_not_empty _ _ _ _ _ _ P2 C2) as E2.
  pose proof (parse_metric_not_empty _ _ _ _ _ _ P3 C3) as E3.
  pose proof (parse_metric_not_empty _ _ _ _ _ _ P4 C4) as E4.
  pose proof (parse_metric_not_empty _ _ _ _ _ _ P5 C5) as E5.
  pose proof (parse_metric_not_empty _ _ _ _ _ _ P6 C6) as E6.
  pose proof (parse_metric_not_empty _ _ _ _ _ _ P7 C7) as E7.
  pose proof (parse_metric_not_empty _ _ _ _ _ _ P8 C8) as E8.
  destruct (parse_metric_columns _ _ _ _ P1) as (W1 & _ & _).
  destruct (parse_metric_columns _ _ _ _ P2) as (W2 & _ & _).
  destruct (parse_metric_columns _ _ _ _ P3) as (W3 & _ & _).
  destruct (parse_metric_columns _ _ _ _ P4) as (W4 & _ & _).
  destruct (parse_metric_columns _ _ _ _ P5) as (W5 & _ & _).
  destruct (parse_metric_columns _ _ _ _ P6) as (W6 & _ & _).
  destruct (parse_metric_columns _ _ _ _ P7) as (W7 & _ & _).
  destruct (parse_metric_columns _ _ _ _ P8) as (W8 & _ & _).
  pose proof (parse_metric_numeric _ _ _ _ P1) as N1.
  pose proof (parse_metric_numeric _ _ _ _ P2) as N2.
  pose proof (parse_metric_numeric _ _ _ _ P3) as N3.
  pose proof (parse_metric_numeric _ _ _ _ P4) as N4.
  pose proof (parse_metric_numeric _ _ _ _ P5) as N5.
  pose proof (parse_metric_numeric _ _ _ _ P6) as N6.
  pose proof (parse_metric_numeric _ _ _ _ P7) as N7.
  pose proof (parse_metric_numeric _ _ _ _ P8) as N8.
  unfold store_disk_iops_throughput.
  unfold bind at 1 2 3 4 5 6 7 8. unfold lift.
  rewrite P1, P2, P3, P4, P5, P6, P7, P8.
  destruct r1 as [c1 x1], r2 as [c2 x2], w1 as [c3 x3], w2 as [c4 x4].
  destruct rb1 as [c5 x5], rb2 as [c6 x6], wb1 as [c7 x7], wb2 as [c8 x8].
  cbn [columns] in C1, C2, C3, C4, C5, C6, C7, C8. subst.
  unfold bind.
  rewrite store_iops by (assumption || (intros r Hr; auto)).
  apply store_throughput; assumption || (intros r Hr; auto).
Qed.

Lemma store_disk_iops_throughput_stores_rates_witness :
  store_disk_iops_throughput disk_first_scrape disk_second_scrape Cycle.world
  = (Ok tt,
     recorded
       (recorded Cycle.world "disk_iops"
          (disk_rates (mkFrame ["device"; "reads"] [[Str "sda"; Num (Fin 100)]])
                      (mkFrame ["device"; "reads"] [[Str "sda"; Num (Fin 160)]])
                      (mkFrame ["device"; "writes"] [[Str "sda"; Num (Fin 40)]])
                      (mkFrame ["device"; "writes"] [[Str "sda"; Num (Fin 100)]])
                      "reads" "writes" "read_iops" "write_iops"))
       "disk_throughput"
       (disk_rates (mkFrame ["device"; "rbytes"] [[Str "sda"; Num (Fin 4096)]])
                   (mkFrame ["device"; "rbytes"] [[Str "sda"; Num (Fin 8192)]])
                   (mkFrame ["device"; "wbytes"] [[Str "sda"; Num (Fin 1024)]])
                   (mkFrame ["device"; "wbytes"] [[Str "sda"; Num (Fin 2048)]])
                   "rbytes" "wbytes" "read_bytes_per_sec" "write_bytes_per_sec")).
Proof.
  apply store_disk_iops_throughput_stores_rates; vm_compute; reflexivity.
Defined.

(** ** Reports of incomplete tables *)

Lemma first_missing_some (cs have : list string) (c : string) :
  In c cs -> mem c have = false -> exists c', first_missing cs have = Some c'.
Proof.
  induction cs as [|k cs IH]; intros Hin Hc; [contradiction|].
  simpl. destruct (mem k have) eqn:E.
  - destruct Hin as [->|Hin]; [congruence | apply IH; assumption].
  - eauto.
Qed.

(** The per-timestamp report of a table that lacks one of the columns
    timestamp, state and rate_per_sec is the empty frame: the function
    does not raise. *)
Theorem per_timestamp_report_of_missing_column (df : DataFrame) :
  lacks_required df ->
  SheetToLooker.calculate_cpu_utilization_correct df = Ok (mkFrame [] []).
Proof.
  intros (c & Hc & Hmiss).
  unfold SheetToLooker.calculate_cpu_utilization_correct.
  assert (Ht : exists df', SheetToLooker.truncate_timestamp_to_minute df = Ok df' /\
                           columns df' = columns df).
  { unfold SheetToLooker.truncate_timestamp_to_minute.
    destruct (has_column df "timestamp") eqn:E; [|eauto].
    unfold getcol at 1. rewrite E. cbn [rbind].
    unfold getcol. rewrite has_column_setcol, E. cbn [orb rbind].
    eexists. split; [reflexivity|].
    unfold setcol at 1. rewrite has_column_setcol, E. cbn [orb columns].
    unfold setcol. rewrite E. reflexivity. }
  destruct Ht as (df' & -> & Hcols). cbn [rbind]. rewrite Hcols.
  destruct (first_missing_some Report.required (columns df) c Hc Hmiss) as [c' ->].
  reflexivity.
Qed.

Lemma per_timestamp_report_of_missing_column_witness :
  SheetToLooker.calculate_cpu_utilization_correct stateless_table
  = Ok (mkFrame [] []).
Proof.
  apply per_timestamp_report_of_missing_column.
  exists "state". split; [right; left; reflexivity | reflexivity].
Defined.

Lemma preprocess_month_columns (df df' : DataFrame) (c : string) :
  Monthly.preprocess_month df = Ok df' ->
  has_column df' c = has_column df c || String.eqb c "month".
Proof.
  unfold Monthly.preprocess_month. intros H.
  rbind_inv H. rbind_inv H. rbind_inv H. inversion H; subst df'. clear H.
  rewrite has_column_setcol. f_equal.
  unfold filter_rows, has_column at 1. cbn [columns].
  change (mem c (columns (setcol df "timestamp" (map Report.to_datetime a))))
    with (has_column (setcol df "timestamp" (map Report.to_datetime a)) c).
  rewrite has_column_setcol.
  destruct (String.eqb c "timestamp") eqn:E; [|apply orb_false_r].
  apply String.eqb_eq in E. subst c.
  apply getcol_ok in Ha. destruct Ha as [Ha _]. rewrite Ha. reflexivity.
Qed.

Lemma has_column_filter_rows (df : DataFrame) (mask : list bool) (c : string) :
  has_column (filter_rows df mask) c = has_column df c.
Proof. reflexivity. Qed.

Lemma getcol_present (df : DataFrame) (c : string) :
  has_column df c = true ->
  getcol df c = Ok (map (fun r => row_get (columns df) r c) (rows df)).
Proof. intros H. unfold getcol. rewrite H. reflexivity. Qed.

Lemma preprocess_month_total (df : DataFrame) :
  has_column df "timestamp" = true ->
  exists df', Monthly.preprocess_month df = Ok df'.
Proof.
  intros Ht. unfold Monthly.preprocess_month.
  rewrite (getcol_present df) by exact Ht. cbn [rbind].
  rewrite getcol_present by (rewrite has_column_setcol, Ht; reflexivity).
  cbn [rbind].
  rewrite getcol_present
    by (rewrite has_column_filter_rows, has_column_setcol, Ht; reflexivity).
  cbn [rbind]. eauto.
Qed.

(** The monthly report of a table that lacks one of the three columns:
    without the timestamp it raises [KeyError], because
    [preprocess_month] reads the column before the columns are checked;
    with the timestamp, and so without the state or the rate, it is the
    empty frame. *)
Theorem monthly_report_of_missing_column (df : DataFrame) :
  lacks_required df ->
  Monthly.process_cpu_utilization df
  = if has_column df "timestamp" then Ok (mkFrame [] [])
    else Raise (KeyError "timestamp").
Proof.
  intros (c & Hc & Hmiss). destruct (has_column df "timestamp") eqn:Ht.
  - unfold Monthly.process_cpu_utilization.
    destruct (preprocess_month_total df Ht) as [df' E]. rewrite E.
    cbn [rbind].
    assert (Hmiss' : mem c (columns df') = false).
    { change (has_column df' c = false).
      rewrite (preprocess_month_columns df df' c E), Hmiss.
      destruct Hc as [<-|[<-|[<-|[]]]]; reflexivity. }
    destruct (first_missing_some Report.required (columns df') c Hc Hmiss')
      as [c' ->].
    reflexivity.
  - unfold Monthly.process_cpu_utilization, Monthly.preprocess_month, getcol.
    rewrite Ht. reflexivity.
Qed.

Lemma monthly_report_of_missing_column_witness :
  Monthly.process_cpu_utilization timeless_table
  = if has_column timeless_table "timestamp" then Ok (mkFrame [] [])
    else Raise (KeyError "timestamp").
Proof.
  apply monthly_report_of_missing_column.
  exists "timestamp". split; [left; reflexivity | reflexivity].
Defined.

(** ** The sink: timestamp and ip *)

Lemma span_spec (p : ascii -> bool) (s a b : string) :
  span p s = (a, b) ->
  s = (a ++ b)%string /\ all_chars p a = true /\ starts_without p b.
Proof.
  revert a b. induction s as [|c s IH]; simpl; intros a b H.
  - inversion H; subst. repeat split.
  - destruct (p c) eqn:E.
    + destruct (span p s) as [a' b'] eqn:Es. inversion H; subst.
      destruct (IH a' b eq_refl) as (-> & Ha & Hb).
      simpl. rewrite E, Ha. repeat split. exact Hb.
    + inversion H; subst. simpl. repeat split. exact E.
Qed.















(** The record set of one sample of the instance 192.168.1.5:9100 is
    stored with the ip 192.168.1.5. *)
Lemma insert_extracts_address :
  insert instance_frame "bandwidth" (mkWorld [] 7 [] [])
    = (Ok tt,
       mkWorld [] 7
         [("bandwidth",
           mkFrame ["instance"; "value"; "timestamp"; "ip"]
                   [[Str "192.168.1.5:9100"; Num (Fin 1); Stamp 7;
                     Str "192.168.1.5"]])]
         [Inserted 1 "bandwidth"]).
Proof. vm_compute. reflexivity. Qed.

(** ** The exposition parser, line by line *)

Lemma code_char (c : ascii) (n : N) :
  (code c =? n)%N = true -> c = ascii_of_N n.
Proof.
  intros H. apply N.eqb_eq in H. unfold code in H.
  rewrite <- (ascii_N_embedding c), H. reflexivity.
Qed.



Lemma match_value_run (g : option string) (v rest : string) :
  v <> EmptyString -> all_chars is_value_char v = true ->
  starts_without is_value_char rest ->
  match_value g (" " ++ v ++ rest) = Some (g, v).
Proof.
  intros Hne Hv Hr. cbn [append match_value].
  change (code " " =? 32)%N with true. cbv iota.
  rewrite span_app by assumption. cbn [fst].
  destruct v; [contradiction | reflexivity].
Qed.

(** The pattern matches the lines of the family, with these groups. *)
Lemma re_match_family (p : pattern) (line : string) (ls : option string)
    (v : string) :
  family_line p line ls v -> re_match p line = Some (ls, v).
Proof.
  intros H. destruct H as [block v rest Hb Hne Hv Hr | v rest Hopt Hne Hv Hr];
    unfold re_match; rewrite strip_prefix_app.
  - cbn [append]. change (code "{" =? 123)%N with true. cbv iota.
    rewrite (span_app (fun c => negb (is_close_brace c)) block
                      (String "}" (String " " (v ++ rest)))).
    + apply match_value_run; assumption.
    + exact Hb.
    + reflexivity.
  - rewrite Hopt. cbn [append]. change (code " " =? 123)%N with false.
    cbv iota. apply (match_value_run None); assumption.
Qed.



















(** The line that is no sample is skipped, the samples around it are
    kept. *)
Lemma parse_metric_skips_garbage :
  parse_metric cpu_pattern mixed_scrape "value"
    = Ok (mkFrame ["cpu"; "mode"; "value"]
            [[Str "0"; Str "idle"; Num (Fin 100)];
             [Str "0"; Str "user"; Num (Fin 55)]]).
Proof. vm_compute. reflexivity. Qed.

Lemma take_sign_spec (t s : string) (b : bool) :
  take_sign t = (b, s) -> exists sg, sign_text sg /\ t = (sg ++ s)%string.
Proof.
  unfold take_sign. destruct t as [|c t].
  - intros H. inversion H. exists EmptyString. split; [left|]; reflexivity.
  - destruct (code c =? 45)%N eqn:E1.
    + apply code_char in E1. subst c. intros H. inversion H.
      exists "-". split; [right; right|]; reflexivity.
    + destruct (code c =? 43)%N eqn:E2.
      * apply code_char in E2. subst c. intros H. inversion H.
        exists "+". split; [right; left|]; reflexivity.
      * intros H. inversion H. exists EmptyString.
        split; [left|]; reflexivity.
Qed.

Lemma parse_exponent_spec (e : string) (k : Z) :
  parse_exponent e = Some k -> exponent e.
Proof.
  unfold parse_exponent. destruct e as [|c t]; [left; reflexivity|].
  destruct (code c =? 101)%N eqn:E; [|discriminate].
  apply code_char in E. subst c.
  destruct (take_sign t) as [neg t'] eqn:Et.
  apply take_sign_spec in Et. destruct Et as (sg & Hsg & ->).
  destruct (span is_digit t') as [ds rest] eqn:Es.
  apply span_spec in Es. destruct Es as (-> & Hds & _).
  destruct ds as [|d ds]; [discriminate|].
  destruct rest; [|discriminate]. intros _.
  right. exists sg, (String d ds). rewrite append_empty_r.
  split; [reflexivity|]. split; [exact Hsg|]. split; [discriminate | exact Hds].
Qed.

(** [float] accepts nothing else. *)
Lemma python_float_accepts (t : string) (x : float) :
  python_float t = Some x -> numeral t.
Proof.
  unfold python_float.
  destruct (take_sign t) as [neg s1] eqn:Et.
  apply take_sign_spec in Et. destruct Et as (sg & Hsg & ->).
  destruct (span is_digit s1) as [ip s2] eqn:E1.
  apply span_spec in E1. destruct E1 as (-> & Hip & _).
  destruct s2 as [|c t2].
  - rewrite !append_empty_r. destruct ip as [|a ip]; [discriminate|].
    intros _. exists sg, (String a ip), EmptyString.
    split; [rewrite append_empty_r; reflexivity|]. split; [exact Hsg|].
    split; [|left; reflexivity].
    left. split; [discriminate | exact Hip].
  - destruct (code c =? 46)%N eqn:Ec.
    + apply code_char in Ec. subst c.
      destruct (span is_digit t2) as [fp s3] eqn:E2.
      apply span_spec in E2. destruct E2 as (-> & Hfp & _).
      destruct (ip ++ fp)%string eqn:E; [discriminate|].
      destruct (parse_exponent s3) as [k|] eqn:Ek; [|discriminate].
      intros _. exists sg, (ip ++ "." ++ fp)%string, s3.
      split; [rewrite !append_assoc_s; reflexivity|]. split; [exact Hsg|].
      split; [|exact (parse_exponent_spec _ _ Ek)].
      right. exists ip, fp. split; [reflexivity|]. split; [exact Hip|].
      split; [exact Hfp|].
      destruct ip; [right|left]; [|discriminate].
      simpl in E. rewrite E. discriminate.
    + destruct (ip ++ "")%string eqn:E; [discriminate|].
      rewrite append_empty_r in E.
      destruct (parse_exponent (String c t2)) as [k|] eqn:Ek; [|discriminate].
      intros _. exists sg, ip, (String c t2).
      split; [reflexivity|]. split; [exact Hsg|].
      split; [|exact (parse_exponent_spec _ _ Ek)].
      left. split; [rewrite E; discriminate | exact Hip].
Qed.

(** A line of the family whose value text is no numeral ends the parse
    with [ValueError], whatever the other lines are. *)
Lemma parse_metric_raises_on_other_value (p : pattern)
    (text value_name line : string) (ls : option string) (v : string) :
  In line (splitlines text) -> family_line p line ls v -> ~ numeral v ->
  parse_metric p text value_name = Raise ValueError.
Proof.
  intros Hin Hf Hn. unfold parse_metric.
  assert (H : parse_lines p value_name (splitlines text) = Raise ValueError).
  { revert Hin. induction (splitlines text) as [|l lines IH];
      intros Hin; [contradiction|].
    cbn [parse_lines]. unfold parse_line. destruct Hin as [->|Hin].
    - rewrite (re_match_family _ _ _ _ Hf).
      destruct (python_float v) as [x|] eqn:Ex; [|reflexivity].
      exfalso. apply Hn. exact (python_float_accepts _ _ Ex).
    - destruct (re_match p l) as [[ls' v']|].
      + destruct (python_float v'); [|reflexivity].
        cbn [rbind]. rewrite (IH Hin). reflexivity.
      + cbn [rbind]. rewrite (IH Hin). reflexivity. }
  rewrite H. reflexivity.
Qed.
